(** * Seat inventory and allocation engine of chaabi-night-v2

    A shallow embedding of [ReservationService] (reservation.service.ts), of
    the two components that drive it ([ReservationComponent] and
    [AdminDashboardComponent]) and of the properties the specification
    states about them.

    Conventions of the embedding:
    - table ids, seat ids, reservation ids and timestamps are JavaScript
      numbers that only ever hold non-negative integers; they are [nat];
    - a JavaScript array is a [list]; [findIndex] answering [-1] is [None];
    - the two localStorage records are the two fields of [Storage]; a value
      written by [saveReservations]/[saveSeatStatuses] is read back unchanged
      by the next [getReservations]/[getSeatStatuses], so a service method
      that reads one key and writes it back is a function on that key's
      value.  The raw string layer (missing key, unparsable text) is modelled
      separately in [Module Persistence];
    - [Math.random()] is an oracle: a stream of fractions in [0,1);
    - [Date.now()] is a parameter [now] of the operation that calls it. *)

From Stdlib Require Import String Ascii.
From Stdlib Require Import Arith Bool Lia List Permutation Sorted.
From Stdlib Require Import ZArith.
Import ListNotations.

Set Implicit Arguments.

(** ** Data model *)

(** [{ tableId: number; seatId: number }] *)
Record SeatRef : Type := mkSeat { tableId : nat; seatId : nat }.

(** ['user' | 'admin'] *)
Inductive Source : Type := user | admin.

(** [{ tableId: number; seatId: number; source: 'user' | 'admin' }] *)
Record SeatStatus : Type :=
  mkStatus { s_tableId : nat; s_seatId : nat; source : Source }.

(** [interface ReservationEntry] *)
Record ReservationEntry : Type := mkReservation {
  id : nat;
  name : string;
  phone : string;
  pack : string;
  seats : list SeatRef;
  timestamp : nat
}.

(** [Omit<ReservationEntry, 'id'>] *)
Record ReservationDraft : Type := mkDraft {
  d_name : string;
  d_phone : string;
  d_pack : string;
  d_seats : list SeatRef;
  d_timestamp : nat
}.

(** [{ id, ...entry }] *)
Definition withId (i : nat) (entry : ReservationDraft) : ReservationEntry :=
  mkReservation i (d_name entry) (d_phone entry) (d_pack entry)
                (d_seats entry) (d_timestamp entry).

(** The two persisted records, keys 'chaabiReservations' and
    'chaabiSeatStatuses'. *)
Record Storage : Type := mkStorage {
  chaabiReservations : list ReservationEntry;
  chaabiSeatStatuses : list SeatStatus
}.

Definition emptyStorage : Storage := mkStorage [] [].

(** One value of [Math.random()]: the fraction numer / (numer + slack + 1),
    which lies in [0,1) whatever the two fields are. *)
Record Draw : Type := mkDraw { numer : nat; slack : nat }.

(** [Math.floor(Math.random() * len)] *)
Definition randomIndex (d : Draw) (len : nat) : nat :=
  (numer d * len) / (numer d + slack d + 1).

(** ** Array and string primitives of the host language *)

(** [Array.prototype.findIndex]; [None] stands for [-1]. *)
Fixpoint findIndex {A : Type} (p : A -> bool) (l : list A) : option nat :=
  match l with
  | [] => None
  | x :: rest => if p x then Some 0 else option_map S (findIndex p rest)
  end.

(** [l.splice(index, 1)]: the array without the element at [index]. *)
Fixpoint removeAt {A : Type} (index : nat) (l : list A) : list A :=
  match l, index with
  | [], _ => []
  | _ :: rest, 0 => rest
  | x :: rest, S i => x :: removeAt i rest
  end.

(** [l[index] = x] for an index inside the array. *)
Fixpoint replaceAt {A : Type} (index : nat) (x : A) (l : list A) : list A :=
  match l, index with
  | [], _ => []
  | _ :: rest, 0 => x :: rest
  | y :: rest, S i => y :: replaceAt i x rest
  end.

(** [a.sort((x, y) => x - y)] on numbers: a stable ascending sort. *)
Fixpoint insertAsc (x : nat) (l : list nat) : list nat :=
  match l with
  | [] => [x]
  | y :: rest => if x <=? y then x :: l else y :: insertAsc x rest
  end.

Definition sortAsc (l : list nat) : list nat := fold_right insertAsc [] l.

(** [a.includes(x)] on an array of numbers. *)
Definition includesNat (x : nat) (l : list nat) : bool := existsb (Nat.eqb x) l.

(** [String.prototype.toLowerCase], on the ASCII letters. *)
Definition lowerAscii (c : ascii) : ascii :=
  let n := nat_of_ascii c in
  if (65 <=? n) && (n <=? 90) then ascii_of_nat (n + 32) else c.

Fixpoint toLowerCase (s : string) : string :=
  match s with
  | EmptyString => EmptyString
  | String c rest => String (lowerAscii c) (toLowerCase rest)
  end.

(** [hay.includes(needle)] on strings. *)
Fixpoint includes (needle hay : string) : bool :=
  if String.prefix needle hay then true
  else match hay with
       | EmptyString => false
       | String _ rest => includes needle rest
       end.

(** [l.slice(start, stop)] for [start <= stop]. *)
Definition slice {A : Type} (start stop : nat) (l : list A) : list A :=
  firstn (stop - start) (skipn start l).

(** A JavaScript object whose keys are non-negative integers and whose
    values are integers: [Object.keys] lists such keys in ascending order,
    so the entries are kept in that order. *)
Definition Counts : Type := list (nat * Z).

(** [counts[key]]; [None] is [undefined]. *)
Fixpoint getCount (key : nat) (counts : Counts) : option Z :=
  match counts with
  | [] => None
  | (k, v) :: rest => if k =? key then Some v else getCount key rest
  end.

(** [counts[key] = v] *)
Fixpoint setCount (key : nat) (v : Z) (counts : Counts) : Counts :=
  match counts with
  | [] => [(key, v)]
  | (k, w) :: rest =>
      if key <? k then (key, v) :: counts
      else if key =? k then (k, v) :: rest
      else (k, w) :: setCount key v rest
  end.

(** [Object.keys(counts).map(key => parseInt(key, 10))] *)
Definition objectKeys (counts : Counts) : list nat := map fst counts.

(** [!s] for a string: only the empty string is falsy. *)
Definition isBlank (s : string) : bool :=
  match s with EmptyString => true | String _ _ => false end.

(** The fixed plan: [for (let table = 1; table <= 25; table++)] and
    [for (let seat = 1; seat <= 10; seat++)]. *)
Definition tableIds : list nat := seq 1 25.
Definition seatIds : list nat := seq 1 10.

(** ** ReservationService *)

Module ReservationService.

(** [reservations.length > 0 ? reservations[reservations.length - 1].id + 1 : 1] *)
Definition newId (reservations : list ReservationEntry) : nat :=
  match reservations with
  | [] => 1
  | r0 :: _ => id (last reservations r0) + 1
  end.

Definition addReservation (entry : ReservationDraft)
    (reservations : list ReservationEntry) : list ReservationEntry :=
  reservations ++ [withId (newId reservations) entry].

Definition deleteReservation (i : nat)
    (reservations : list ReservationEntry) : bool * list ReservationEntry :=
  match findIndex (fun r => id r =? i) reservations with
  | Some index => (true, removeAt index reservations)
  | None => (false, reservations)
  end.

Definition updateReservation (i : nat) (entry : ReservationDraft)
    (reservations : list ReservationEntry) : bool * list ReservationEntry :=
  match findIndex (fun r => id r =? i) reservations with
  | Some index => (true, replaceAt index (withId i entry) reservations)
  | None => (false, reservations)
  end.

(** [s => s.tableId === tableId && s.seatId === seatId] *)
Definition sameSeat (t s : nat) (e : SeatStatus) : bool :=
  (s_tableId e =? t) && (s_seatId e =? s).

(** One round of the [forEach] of [bookSeats]. *)
Definition bookOne (src : Source) (statuses : list SeatStatus) (seat : SeatRef)
    : list SeatStatus :=
  if existsb (sameSeat (tableId seat) (seatId seat)) statuses
  then statuses
  else statuses ++ [mkStatus (tableId seat) (seatId seat) src].

Definition bookSeats (seats : list SeatRef) (src : Source)
    (statuses : list SeatStatus) : list SeatStatus :=
  fold_left (bookOne src) seats statuses.

(** One round of the [forEach] of [unbookSeats]. *)
Definition unbookOne (statuses : list SeatStatus) (seat : SeatRef)
    : list SeatStatus :=
  filter (fun e => negb (sameSeat (tableId seat) (seatId seat) e)) statuses.

Definition unbookSeats (seats : list SeatRef) (statuses : list SeatStatus)
    : list SeatStatus :=
  fold_left unbookOne seats statuses.

Definition toggleSeat (t s : nat) (statuses : list SeatStatus)
    : list SeatStatus :=
  match findIndex (sameSeat t s) statuses with
  | Some index => removeAt index statuses
  | None => statuses ++ [mkStatus t s admin]
  end.

(** The local closure [isFree] of [assignSeats]. *)
Definition isFree (statuses : list SeatStatus) (t s : nat) : bool :=
  negb (existsb (sameSeat t s) statuses).

(** Table pack: the inner loop that checks one table. *)
Definition tableAllFree (statuses : list SeatStatus) (t : nat) : bool :=
  forallb (isFree statuses t) seatIds.

(** Table pack: the outer loop; [chosen] after it. *)
Definition pickFullTable (statuses : list SeatStatus) : list SeatRef :=
  match find (tableAllFree statuses) tableIds with
  | Some t => map (mkSeat t) seatIds
  | None => []
  end.

(** [seat === 10 ? 1 : seat + 1] *)
Definition nextSeat (seat : nat) : nat := if seat =? 10 then 1 else seat + 1.

(** Duo pack: [freeSeats] of one table, after the sort. *)
Definition tableFreeSeats (statuses : list SeatStatus) (t : nat) : list nat :=
  sortAsc (filter (isFree statuses t) seatIds).

(** Duo pack: the loop over [freeSeats] of one table. *)
Definition duoInTable (statuses : list SeatStatus) (t : nat)
    : option (list SeatRef) :=
  let freeSeats := tableFreeSeats statuses t in
  match find (fun seat => includesNat (nextSeat seat) freeSeats) freeSeats with
  | Some seat => Some [mkSeat t seat; mkSeat t (nextSeat seat)]
  | None => None
  end.

(** Duo pack: the loop labelled [outer]. *)
Fixpoint pickDuo (statuses : list SeatStatus) (tables : list nat)
    : list SeatRef :=
  match tables with
  | [] => []
  | t :: rest =>
      match duoInTable statuses t with
      | Some duo => duo
      | None => pickDuo statuses rest
      end
  end.

(** Fallback: the free seats of the whole plan, table by table. *)
Definition allFreeSeats (statuses : list SeatStatus) : list SeatRef :=
  flat_map (fun t => map (mkSeat t) (filter (isFree statuses t) seatIds))
           tableIds.

(** Fallback: [for (let i = 0; i < count && freeSeats.length > 0; i++)],
    started at iteration [i] with [n] iterations left.  The index drawn is
    below the length of the pool, so [nth] never answers its default. *)
Fixpoint pickRandom (rnd : nat -> Draw) (i n : nat) (freeSeats : list SeatRef)
    : list SeatRef :=
  match n, freeSeats with
  | 0, _ => []
  | _, [] => []
  | S n', seat0 :: _ =>
      let idx := randomIndex (rnd i) (length freeSeats) in
      nth idx freeSeats seat0
        :: pickRandom rnd (S i) n' (removeAt idx freeSeats)
  end.

(** [chosen] at the end of [assignSeats]. *)
Definition chooseSeats (rnd : nat -> Draw) (count : nat)
    (statuses : list SeatStatus) : list SeatRef :=
  let chosen := if count =? 10 then pickFullTable statuses else [] in
  let chosen :=
    if (count =? 2) && (length chosen =? 0)
    then pickDuo statuses tableIds else chosen in
  if length chosen =? 0
  then pickRandom rnd 0 count (allFreeSeats statuses)
  else chosen.

(** [assignSeats(count)]: the returned array and the seat statuses it
    leaves in the store. *)
Definition assignSeats (rnd : nat -> Draw) (count : nat)
    (statuses : list SeatStatus) : list SeatRef * list SeatStatus :=
  let chosen := chooseSeats rnd count statuses in
  (chosen, bookSeats chosen user statuses).

End ReservationService.

(** ** ReservationComponent (the public reservation form) *)

Module ReservationComponent.

(** An element of [packages]. *)
Record Package : Type :=
  mkPackage { pkg_name : string; price : nat; description : string }.

(** [seatCount] of [finalizePackReservation]. *)
Definition seatCountOf (packName : string) : nat :=
  if includes "table" (toLowerCase packName) then 10
  else if includes "duo" (toLowerCase packName) then 2
  else 1.

Definition finalizePackReservation (rnd : nat -> Draw) (now : nat)
    (formName formPhone : string) (selectedPack : option Package)
    (st : Storage) : Storage :=
  match selectedPack with
  | None => st
  | Some selected =>
      let seatCount := seatCountOf (pkg_name selected) in
      let (assigned, statuses) :=
        ReservationService.assignSeats rnd seatCount (chaabiSeatStatuses st) in
      let entry := mkDraft formName formPhone (pkg_name selected) assigned now in
      mkStorage (ReservationService.addReservation entry (chaabiReservations st))
                statuses
  end.

(** [(seat.id - 1) % 10 + 1] and [Math.floor((seat.id - 1) / 10) + 1], for
    the seat objects the constructor creates (ids 1 to 250). *)
Definition seatIndexOf (seat : nat) : nat := (seat - 1) mod 10 + 1.
Definition tableIdOf (seat : nat) : nat := (seat - 1) / 10 + 1.

(** The view of one seat after [applySeatStatuses]: the entry found for the
    seat with global id [seat], and the flags [booked] and [adminBlocked]
    set from it, computed from the statuses read at that moment. *)
Definition statusOf (statuses : list SeatStatus) (seat : nat)
    : option SeatStatus :=
  find (ReservationService.sameSeat (tableIdOf seat) (seatIndexOf seat)) statuses.

Definition booked (statuses : list SeatStatus) (seat : nat) : bool :=
  match statusOf statuses seat with
  | Some status => match source status with admin => false | user => true end
  | None => false
  end.

Definition adminBlocked (statuses : list SeatStatus) (seat : nat) : bool :=
  match statusOf statuses seat with
  | Some status => match source status with admin => true | user => false end
  | None => false
  end.

(** [toggleSeat(seat)]: [shown] is the statuses the plan currently shows,
    [selectedSeats] holds the global ids of the selected seat objects. *)
Definition toggleSeat (shown : list SeatStatus) (seat : nat)
    (selectedSeats : list nat) : list nat :=
  if booked shown seat || adminBlocked shown seat then selectedSeats
  else match findIndex (Nat.eqb seat) selectedSeats with
       | Some index => removeAt index selectedSeats
       | None => selectedSeats ++ [seat]
       end.

(** [packName] of [finalizeSeatReservation]. *)
Definition packNameOf (selected : nat) : string :=
  if selected =? 1 then "Ticket seul"
  else if selected =? 2 then "Pack duo"
  else if selected =? 10 then "Pack table complète"
  else "Sélection personnalisée".

(** [{ tableId, seatId: seatIndex }] of a selected seat (ids start at 1). *)
Definition seatRefOf (seat : nat) : SeatRef :=
  mkSeat (tableIdOf seat) (seatIndexOf seat).

Definition finalizeSeatReservation (now : nat) (formName formPhone : string)
    (selectedSeats : list nat) (st : Storage) : Storage :=
  if length selectedSeats =? 0 then st
  else
    let packName := packNameOf (length selectedSeats) in
    let seats := map seatRefOf selectedSeats in
    let entry := mkDraft formName formPhone packName seats now in
    let reservations :=
      ReservationService.addReservation entry (chaabiReservations st) in
    mkStorage reservations
              (ReservationService.bookSeats seats user (chaabiSeatStatuses st)).

(** [(i - 1) * 10 + j]: the id the constructor gives seat [j] of table [i]. *)
Definition globalId (i j : nat) : nat := (i - 1) * 10 + j.

(** [interface Table], a seat being named by its global id. *)
Record Table : Type := mkTable { table_id : nat; table_seats : list nat }.

(** [this.tables] as the constructor fills it. *)
Definition initTables : list Table :=
  map (fun i => mkTable i (map (globalId i) seatIds)) tableIds.

Definition tableGroups : list nat := [4; 3; 4; 3; 4; 3; 4].

(** The loop [for (const count of this.tableGroups)] that fills
    [tableRows], started at [startIndex]. *)
Fixpoint groupRows {A : Type} (groups : list nat) (startIndex : nat)
    (tables : list A) : list (list A) :=
  match groups with
  | [] => []
  | count :: rest =>
      slice startIndex (startIndex + count) tables
        :: groupRows rest (startIndex + count) tables
  end.

Definition tableRows : list (list Table) := groupRows tableGroups 0 initTables.

(** [isSelected(seat)] *)
Definition isSelected (selectedSeats : list nat) (seat : nat) : bool :=
  includesNat seat selectedSeats.

(** [!seat.booked && !seat.adminBlocked && !this.isSelected(seat)] *)
Definition pickable (shown : list SeatStatus) (selectedSeats : list nat)
    (seat : nat) : bool :=
  negb (booked shown seat) && negb (adminBlocked shown seat)
  && negb (isSelected selectedSeats seat).

(** [toggleTableSeats(table)] *)
Definition toggleTableSeats (shown : list SeatStatus) (table : Table)
    (selectedSeats : list nat) : list nat :=
  let hasUnselected := existsb (pickable shown selectedSeats) (table_seats table) in
  if hasUnselected then
    fold_left (fun selected seat =>
                 if pickable shown selected seat then selected ++ [seat]
                 else selected)
              (table_seats table) selectedSeats
  else
    filter (fun seat => negb (includesNat seat (table_seats table)))
           selectedSeats.

End ReservationComponent.

(** ** AdminDashboardComponent *)

Module AdminDashboardComponent.

(** The fields of the component that its operations read and write. *)
Record Component : Type := mkComponent {
  reservations : list ReservationEntry;
  editingId : option nat;
  newName : string;
  newPhone : string;
  selectedPackAdmin : string;
  selectedTableAdmin : option nat;
  selectedSeatAdmin : option nat
}.

(** Table pack: [for (let seat = 1; seat <= 10; seat++)] pushing the seats
    of the selected table that are not [occupied]. *)
Definition freeSeatsOfTable (statuses : list SeatStatus) (table : nat)
    : list SeatRef :=
  map (mkSeat table)
      (filter (fun seat =>
                 negb (existsb (ReservationService.sameSeat table seat) statuses))
              seatIds).

(** The seat list that [addReservationAdmin] ([seats]) and
    [updateReservationAdmin] ([newSeats]) build with the same three
    branches, and the seat statuses left in the store ([assignSeats]
    books what it returns). *)
Definition buildSeats (rnd : nat -> Draw) (selectedPack : string)
    (table : nat) (selectedSeat : option nat) (statuses : list SeatStatus)
    : list SeatRef * list SeatStatus :=
  let packLower := toLowerCase selectedPack in
  if includes "table" packLower then
    (freeSeatsOfTable statuses table, statuses)
  else if includes "duo" packLower then
    match selectedSeat with
    | Some first =>
        let second := ReservationService.nextSeat first in
        ([mkSeat table first; mkSeat table second], statuses)
    | None => ReservationService.assignSeats rnd 2 statuses
    end
  else
    match selectedSeat with
    | Some seat => ([mkSeat table seat], statuses)
    | None => ReservationService.assignSeats rnd 1 statuses
    end.

Definition addReservationAdmin (rnd : nat -> Draw) (now : nat)
    (c : Component) (st : Storage) : Component * Storage :=
  if isBlank (newName c) || isBlank (newPhone c)
     || isBlank (selectedPackAdmin c)
  then (c, st)
  else
    match selectedTableAdmin c with
    | None => (c, st)
    | Some table =>
        let (seats, statuses) :=
          buildSeats rnd (selectedPackAdmin c) table (selectedSeatAdmin c)
                     (chaabiSeatStatuses st) in
        let entry :=
          mkDraft (newName c) (newPhone c) (selectedPackAdmin c) seats now in
        let stored :=
          ReservationService.addReservation entry (chaabiReservations st) in
        let statuses :=
          if 0 <? length seats
          then ReservationService.bookSeats seats user statuses
          else statuses in
        (mkComponent stored (editingId c) "" "" "" None None,
         mkStorage stored statuses)
    end.

Definition updateReservationAdmin (rnd : nat -> Draw) (now : nat)
    (c : Component) (st : Storage) : Component * Storage :=
  match editingId c, selectedTableAdmin c with
  | Some editing, Some table =>
      if isBlank (newName c) || isBlank (newPhone c)
         || isBlank (selectedPackAdmin c)
      then (c, st)
      else
        match find (fun r => id r =? editing) (reservations c) with
        | None => (c, st)
        | Some oldReservation =>
            let (newSeats, statuses) :=
              buildSeats rnd (selectedPackAdmin c) table (selectedSeatAdmin c)
                         (chaabiSeatStatuses st) in
            let statuses :=
              if 0 <? length (seats oldReservation)
              then ReservationService.unbookSeats (seats oldReservation) statuses
              else statuses in
            let updatedEntry :=
              mkDraft (newName c) (newPhone c) (selectedPackAdmin c)
                      newSeats now in
            let stored :=
              snd (ReservationService.updateReservation
                     editing updatedEntry (chaabiReservations st)) in
            let statuses :=
              if 0 <? length newSeats
              then ReservationService.bookSeats newSeats user statuses
              else statuses in
            (mkComponent stored None "" "" "" None None,
             mkStorage stored statuses)
        end
  | _, _ => (c, st)
  end.

Definition deleteReservation (i : nat) (c : Component) (st : Storage)
    : Component * Storage :=
  match find (fun r => id r =? i) (reservations c) with
  | Some reservation =>
      let statuses :=
        ReservationService.unbookSeats (seats reservation)
                                       (chaabiSeatStatuses st) in
      let stored :=
        snd (ReservationService.deleteReservation i (chaabiReservations st)) in
      (mkComponent stored (editingId c) (newName c) (newPhone c)
                   (selectedPackAdmin c) (selectedTableAdmin c)
                   (selectedSeatAdmin c),
       mkStorage stored statuses)
  | None => (c, st)
  end.

(** [toggleSeatAdmin(seat)], [seat] being the global id of the seat. *)
Definition toggleSeatAdmin (seat : nat) (st : Storage) : Storage :=
  let tableId := (seat - 1) / 10 + 1 in
  let seatIndex := (seat - 1) mod 10 + 1 in
  mkStorage (chaabiReservations st)
            (ReservationService.toggleSeat tableId seatIndex
                                           (chaabiSeatStatuses st)).

(** [editingSeats] of [getAvailableTables] and [getAvailableSeats]. *)
Definition editingSeats (c : Component) : list SeatRef :=
  match editingId c with
  | None => []
  | Some editing =>
      match find (fun r => id r =? editing) (reservations c) with
      | Some r => seats r
      | None => []
      end
  end.

(** [editingSeats.some(s => s.tableId === t && s.seatId === seat)] *)
Definition isEditingSeat (c : Component) (t seat : nat) : bool :=
  existsb (fun x => (tableId x =? t) && (seatId x =? seat)) (editingSeats c).

(** [required] of [getAvailableTables]. *)
Definition requiredSeats (selectedPack : string) : Z :=
  if includes "table" (toLowerCase selectedPack) then 10%Z
  else if includes "duo" (toLowerCase selectedPack) then 2%Z
  else 1%Z.

(** One round of [statuses.forEach] in [getAvailableTables]. *)
Definition countStatus (c : Component) (counts : Counts) (status : SeatStatus)
    : Counts :=
  if isEditingSeat c (s_tableId status) (s_seatId status) then counts
  else
    let current :=
      match getCount (s_tableId status) counts with
      | Some v => v
      | None => 0%Z
      end in
    setCount (s_tableId status) (current - 1)%Z counts.

Definition getAvailableTables (c : Component) (statuses : list SeatStatus)
    : list nat :=
  let counts := fold_left (fun acc table => setCount table 10%Z acc) tableIds [] in
  let counts := fold_left (countStatus c) statuses counts in
  let required := requiredSeats (selectedPackAdmin c) in
  filter (fun t => match getCount t counts with
                   | Some v => (required <=? v)%Z
                   | None => false
                   end)
         (objectKeys counts).

Definition getAvailableSeats (c : Component) (statuses : list SeatStatus)
    : list nat :=
  match selectedTableAdmin c with
  | None => []
  | Some table =>
      let freeSeats :=
        filter (fun seat =>
                  negb (existsb (ReservationService.sameSeat table seat) statuses)
                  || isEditingSeat c table seat)
               seatIds in
      if negb (isBlank (selectedPackAdmin c))
         && includes "duo" (toLowerCase (selectedPackAdmin c))
      then filter (fun seatNum =>
                     includesNat (ReservationService.nextSeat seatNum) freeSeats)
                  freeSeats
      else freeSeats
  end.

(** [getTotalPrice(r)] *)
Definition getTotalPrice (r : ReservationEntry) : nat :=
  let packLower := toLowerCase (pack r) in
  if includes "table" packLower then 1700
  else if includes "duo" packLower then 320
  else if includes "ticket" packLower then 150
  else length (seats r) * 150.

Definition onPackChange (c : Component) : Component :=
  mkComponent (reservations c) (editingId c) (newName c) (newPhone c)
              (selectedPackAdmin c) None None.

Definition onTableChange (c : Component) : Component :=
  mkComponent (reservations c) (editingId c) (newName c) (newPhone c)
              (selectedPackAdmin c) (selectedTableAdmin c) None.

Definition editReservation (reservation : ReservationEntry) (c : Component)
    : Component :=
  let c :=
    match seats reservation with
    | firstSeat :: _ =>
        mkComponent (reservations c) (Some (id reservation))
                    (name reservation) (phone reservation) (pack reservation)
                    (Some (tableId firstSeat))
                    (if negb (includes "table" (toLowerCase (pack reservation)))
                     then Some (seatId firstSeat) else None)
    | [] =>
        mkComponent (reservations c) (Some (id reservation))
                    (name reservation) (phone reservation) (pack reservation)
                    None None
    end in
  let c := onPackChange c in
  match selectedTableAdmin c with
  | Some _ => onTableChange c
  | None => c
  end.

Definition cancelEdit (c : Component) : Component :=
  mkComponent (reservations c) None "" "" "" None None.

End AdminDashboardComponent.

(** ** The raw persistence layer: [getReservations] and [getSeatStatuses]
       as they read localStorage *)

Module Persistence.

(** A value produced by [JSON.parse]. *)
#[local] Unset Elimination Schemes.
Inductive JSON : Type :=
| JNull
| JBool (b : bool)
| JNumber (literal : string)
| JString (s : string)
| JArray (items : list JSON)
| JObject (fields : list (string * JSON)).
#[local] Set Elimination Schemes.

(** [try { body } catch (err) { return handler; }]: a body that throws is
    [None]. *)
Definition tryCatch {A : Type} (body : option A) (handler : A) : A :=
  match body with
  | Some result => result
  | None => handler
  end.

(** [item.key]: [None] is [undefined]; of duplicate keys the parser keeps
    the last. *)
Definition property (key : string) (item : JSON) : option JSON :=
  match item with
  | JObject fields =>
      option_map snd (find (fun kv => String.eqb (fst kv) key) (rev fields))
  | _ => None
  end.

(** An element of the array [getSeatStatuses] returns. *)
Record RawStatus : Type := mkRaw {
  raw_tableId : option JSON;
  raw_seatId : option JSON;
  raw_source : Source
}.

(** The callback of [parsed.map] in [getSeatStatuses]. *)
Definition normalise (item : JSON) : RawStatus :=
  let entry :=
    mkRaw (property "tableId" item) (property "seatId" item)
          match property "source" item with
          | Some (JString s) => if String.eqb s "admin" then admin else user
          | _ => user
          end in
  match item with
  | JObject _ => entry
  | JArray _ => entry
  | _ => mkRaw (Some (JNumber "0")) (Some (JNumber "0")) user
  end.

(** [parsed.map(f)]: a TypeError unless [parsed] is an array. *)
Definition arrayMap {B : Type} (f : JSON -> B) (parsed : JSON)
    : option (list B) :=
  match parsed with
  | JArray items => Some (map f items)
  | _ => None
  end.

Section WithParser.

(** [JSON.parse]: [None] when it throws a SyntaxError. *)
Variable JSON_parse : string -> option JSON.

(** [raw ? JSON.parse(raw) : []], [item] being what
    [localStorage.getItem] answered ([None] is [null]). *)
Definition parseOrEmpty (item : option string) : option JSON :=
  match item with
  | None => Some (JArray [])
  | Some raw => if isBlank raw then Some (JArray []) else JSON_parse raw
  end.

Definition getReservations (item : option string) : JSON :=
  tryCatch (parseOrEmpty item) (JArray []).

Definition getSeatStatuses (item : option string) : list RawStatus :=
  tryCatch
    match parseOrEmpty item with
    | Some parsed => arrayMap normalise parsed
    | None => None
    end
    [].

End WithParser.

(** The stored text is missing ([getItem] answers [null], or the text is
    empty) or it is not JSON ([JSON.parse] rejects it).  A text that parses
    to a value of the wrong shape is not covered by this predicate. *)
Definition missingOrUnparsable (JSON_parse : string -> option JSON)
    (item : option string) : Prop :=
  match item with
  | None => True
  | Some raw => isBlank raw = true \/ JSON_parse raw = None
  end.

(** [{ tableId: 0, seatId: 0, source: 'user' }], what [getSeatStatuses]
    makes of an array element that is not an object. *)
Definition placeholder : RawStatus :=
  mkRaw (Some (JNumber "0")) (Some (JNumber "0")) user.

(** The value is [null], a boolean, a number or a string. *)
Definition isPrimitive (item : JSON) : bool :=
  match item with
  | JObject _ => false
  | JArray _ => false
  | _ => true
  end.

End Persistence.

(** ** Vocabulary of the specification *)

(** The seat a status entry is about. *)
Definition seatOf (e : SeatStatus) : SeatRef :=
  mkSeat (s_tableId e) (s_seatId e).

Definition isUser (e : SeatStatus) : bool :=
  match source e with user => true | admin => false end.

(** The seats that hold a status entry with source user. *)
Definition userSeats (statuses : list SeatStatus) : list SeatRef :=
  map seatOf (filter isUser statuses).

(** The union of the seats lists of the live reservations. *)
Definition reservedSeats (reservations : list ReservationEntry) : list SeatRef :=
  flat_map seats reservations.

Definition disjointSeats (a b : list SeatRef) : Prop :=
  forall seat, In seat a -> ~ In seat b.

(** The seats lists of the reservations are pairwise disjoint. *)
Fixpoint pairwiseDisjoint (reservations : list ReservationEntry) : Prop :=
  match reservations with
  | [] => True
  | r :: rest =>
      (forall r', In r' rest -> disjointSeats (seats r) (seats r'))
      /\ pairwiseDisjoint rest
  end.

(** The consistency invariant between the two persisted records. *)
Definition Consistent (st : Storage) : Prop :=
  pairwiseDisjoint (chaabiReservations st)
  /\ forall seat,
       In seat (userSeats (chaabiSeatStatuses st))
       <-> In seat (reservedSeats (chaabiReservations st)).

(** The state of one seat, as [applySeatStatuses] shows it: the first entry
    for the seat decides. *)
Inductive SeatState : Type := Free | UserBooked | AdminBlocked.

Definition seatState (statuses : list SeatStatus) (t s : nat) : SeatState :=
  match find (ReservationService.sameSeat t s) statuses with
  | None => Free
  | Some e => match source e with user => UserBooked | admin => AdminBlocked end
  end.

(** The operations of the service on the seat statuses. *)
Inductive StoreOp : Type :=
| OpBook (seats : list SeatRef) (src : Source)
| OpUnbook (seats : list SeatRef)
| OpToggle (t s : nat)
| OpAssign (rnd : nat -> Draw) (count : nat).

Definition runOp (op : StoreOp) (statuses : list SeatStatus) : list SeatStatus :=
  match op with
  | OpBook seats src => ReservationService.bookSeats seats src statuses
  | OpUnbook seats => ReservationService.unbookSeats seats statuses
  | OpToggle t s => ReservationService.toggleSeat t s statuses
  | OpAssign rnd count => snd (ReservationService.assignSeats rnd count statuses)
  end.

(** A sequence of operations of the service, run from left to right. *)
Definition runOps (ops : list StoreOp) (statuses : list SeatStatus)
    : list SeatStatus :=
  fold_left (fun acc op => runOp op acc) ops statuses.

(** The seat statuses the service can reach from an empty store. *)
Inductive ReachableStatuses : list SeatStatus -> Prop :=
| reach_empty : ReachableStatuses []
| reach_step op statuses :
    ReachableStatuses statuses -> ReachableStatuses (runOp op statuses).

(** The operations of the service on the reservation list. *)
Inductive ListOp : Type :=
| OpAdd (entry : ReservationDraft)
| OpDelete (i : nat)
| OpUpdate (i : nat) (entry : ReservationDraft).

Definition runListOp (op : ListOp) (reservations : list ReservationEntry)
    : list ReservationEntry :=
  match op with
  | OpAdd entry => ReservationService.addReservation entry reservations
  | OpDelete i => snd (ReservationService.deleteReservation i reservations)
  | OpUpdate i entry =>
      snd (ReservationService.updateReservation i entry reservations)
  end.

(** The reservation lists the service can reach from an empty store. *)
Inductive ReachableReservations : list ReservationEntry -> Prop :=
| reachable_empty : ReachableReservations []
| reachable_step op reservations :
    ReachableReservations reservations ->
    ReachableReservations (runListOp op reservations).

(** The ids of the live reservations. *)
Definition liveIds (reservations : list ReservationEntry) : list nat :=
  map id reservations.

(** The status entries the store holds for one seat. *)
Definition entriesFor (statuses : list SeatStatus) (seat : SeatRef)
    : list SeatStatus :=
  filter (ReservationService.sameSeat (tableId seat) (seatId seat)) statuses.

(** The entry [bookSeats] pushes for a seat. *)
Definition entryOf (src : Source) (seat : SeatRef) : SeatStatus :=
  mkStatus (tableId seat) (seatId seat) src.

(** What [bookSeats] pushes: entries with the given source, for seats of the
    argument that had no entry. *)
Definition pushedBy (seats : list SeatRef) (src : Source)
    (statuses : list SeatStatus) (e : SeatStatus) : Prop :=
  source e = src /\ In (seatOf e) seats /\ entriesFor statuses (seatOf e) = [].

(** [t] names a table of the plan, [s] a seat of a table. *)
Definition isTable (t : nat) : Prop := 1 <= t <= 25.
Definition isSeat (s : nat) : Prop := 1 <= s <= 10.

(** ** Snapshots used in the examples *)

(** A run of [Math.random()] that always answers 0. *)
Definition noDraw : nat -> Draw := fun _ => mkDraw 0 0.

(** The ten seats of a table. *)
Definition tableSeats (t : nat) : list SeatRef := map (mkSeat t) seatIds.

(** Status entries with source [src] for the given seats. *)
Definition occupy (src : Source) (seats : list SeatRef) : list SeatStatus :=
  map (entryOf src) seats.

(** Every seat of the plan is booked. *)
Definition fullHouse : list SeatStatus :=
  occupy user (flat_map tableSeats tableIds).

(** Tables 1 and 2 are fully booked; table 3 has only seats 9 and 10 free. *)
Definition table3TwoLeft : list SeatStatus :=
  occupy user (tableSeats 1 ++ tableSeats 2 ++ map (mkSeat 3) (seq 1 8)).

(** Table 1 has only seats 1 and 10 free. *)
Definition table1Ends : list SeatStatus :=
  occupy user (map (mkSeat 1) (seq 2 8)).

(** A reservation form with every field blank but the name. *)
Definition draftOf (who : string) : ReservationDraft := mkDraft who "" "" [] 0.

(** The seats of a table that hold no status entry, in seat order. *)
Definition unoccupiedSeats (statuses : list SeatStatus) (table : nat)
    : list SeatRef :=
  filter (fun seat => match entriesFor statuses seat with
                      | [] => true
                      | _ :: _ => false
                      end)
         (tableSeats table).

(** A stand-in for [JSON.parse] that knows three texts: the empty array, a
    one-element array and [null]; it rejects every other text. *)
Definition parseSample (raw : string) : option Persistence.JSON :=
  if String.eqb raw "[]" then Some (Persistence.JArray [])
  else if String.eqb raw "[7]"
       then Some (Persistence.JArray [Persistence.JNumber "7"])
  else if String.eqb raw "null" then Some Persistence.JNull
  else None.

(** The administrator's form: a table pack on table 2, while reservation 1
    is being edited. *)
Definition tablePackForm (stored : list ReservationEntry)
    : AdminDashboardComponent.Component :=
  AdminDashboardComponent.mkComponent
    stored (Some 1) "Amal" "0600000000" "Pack table complète" (Some 2) None.

(** A store where reservation 1 holds seat (1,1) and the administrator has
    blocked seat (2,3). *)
Definition table2Blocked : Storage :=
  mkStorage [mkReservation 1 "Amal" "0600000000" "Ticket seul" [mkSeat 1 1] 0]
            [mkStatus 1 1 user; mkStatus 2 3 admin].

(** The administrator's form: a duo pack on table 1 starting at seat 1. *)
Definition duoForm : AdminDashboardComponent.Component :=
  AdminDashboardComponent.mkComponent
    [] None "Amal" "0600000000" "Pack duo" (Some 1) (Some 1).

(** The store after the administrator has blocked seat (1,2), the seat with
    global id 2, in an empty store. *)
Definition neighbourBlocked : Storage :=
  AdminDashboardComponent.toggleSeatAdmin 2 emptyStorage.

(** The seats that the administrator's form names itself, when a seat is
    selected and the pack is not a table pack: the selected seat, and its
    circular successor for a duo. *)
Definition explicitSeats (selectedPack : string) (table : nat)
    (selectedSeat : option nat) : list SeatRef :=
  match selectedSeat with
  | None => []
  | Some seat =>
      if includes "table" (toLowerCase selectedPack) then []
      else if includes "duo" (toLowerCase selectedPack)
           then [mkSeat table seat; mkSeat table (ReservationService.nextSeat seat)]
           else [mkSeat table seat]
  end.

(** The administrator's form: a single ticket on seat 1 of table 1. *)
Definition ticketForm (stored : list ReservationEntry)
    : AdminDashboardComponent.Component :=
  AdminDashboardComponent.mkComponent
    stored None "Badr" "0611111111" "Ticket seul" (Some 1) (Some 1).

(** The store after a customer has taken a single ticket in an empty store
    (the draw picks the first free seat, (1,1)). *)
Definition oneTicketSold : Storage :=
  ReservationComponent.finalizePackReservation
    noDraw 1 "Amal" "0600000000"
    (Some (ReservationComponent.mkPackage "Ticket seul" 150 ""))
    emptyStorage.

(** [seats.some(seat => e.tableId === seat.tableId && e.seatId === seat.seatId)]:
    the entry [e] is about one of the listed seats. *)
Definition listedIn (seats : list SeatRef) (e : SeatStatus) : bool :=
  existsb (fun x => ReservationService.sameSeat (tableId x) (seatId x) e) seats.

(** A click on the plan of the public form: on a seat ([toggleSeat]) or on
    a table ([toggleTableSeats]). *)
Inductive SelectOp : Type :=
| ClickSeat (seat : nat)
| ClickTable (table : ReservationComponent.Table).

Definition runSelect (shown : list SeatStatus) (selected : list nat)
    (op : SelectOp) : list nat :=
  match op with
  | ClickSeat seat => ReservationComponent.toggleSeat shown seat selected
  | ClickTable table =>
      ReservationComponent.toggleTableSeats shown table selected
  end.

(** The selection after a sequence of clicks on a plan that shows [shown],
    starting from the selection [selected]. *)
Definition runSelects (shown : list SeatStatus) (ops : list SelectOp)
    (selected : list nat) : list nat :=
  fold_left (runSelect shown) ops selected.

(** A seat of [table] that the administrator's dropdown may offer: it holds
    no entry, or it belongs to the reservation being edited. *)
Definition offerable (c : AdminDashboardComponent.Component)
    (statuses : list SeatStatus) (table seat : nat) : Prop :=
  entriesFor statuses (mkSeat table seat) = []
  \/ In (mkSeat table seat) (AdminDashboardComponent.editingSeats c).

(** The number of status entries on table [t] that do not belong to the
    reservation being edited. *)
Definition occupancy (c : AdminDashboardComponent.Component)
    (statuses : list SeatStatus) (t : nat) : nat :=
  length (filter (fun e =>
                    negb (AdminDashboardComponent.isEditingSeat
                            c (s_tableId e) (s_seatId e))
                    && (s_tableId e =? t))
                 statuses).

(** A store where reservation 1 holds the whole of table 2. *)
Definition table2Taken : Storage :=
  mkStorage
    [mkReservation 1 "Amal" "0600000000" "Pack table complète" (tableSeats 2) 0]
    (occupy user (tableSeats 2)).

(** A store where seat 1 of every table is booked: no table is entirely
    free. *)
Definition firstSeatsTaken : list SeatStatus :=
  occupy user (map (fun t => mkSeat t 1) tableIds).

(** * Properties *)

Import ReservationService.

(** ** Seats and status entries *)

Lemma seat_eq_dec (a b : SeatRef) : {a = b} + {a <> b}.
Proof. decide equality; apply Nat.eq_dec. Qed.

Lemma sameSeat_true t s e :
  sameSeat t s e = true <-> seatOf e = mkSeat t s.
Proof.
  unfold sameSeat, seatOf. rewrite andb_true_iff, !Nat.eqb_eq.
  split; [intros [-> ->]; reflexivity | intros H; inversion H; auto].
Qed.

Lemma sameSeat_entryOf src a b :
  sameSeat (tableId b) (seatId b) (entryOf src a) = true <-> a = b.
Proof.
  rewrite sameSeat_true. destruct a, b; unfold seatOf, entryOf; simpl.
  split; intros H; inversion H; reflexivity.
Qed.

Lemma existsb_entriesFor statuses seat :
  existsb (sameSeat (tableId seat) (seatId seat)) statuses = false
  <-> entriesFor statuses seat = [].
Proof.
  unfold entriesFor. induction statuses as [|e rest IH]; simpl.
  - tauto.
  - destruct (sameSeat (tableId seat) (seatId seat) e); simpl.
    + split; discriminate.
    + exact IH.
Qed.

Lemma isFree_entriesFor statuses t s :
  isFree statuses t s = true <-> entriesFor statuses (mkSeat t s) = [].
Proof.
  unfold isFree. rewrite negb_true_iff.
  apply (existsb_entriesFor statuses (mkSeat t s)).
Qed.

(** ** bookSeats *)

Lemma bookSeats_cons seat seats src statuses :
  bookSeats (seat :: seats) src statuses
  = bookSeats seats src (bookOne src statuses seat).
Proof. reflexivity. Qed.

Lemma entriesFor_bookOne_present src statuses x seat :
  entriesFor statuses seat <> [] ->
  entriesFor (bookOne src statuses x) seat = entriesFor statuses seat.
Proof.
  intros Hpresent. unfold bookOne.
  destruct (existsb _ statuses) eqn:Hx; [reflexivity|].
  unfold entriesFor. rewrite filter_app. simpl.
  destruct (sameSeat (tableId seat) (seatId seat) _) eqn:Hs.
  - apply sameSeat_entryOf in Hs. subst x.
    apply existsb_entriesFor in Hx. contradiction.
  - apply app_nil_r.
Qed.

Lemma entriesFor_bookOne_other src statuses x seat :
  x <> seat ->
  entriesFor (bookOne src statuses x) seat = entriesFor statuses seat.
Proof.
  intros Hneq. unfold bookOne.
  destruct (existsb _ statuses); [reflexivity|].
  unfold entriesFor. rewrite filter_app. simpl.
  destruct (sameSeat (tableId seat) (seatId seat) _) eqn:Hs.
  - apply sameSeat_entryOf in Hs. contradiction.
  - apply app_nil_r.
Qed.

Lemma entriesFor_bookOne_absent src statuses seat :
  entriesFor statuses seat = [] ->
  entriesFor (bookOne src statuses seat) seat = [entryOf src seat].
Proof.
  intros Habsent. unfold bookOne.
  destruct (existsb _ statuses) eqn:Hx.
  - apply existsb_entriesFor in Habsent. congruence.
  - unfold entriesFor in *. rewrite filter_app, Habsent. simpl.
    replace (sameSeat _ _ _) with true; [reflexivity|].
    symmetry. apply (sameSeat_entryOf src seat seat). reflexivity.
Qed.

Lemma entriesFor_bookSeats_present seats src : forall statuses seat,
  entriesFor statuses seat <> [] ->
  entriesFor (bookSeats seats src statuses) seat = entriesFor statuses seat.
Proof.
  induction seats as [|x rest IH]; intros statuses seat Hpresent.
  - reflexivity.
  - rewrite bookSeats_cons, IH;
      rewrite entriesFor_bookOne_present; auto.
Qed.

Lemma entriesFor_bookSeats_absent seats src : forall statuses seat,
  In seat seats ->
  entriesFor statuses seat = [] ->
  entriesFor (bookSeats seats src statuses) seat = [entryOf src seat].
Proof.
  induction seats as [|x rest IH]; intros statuses seat Hin Habsent.
  - contradiction.
  - rewrite bookSeats_cons. destruct (seat_eq_dec x seat) as [->|Hneq].
    + rewrite entriesFor_bookSeats_present;
        rewrite entriesFor_bookOne_absent; auto; discriminate.
    + destruct Hin as [Heq|Hin]; [contradiction|].
      apply IH; [assumption|].
      rewrite entriesFor_bookOne_other; assumption.
Qed.

Lemma entriesFor_bookSeats_outside seats src : forall statuses seat,
  ~ In seat seats ->
  entriesFor (bookSeats seats src statuses) seat = entriesFor statuses seat.
Proof.
  induction seats as [|x rest IH]; intros statuses seat Hout.
  - reflexivity.
  - rewrite bookSeats_cons, IH by (simpl in Hout; tauto).
    apply entriesFor_bookOne_other. simpl in Hout. tauto.
Qed.

Lemma bookSeats_extends seats src : forall statuses,
  exists added,
    bookSeats seats src statuses = statuses ++ added
    /\ Forall (pushedBy seats src statuses) added.
Proof.
  induction seats as [|x rest IH]; intros statuses.
  - exists []. split; [symmetry; apply app_nil_r | constructor].
  - rewrite bookSeats_cons.
    destruct (IH (bookOne src statuses x)) as (added & Heq & Hall).
    unfold bookOne in *.
    destruct (existsb _ statuses) eqn:Hx.
    + exists added. split; [assumption|].
      eapply Forall_impl; [|exact Hall].
      intros e (Hs & Hin & Hnone). repeat split; simpl; auto.
    + exists (entryOf src x :: added). split.
      * rewrite Heq, <- app_assoc. reflexivity.
      * apply existsb_entriesFor in Hx.
        constructor.
        -- unfold pushedBy, seatOf, entryOf; simpl.
           destruct x as [t s]; simpl in *. auto.
        -- eapply Forall_impl; [|exact Hall].
           intros e (Hs & Hin & Hnone). repeat split; simpl; auto.
           unfold entriesFor in *. rewrite filter_app in Hnone.
           apply app_eq_nil in Hnone. tauto.
Qed.

Lemma bookSeats_all_present seats src : forall statuses,
  (forall seat, In seat seats -> entriesFor statuses seat <> []) ->
  bookSeats seats src statuses = statuses.
Proof.
  induction seats as [|x rest IH]; intros statuses Hall.
  - reflexivity.
  - rewrite bookSeats_cons.
    assert (Hx : bookOne src statuses x = statuses).
    { unfold bookOne. destruct (existsb _ statuses) eqn:Hx; [reflexivity|].
      apply existsb_entriesFor in Hx. apply Hall in Hx; [tauto | now left]. }
    rewrite Hx. apply IH. intros seat Hin. apply Hall. now right.
Qed.

Lemma bookSeats_covers seats src statuses seat :
  In seat seats -> entriesFor (bookSeats seats src statuses) seat <> [].
Proof.
  intros Hin. destruct (entriesFor statuses seat) eqn:He.
  - rewrite entriesFor_bookSeats_absent by assumption. discriminate.
  - rewrite entriesFor_bookSeats_present; rewrite He; discriminate.
Qed.

Lemma bookSeats_twice seats src src' statuses :
  bookSeats seats src' (bookSeats seats src statuses)
  = bookSeats seats src statuses.
Proof.
  apply bookSeats_all_present. intros seat Hin.
  now apply bookSeats_covers.
Qed.

(** Booking seats that are free and distinct pushes one entry per seat, in
    the order of the argument. *)
Lemma bookSeats_fresh seats src : forall statuses,
  NoDup seats ->
  (forall seat, In seat seats -> entriesFor statuses seat = []) ->
  bookSeats seats src statuses = statuses ++ map (entryOf src) seats.
Proof.
  induction seats as [|x rest IH]; intros statuses Hnd Hfree.
  - symmetry. apply app_nil_r.
  - rewrite bookSeats_cons. inversion Hnd as [|? ? Hnotin Hnd']; subst.
    assert (Hx : bookOne src statuses x = statuses ++ [entryOf src x]).
    { unfold bookOne. destruct (existsb _ statuses) eqn:Hx; [|reflexivity].
      rewrite (proj2 (existsb_entriesFor statuses x)) in Hx;
        [discriminate | apply Hfree; now left]. }
    rewrite IH; [rewrite Hx, <- app_assoc; reflexivity | assumption |].
    intros seat Hin. rewrite entriesFor_bookOne_other.
    + apply Hfree. now right.
    + intros ->. contradiction.
Qed.

(** ** Array primitives *)

Lemma removeAt_length {A : Type} : forall (l : list A) idx,
  idx < length l -> length (removeAt idx l) = pred (length l).
Proof.
  induction l as [|x rest IH]; intros idx Hidx; simpl in *; [lia|].
  destruct idx as [|idx]; [reflexivity|].
  simpl. rewrite IH by lia. destruct rest; simpl in *; lia.
Qed.

Lemma removeAt_nth_perm {A : Type} (d : A) : forall (l : list A) idx,
  idx < length l -> Permutation l (nth idx l d :: removeAt idx l).
Proof.
  induction l as [|x rest IH]; intros idx Hidx; simpl in *; [lia|].
  destruct idx as [|idx]; [reflexivity|].
  eapply perm_trans; [|apply perm_swap].
  constructor. apply IH. lia.
Qed.

Lemma removeAt_incl {A : Type} : forall (l : list A) idx,
  incl (removeAt idx l) l.
Proof.
  induction l as [|x rest IH]; intros idx y Hy.
  - destruct idx; exact Hy.
  - destruct idx as [|idx]; simpl in Hy; [now right|].
    destruct Hy as [->|Hy]; [now left | right; eapply IH; eassumption].
Qed.

Lemma findIndex_none {A : Type} (p : A -> bool) : forall l,
  findIndex p l = None <-> forall x, In x l -> p x = false.
Proof.
  induction l as [|y rest IH]; simpl.
  - split; [intros _ x [] | reflexivity].
  - destruct (p y) eqn:Hy.
    + split; [discriminate|]. intros H. rewrite H in Hy by now left.
      discriminate.
    + destruct (findIndex p rest); simpl.
      * split; [discriminate|]. intros H.
        assert (Hnone : Some n = None)
          by (apply (proj2 IH); intros x Hx; apply H; now right).
        discriminate.
      * split; [|reflexivity]. intros _ x [<-|Hx]; [assumption|].
        now apply (proj1 IH).
Qed.

Lemma findIndex_some {A : Type} (p : A -> bool) : forall l index,
  findIndex p l = Some index ->
  exists before x after,
    l = before ++ x :: after /\ length before = index /\ p x = true
    /\ (forall y, In y before -> p y = false)
    /\ removeAt index l = before ++ after.
Proof.
  induction l as [|y rest IH]; intros index Hfind; simpl in *; [discriminate|].
  destruct (p y) eqn:Hy.
  - inversion Hfind; subst. exists [], y, rest. simpl. intuition.
  - destruct (findIndex p rest) as [i|]; [|discriminate].
    inversion Hfind; subst.
    destruct (IH i eq_refl) as (before & x & after & -> & <- & Hx & Hb & Hr).
    exists (y :: before), x, after. simpl. rewrite Hr.
    repeat split; auto. intros z [<-|Hz]; auto.
Qed.

Lemma randomIndex_lt d len : 0 < len -> randomIndex d len < len.
Proof.
  intros Hlen. unfold randomIndex.
  apply Nat.Div0.div_lt_upper_bound. nia.
Qed.

Lemma insertAsc_least x l :
  Forall (fun y => x <= y) l -> insertAsc x l = x :: l.
Proof.
  intros Hall. destruct l as [|y rest]; [reflexivity|].
  simpl. inversion Hall; subst.
  now rewrite (proj2 (Nat.leb_le x y)).
Qed.

Lemma sortAsc_filter_seq (p : nat -> bool) : forall n a,
  sortAsc (filter p (seq a n)) = filter p (seq a n).
Proof.
  induction n as [|n IH]; intros a; simpl; [reflexivity|].
  destruct (p a); [|apply IH].
  simpl. fold (sortAsc (filter p (seq (S a) n))). rewrite IH.
  apply insertAsc_least. apply Forall_forall.
  intros y Hy. apply filter_In in Hy as [Hy _]. apply in_seq in Hy. lia.
Qed.

Lemma find_first_seq (p : nat -> bool) x : forall n a,
  a <= x < a + n -> p x = true ->
  (forall y, a <= y < x -> p y = false) ->
  find p (seq a n) = Some x.
Proof.
  induction n as [|n IH]; intros a Hx Hp Hbefore; simpl; [lia|].
  destruct (Nat.eq_dec a x) as [->|Hneq].
  - now rewrite Hp.
  - rewrite Hbefore by lia. apply IH; [lia | assumption |].
    intros y Hy. apply Hbefore. lia.
Qed.

Lemma find_first_filter_seq (p q : nat -> bool) x : forall n a,
  a <= x < a + n -> q x = true -> p x = true ->
  (forall y, a <= y < x -> q y = true -> p y = false) ->
  find p (filter q (seq a n)) = Some x.
Proof.
  induction n as [|n IH]; intros a Hx Hq Hp Hbefore; simpl; [lia|].
  destruct (Nat.eq_dec a x) as [->|Hneq].
  - rewrite Hq. simpl. now rewrite Hp.
  - assert (Hrest : find p (filter q (seq (S a) n)) = Some x).
    { apply IH; [lia | assumption | assumption |].
      intros y Hy. apply Hbefore. lia. }
    destruct (q a) eqn:Hqa; [|assumption].
    simpl. rewrite Hbefore by (lia || assumption). assumption.
Qed.

Lemma find_all_false {A : Type} (p : A -> bool) : forall l,
  (forall x, In x l -> p x = false) -> find p l = None.
Proof.
  induction l as [|y rest IH]; intros Hall; simpl; [reflexivity|].
  rewrite Hall by now left. apply IH. intros x Hx. apply Hall. now right.
Qed.

(** ** The three rules of assignSeats *)

Lemma nextSeat_isSeat s : isSeat s -> isSeat (nextSeat s).
Proof.
  unfold isSeat, nextSeat. intros Hs.
  destruct (Nat.eqb_spec s 10); lia.
Qed.

Lemma nextSeat_neq s : nextSeat s <> s.
Proof. unfold nextSeat. destruct (Nat.eqb_spec s 10); lia. Qed.

Lemma in_seatIds s : In s seatIds <-> isSeat s.
Proof. unfold seatIds, isSeat. rewrite in_seq. lia. Qed.

Lemma in_tableIds t : In t tableIds <-> isTable t.
Proof. unfold tableIds, isTable. rewrite in_seq. lia. Qed.

Lemma in_allFreeSeats statuses x :
  In x (allFreeSeats statuses)
  <-> isTable (tableId x) /\ isSeat (seatId x)
      /\ isFree statuses (tableId x) (seatId x) = true.
Proof.
  unfold allFreeSeats. rewrite in_flat_map. split.
  - intros (t & Ht & Hin). apply in_map_iff in Hin as (s & <- & Hs).
    apply filter_In in Hs as [Hs Hfree]. simpl.
    apply in_tableIds in Ht. apply in_seatIds in Hs. auto.
  - intros (Ht & Hs & Hfree). exists (tableId x). split.
    + now apply in_tableIds.
    + apply in_map_iff. exists (seatId x). split; [now destruct x|].
      apply filter_In. split; [now apply in_seatIds | assumption].
Qed.

Lemma NoDup_seats_by_table (f : nat -> list nat) : forall tables,
  NoDup tables -> (forall t, NoDup (f t)) ->
  NoDup (flat_map (fun t => map (mkSeat t) (f t)) tables).
Proof.
  induction tables as [|t rest IH]; intros Hnd Hf; simpl; [constructor|].
  inversion Hnd as [|? ? Hnotin Hnd']; subst.
  apply NoDup_app.
  - apply Finite.Injective_map_NoDup; [|apply Hf].
    intros a b Hab. now inversion Hab.
  - now apply IH.
  - intros x Hx Hrest. apply in_map_iff in Hx as (s & <- & _).
    apply in_flat_map in Hrest as (t' & Ht' & Hin).
    apply in_map_iff in Hin as (s' & Heq & _).
    inversion Heq; subst. contradiction.
Qed.

Lemma NoDup_allFreeSeats statuses : NoDup (allFreeSeats statuses).
Proof.
  unfold allFreeSeats.
  apply (NoDup_seats_by_table (fun t => filter (isFree statuses t) seatIds)).
  - apply seq_NoDup.
  - intros t. apply NoDup_filter, seq_NoDup.
Qed.

Lemma tableFreeSeats_filter statuses t :
  tableFreeSeats statuses t = filter (isFree statuses t) seatIds.
Proof. apply sortAsc_filter_seq. Qed.

Lemma in_tableFreeSeats statuses t s :
  In s (tableFreeSeats statuses t) <-> isSeat s /\ isFree statuses t s = true.
Proof. rewrite tableFreeSeats_filter, filter_In, in_seatIds. tauto. Qed.

Lemma includesNat_true x l : includesNat x l = true <-> In x l.
Proof.
  unfold includesNat. rewrite existsb_exists. split.
  - intros (y & Hy & Heq). apply Nat.eqb_eq in Heq. now subst.
  - intros Hx. exists x. split; [assumption | apply Nat.eqb_refl].
Qed.

Lemma pickFullTable_cases statuses :
  pickFullTable statuses = []
  \/ exists t, isTable t /\ tableAllFree statuses t = true
               /\ pickFullTable statuses = map (mkSeat t) seatIds.
Proof.
  unfold pickFullTable.
  destruct (find (tableAllFree statuses) tableIds) as [t|] eqn:Hfind.
  - right. apply find_some in Hfind as [Hin Hfree].
    exists t. rewrite <- in_tableIds. auto.
  - now left.
Qed.

Lemma duoInTable_some statuses t duo :
  duoInTable statuses t = Some duo ->
  exists s, isSeat s /\ isFree statuses t s = true
            /\ isFree statuses t (nextSeat s) = true
            /\ duo = [mkSeat t s; mkSeat t (nextSeat s)].
Proof.
  unfold duoInTable.
  destruct (find _ (tableFreeSeats statuses t)) as [s|] eqn:Hfind;
    [|discriminate].
  intros Heq. inversion Heq; subst; clear Heq.
  apply find_some in Hfind as [Hs Hnext].
  apply includesNat_true in Hnext.
  apply in_tableFreeSeats in Hs, Hnext.
  exists s. tauto.
Qed.

Lemma pickDuo_cases statuses : forall tables,
  pickDuo statuses tables = []
  \/ exists t s, In t tables /\ isSeat s /\ isFree statuses t s = true
                 /\ isFree statuses t (nextSeat s) = true
                 /\ pickDuo statuses tables
                    = [mkSeat t s; mkSeat t (nextSeat s)].
Proof.
  induction tables as [|t rest IH]; simpl; [now left|].
  destruct (duoInTable statuses t) as [duo|] eqn:Hduo.
  - right. apply duoInTable_some in Hduo as (s & Hs & Hf & Hn & ->).
    exists t, s. auto.
  - destruct IH as [IH|(t' & s & Hin & Hrest)]; [now left|].
    right. exists t', s. auto.
Qed.

Lemma pickRandom_split rnd : forall n i pool,
  exists rest,
    Permutation pool (pickRandom rnd i n pool ++ rest)
    /\ length (pickRandom rnd i n pool) = Nat.min n (length pool).
Proof.
  induction n as [|n IH]; intros i pool.
  - exists pool. destruct pool; simpl; auto.
  - destruct pool as [|seat0 l].
    + exists []. simpl. auto.
    + cbn [pickRandom].
      set (pool := seat0 :: l).
      assert (Hidx : randomIndex (rnd i) (length pool) < length pool)
        by (apply randomIndex_lt; simpl; lia).
      set (idx := randomIndex (rnd i) (length pool)) in *.
      destruct (IH (S i) (removeAt idx pool)) as (rest & Hperm & Hlen).
      exists rest. split.
      * rewrite (removeAt_nth_perm seat0 pool Hidx) at 1.
        simpl. now constructor.
      * simpl length at 1. rewrite Hlen, removeAt_length by assumption.
        subst pool. simpl. lia.
Qed.

Lemma pickRandom_exhausts rnd n i pool :
  length pool <= n -> Permutation (pickRandom rnd i n pool) pool.
Proof.
  intros Hlen.
  destruct (pickRandom_split rnd n i pool) as (rest & Hperm & Hpicked).
  assert (Hrest : rest = []).
  { apply Permutation_length in Hperm. rewrite length_app in Hperm.
    destruct rest; [reflexivity | simpl in Hperm; lia]. }
  subst rest. rewrite app_nil_r in Hperm. now symmetry.
Qed.

Lemma pickRandom_fresh rnd n i pool :
  NoDup pool ->
  NoDup (pickRandom rnd i n pool) /\ incl (pickRandom rnd i n pool) pool.
Proof.
  intros Hnd.
  destruct (pickRandom_split rnd n i pool) as (rest & Hperm & _).
  split.
  - apply (Permutation_NoDup Hperm) in Hnd. now apply NoDup_app_remove_r in Hnd.
  - intros x Hx. apply (Permutation_in x (Permutation_sym Hperm)).
    apply in_or_app. now left.
Qed.

Lemma fullTable_fresh statuses t :
  isTable t -> tableAllFree statuses t = true ->
  NoDup (map (mkSeat t) seatIds)
  /\ incl (map (mkSeat t) seatIds) (allFreeSeats statuses).
Proof.
  intros Ht Hfree. split.
  - apply Finite.Injective_map_NoDup; [|apply seq_NoDup].
    intros a b Hab. now inversion Hab.
  - intros x Hx. apply in_map_iff in Hx as (s & <- & Hs).
    apply in_allFreeSeats. simpl.
    unfold tableAllFree in Hfree. rewrite forallb_forall in Hfree.
    repeat split; try apply Ht; try (now apply in_seatIds). now apply Hfree.
Qed.

Lemma duo_fresh statuses t s :
  isTable t -> isSeat s ->
  isFree statuses t s = true -> isFree statuses t (nextSeat s) = true ->
  NoDup [mkSeat t s; mkSeat t (nextSeat s)]
  /\ incl [mkSeat t s; mkSeat t (nextSeat s)] (allFreeSeats statuses).
Proof.
  intros Ht Hs Hfree Hnext. split.
  - constructor; [|constructor; [intros []|constructor]].
    intros [Heq|[]]. inversion Heq as [Hn]. now apply nextSeat_neq in Hn.
  - intros x [<-|[<-|[]]]; apply in_allFreeSeats; simpl; repeat split;
      try apply Ht; try apply Hs; try (now apply nextSeat_isSeat); assumption.
Qed.

(** What [assignSeats] chooses comes from the random fallback, or is a full
    table or a duo of exactly [count] seats; in every case the seats are
    distinct free seats of the plan. *)
Lemma chooseSeats_cases rnd count statuses :
  chooseSeats rnd count statuses
    = pickRandom rnd 0 count (allFreeSeats statuses)
  \/ (length (chooseSeats rnd count statuses) = count
      /\ NoDup (chooseSeats rnd count statuses)
      /\ incl (chooseSeats rnd count statuses) (allFreeSeats statuses)).
Proof.
  unfold chooseSeats.
  destruct (Nat.eqb_spec count 10) as [->|H10].
  - change (10 =? 2) with false. cbv beta iota zeta. rewrite andb_false_l.
    destruct (pickFullTable_cases statuses) as [->|(t & Ht & Hfree & ->)].
    + now left.
    + right. change (length (map (mkSeat t) seatIds) =? 0) with false.
      cbv iota. split; [reflexivity|]. now apply fullTable_fresh.
  - destruct (Nat.eqb_spec count 2) as [->|H2].
    + change (length (@nil SeatRef) =? 0) with true. rewrite andb_true_l.
      cbv beta iota zeta.
      destruct (pickDuo_cases statuses tableIds)
        as [->|(t & s & Ht & Hs & Hfree & Hnext & ->)].
      * now left.
      * right. change (length [mkSeat t s; mkSeat t (nextSeat s)] =? 0)
          with false.
        cbv iota. split; [reflexivity|].
        apply duo_fresh; auto. now apply in_tableIds.
    + rewrite andb_false_l. now left.
Qed.

Lemma chooseSeats_fresh rnd count statuses :
  NoDup (chooseSeats rnd count statuses)
  /\ incl (chooseSeats rnd count statuses) (allFreeSeats statuses).
Proof.
  destruct (chooseSeats_cases rnd count statuses) as [->|(_ & Hnd & Hincl)].
  - apply pickRandom_fresh, NoDup_allFreeSeats.
  - auto.
Qed.

Lemma chooseSeats_free rnd count statuses seat :
  In seat (chooseSeats rnd count statuses) -> entriesFor statuses seat = [].
Proof.
  intros Hin. apply chooseSeats_fresh in Hin.
  apply in_allFreeSeats in Hin as (_ & _ & Hfree).
  apply isFree_entriesFor in Hfree. now destruct seat.
Qed.

Lemma assignSeats_books rnd count statuses :
  snd (assignSeats rnd count statuses)
  = statuses ++ map (entryOf user) (fst (assignSeats rnd count statuses)).
Proof.
  unfold assignSeats. simpl. apply bookSeats_fresh.
  - apply chooseSeats_fresh.
  - intros seat. apply chooseSeats_free.
Qed.

Lemma duoInTable_first statuses t s :
  isSeat s ->
  isFree statuses t s = true -> isFree statuses t (nextSeat s) = true ->
  (forall s', isSeat s' -> s' < s -> isFree statuses t s' = true ->
              isFree statuses t (nextSeat s') = false) ->
  duoInTable statuses t = Some [mkSeat t s; mkSeat t (nextSeat s)].
Proof.
  intros Hs Hfree Hnext Hbefore. unfold duoInTable.
  replace (find _ (tableFreeSeats statuses t)) with (Some s); [reflexivity|].
  symmetry. rewrite tableFreeSeats_filter.
  apply (@find_first_filter_seq _ (isFree statuses t) s 10 1).
  - unfold isSeat in Hs. lia.
  - assumption.
  - rewrite <- tableFreeSeats_filter.
    apply includesNat_true, in_tableFreeSeats.
    split; [now apply nextSeat_isSeat | assumption].
  - intros s' Hs' Hfree'. rewrite <- tableFreeSeats_filter.
    assert (Hseat : isSeat s') by (unfold isSeat in *; lia).
    destruct (includesNat _ _) eqn:Hinc; [|reflexivity].
    apply includesNat_true, in_tableFreeSeats in Hinc as [_ Hinc].
    rewrite Hbefore in Hinc; [discriminate | assumption | lia | assumption].
Qed.

Lemma duoInTable_none statuses t :
  (forall s', isSeat s' -> isFree statuses t s' = true ->
              isFree statuses t (nextSeat s') = false) ->
  duoInTable statuses t = None.
Proof.
  intros Hnone. unfold duoInTable.
  rewrite find_all_false; [reflexivity|].
  intros s' Hs'. apply in_tableFreeSeats in Hs' as [Hseat Hfree].
  destruct (includesNat _ _) eqn:Hinc; [|reflexivity].
  apply includesNat_true, in_tableFreeSeats in Hinc as [_ Hinc].
  rewrite Hnone in Hinc; [discriminate | assumption | assumption].
Qed.

Lemma pickDuo_first statuses t duo : forall n a,
  a <= t < a + n ->
  duoInTable statuses t = Some duo ->
  (forall t', a <= t' < t -> duoInTable statuses t' = None) ->
  pickDuo statuses (seq a n) = duo.
Proof.
  induction n as [|n IH]; intros a Ht Hduo Hbefore; simpl; [lia|].
  destruct (Nat.eq_dec a t) as [->|Hneq].
  - now rewrite Hduo.
  - rewrite Hbefore by lia. apply IH; [lia | assumption |].
    intros t' Ht'. apply Hbefore. lia.
Qed.

Lemma isFree_false_entriesFor statuses t s :
  isFree statuses t s = false <-> entriesFor statuses (mkSeat t s) <> [].
Proof.
  rewrite <- isFree_entriesFor. destruct (isFree statuses t s); split;
    congruence.
Qed.

(** ** The claims about assignSeats and bookSeats *)

(** C2, as the code has it: [assignSeats] books what it returns.  The store
    after the call is the store before it followed by one user entry per
    returned seat, in the order returned; the returned seats had no entry
    before, and the store is left as it was exactly when no seat is
    returned. *)
Theorem assignSeats_books_what_it_returns rnd count statuses :
  let chosen := fst (assignSeats rnd count statuses) in
  let after := snd (assignSeats rnd count statuses) in
  after = statuses ++ map (entryOf user) chosen
  /\ (forall seat, In seat chosen -> entriesFor statuses seat = [])
  /\ (after = statuses <-> chosen = []).
Proof.
  cbv zeta. split; [apply assignSeats_books|]. split.
  - intros seat. apply chooseSeats_free.
  - rewrite assignSeats_books. split.
    + intros Heq.
      assert (Hnil : map (entryOf user) (fst (assignSeats rnd count statuses))
                     = []).
      { apply (app_inv_head statuses). now rewrite app_nil_r. }
      now apply map_eq_nil in Hnil.
    + intros ->. apply app_nil_r.
Qed.

(** C2, refuted as stated: on an empty store [assignSeats(10)] leaves ten
    entries behind, so the store is not what it was before the call. *)
Lemma assignSeats_mutates_store :
  snd (assignSeats (fun _ => mkDraw 0 0) 10 []) <> [].
Proof. vm_compute. discriminate. Qed.

(** C4 — for [count = 10], [assignSeats] returns the ten seats, in seat
    order 1..10, of the first table (in ascending table id) none of whose
    seats has a status entry. *)
Theorem assignSeats_full_table rnd statuses t :
  isTable t ->
  (forall s, isSeat s -> entriesFor statuses (mkSeat t s) = []) ->
  (forall t', isTable t' -> t' < t ->
     exists s, isSeat s /\ entriesFor statuses (mkSeat t' s) <> []) ->
  fst (assignSeats rnd 10 statuses)
  = [mkSeat t 1; mkSeat t 2; mkSeat t 3; mkSeat t 4; mkSeat t 5;
     mkSeat t 6; mkSeat t 7; mkSeat t 8; mkSeat t 9; mkSeat t 10].
Proof.
  intros Ht Hfree Hbefore.
  assert (Hfind : find (tableAllFree statuses) tableIds = Some t).
  { apply find_first_seq.
    - unfold isTable in Ht. lia.
    - apply forallb_forall. intros s Hs. apply isFree_entriesFor.
      apply Hfree. now apply in_seatIds.
    - intros t' Ht'.
      destruct (Hbefore t') as (s & Hs & Hentry);
        [unfold isTable in *; lia | lia |].
      destruct (tableAllFree statuses t') eqn:Hall; [|reflexivity].
      unfold tableAllFree in Hall. rewrite forallb_forall in Hall.
      apply isFree_false_entriesFor in Hentry.
      rewrite Hall in Hentry; [discriminate | now apply in_seatIds]. }
  change (fst (assignSeats rnd 10 statuses)) with (chooseSeats rnd 10 statuses).
  unfold chooseSeats, pickFullTable. rewrite Hfind. reflexivity.
Qed.

(** C4, on the empty snapshot: [assignSeats(10)] returns the ten seats of
    table 1, seats 1 to 10 in order. *)
Lemma assignSeats_full_table_witness :
  fst (assignSeats (fun _ => mkDraw 0 0) 10 [])
  = [mkSeat 1 1; mkSeat 1 2; mkSeat 1 3; mkSeat 1 4; mkSeat 1 5;
     mkSeat 1 6; mkSeat 1 7; mkSeat 1 8; mkSeat 1 9; mkSeat 1 10].
Proof.
  apply (assignSeats_full_table (fun _ => mkDraw 0 0) [] (t := 1)).
  - unfold isTable. lia.
  - reflexivity.
  - intros t' Ht' Hlt. unfold isTable in Ht'. lia.
Defined.

(** Case analysis on a table or seat number known to lie in a small range. *)
Ltac enumerate n :=
  repeat match goal with
         | H : isTable n |- _ => unfold isTable in H
         | H : isSeat n |- _ => unfold isSeat in H
         end;
  let rec go k :=
    tryif (assert (n < k) by lia) then exfalso; lia
    else (destruct (Nat.eq_dec n k) as [->|?]; [|go (S k)]) in
  go 0.

(** C5 — for [count = 2], [assignSeats] returns [(seat, next)] for the first
    table (ascending) and, in it, the first free seat (ascending) whose
    circular successor is free too; seat 10 has successor 1. *)
Theorem assignSeats_duo rnd statuses t s :
  isTable t -> isSeat s ->
  entriesFor statuses (mkSeat t s) = [] ->
  entriesFor statuses (mkSeat t (nextSeat s)) = [] ->
  (forall t' s', isTable t' -> isSeat s' ->
     t' < t \/ (t' = t /\ s' < s) ->
     entriesFor statuses (mkSeat t' s') = [] ->
     entriesFor statuses (mkSeat t' (nextSeat s')) <> []) ->
  nextSeat 10 = 1
  /\ fst (assignSeats rnd 2 statuses) = [mkSeat t s; mkSeat t (nextSeat s)].
Proof.
  intros Ht Hs Hfree Hnext Hbefore. split; [reflexivity|].
  change (fst (assignSeats rnd 2 statuses)) with (chooseSeats rnd 2 statuses).
  assert (Hduo : pickDuo statuses tableIds
                 = [mkSeat t s; mkSeat t (nextSeat s)]).
  { apply (@pickDuo_first statuses t _ 25 1).
    - unfold isTable in Ht. lia.
    - apply duoInTable_first; try (now apply isFree_entriesFor); [assumption|].
      intros s' Hs' Hlt Hfree'. apply isFree_false_entriesFor.
      apply Hbefore; auto. now apply isFree_entriesFor.
    - intros t' Ht'. apply duoInTable_none.
      intros s' Hs' Hfree'. apply isFree_false_entriesFor.
      apply Hbefore; auto; [unfold isTable in *; lia | lia |].
      now apply isFree_entriesFor. }
  unfold chooseSeats. change (2 =? 10) with false. cbv beta iota zeta.
  change (length (@nil SeatRef) =? 0) with true.
  change ((2 =? 2) && true) with true. cbv beta iota.
  rewrite Hduo. reflexivity.
Qed.

(** C5, on two snapshots: with tables 1 and 2 full and only seats 9 and 10
    of table 3 free the answer is [(3,9),(3,10)]; with only seats 1 and 10
    of table 1 free the answer is [(1,10),(1,1)]. *)
Lemma assignSeats_duo_witness :
  fst (assignSeats noDraw 2 table3TwoLeft) = [mkSeat 3 9; mkSeat 3 10]
  /\ fst (assignSeats noDraw 2 table1Ends) = [mkSeat 1 10; mkSeat 1 1].
Proof.
  split.
  - apply (assignSeats_duo noDraw table3TwoLeft (t := 3) (s := 9)).
    + unfold isTable. lia.
    + unfold isSeat. lia.
    + reflexivity.
    + reflexivity.
    + intros t' s' Ht' Hs' Hlt Hfree.
      enumerate t'; enumerate s';
        solve [lia | vm_compute in Hfree; discriminate | vm_compute; discriminate].
  - apply (assignSeats_duo noDraw table1Ends (t := 1) (s := 10)).
    + unfold isTable. lia.
    + unfold isSeat. lia.
    + reflexivity.
    + reflexivity.
    + intros t' s' Ht' Hs' Hlt Hfree.
      enumerate t'; enumerate s';
        solve [lia | vm_compute in Hfree; discriminate | vm_compute; discriminate].
Defined.

(** C6 — [assignSeats] is a total function: it answers for every count and
    every snapshot.  When fewer than [count] seats of the plan are free it
    returns exactly the free seats, each once, hence fewer than [count]. *)
Theorem assignSeats_insufficient_inventory rnd count statuses :
  length (allFreeSeats statuses) < count ->
  let chosen := fst (assignSeats rnd count statuses) in
  Permutation chosen (allFreeSeats statuses)
  /\ NoDup chosen
  /\ (forall seat, In seat chosen
                   <-> isTable (tableId seat) /\ isSeat (seatId seat)
                       /\ entriesFor statuses seat = [])
  /\ length chosen < count.
Proof.
  intros Hfew. cbv zeta.
  change (fst (assignSeats rnd count statuses))
    with (chooseSeats rnd count statuses).
  assert (Hperm : Permutation (chooseSeats rnd count statuses)
                              (allFreeSeats statuses)).
  { destruct (chooseSeats_cases rnd count statuses) as [->|(Hlen & Hnd & Hincl)].
    - apply pickRandom_exhausts. lia.
    - apply (NoDup_incl_length Hnd) in Hincl. lia. }
  split; [assumption|]. split; [apply chooseSeats_fresh|]. split.
  - intros seat. split.
    + intros Hin. apply (Permutation_in _ Hperm) in Hin.
      apply in_allFreeSeats in Hin as (Ht & Hs & Hfree).
      apply isFree_entriesFor in Hfree. destruct seat. auto.
    + intros (Ht & Hs & Hfree).
      apply (Permutation_in _ (Permutation_sym Hperm)).
      apply in_allFreeSeats. split; [exact Ht|]. split; [exact Hs|].
      apply isFree_entriesFor. now destruct seat.
  - rewrite (Permutation_length Hperm). assumption.
Qed.

(** C6, with no free seat at all: [assignSeats(1)] returns the empty array. *)
Lemma assignSeats_insufficient_inventory_witness :
  fst (assignSeats noDraw 1 fullHouse) = [].
Proof.
  assert (Hfew : length (allFreeSeats fullHouse) < 1) by (vm_compute; lia).
  destruct (assignSeats_insufficient_inventory noDraw fullHouse Hfew)
    as (Hperm & _).
  apply Permutation_nil. symmetry.
  replace (allFreeSeats fullHouse) with (@nil SeatRef) in Hperm
    by (vm_compute; reflexivity).
  exact Hperm.
Defined.

(** C7 — [bookSeats] only appends: the entries of the store stay in place
    and unchanged, whatever their source; a seat of the argument with no
    entry gains exactly one entry, with the given source; a seat with an
    entry keeps exactly the entries it had; booking the same seats a second
    time changes nothing, so a seat booked twice holds one entry. *)
Theorem bookSeats_idempotent_never_overwrites seats src statuses :
  (exists added,
      bookSeats seats src statuses = statuses ++ added
      /\ Forall (pushedBy seats src statuses) added)
  /\ (forall seat, In seat seats -> entriesFor statuses seat = [] ->
         entriesFor (bookSeats seats src statuses) seat = [entryOf src seat])
  /\ (forall seat, entriesFor statuses seat <> [] ->
         entriesFor (bookSeats seats src statuses) seat
         = entriesFor statuses seat)
  /\ (forall src', bookSeats seats src' (bookSeats seats src statuses)
                   = bookSeats seats src statuses)
  /\ (forall seat, In seat seats -> entriesFor statuses seat = [] ->
         entriesFor (bookSeats seats src (bookSeats seats src statuses)) seat
         = [entryOf src seat]).
Proof.
  split; [apply bookSeats_extends|].
  split; [intros seat; apply entriesFor_bookSeats_absent|].
  split; [intros seat; apply entriesFor_bookSeats_present|].
  split; [intros src'; apply bookSeats_twice|].
  intros seat Hin Hnone. rewrite bookSeats_twice.
  now apply entriesFor_bookSeats_absent.
Qed.

(** C7, on a store where seat (1,1) is blocked by the administrator:
    booking (1,1), (1,2) and (1,2) again for a user twice over leaves the
    block as it was and one user entry for (1,2). *)
Lemma bookSeats_idempotent_never_overwrites_witness :
  let seats := [mkSeat 1 1; mkSeat 1 2; mkSeat 1 2] in
  let statuses := [mkStatus 1 1 admin] in
  entriesFor (bookSeats seats user (bookSeats seats user statuses)) (mkSeat 1 2)
  = [mkStatus 1 2 user]
  /\ entriesFor (bookSeats seats user statuses) (mkSeat 1 1)
     = [mkStatus 1 1 admin].
Proof.
  cbv zeta.
  destruct (bookSeats_idempotent_never_overwrites
              [mkSeat 1 1; mkSeat 1 2; mkSeat 1 2] user [mkStatus 1 1 admin])
    as (_ & _ & Hkept & _ & Htwice).
  split.
  - apply Htwice; [right; left; reflexivity | reflexivity].
  - apply Hkept. discriminate.
Defined.

(** ** The state machine of one seat *)

Lemma existsb_sameSeat_false statuses t s :
  existsb (sameSeat t s) statuses = false
  <-> ~ In (mkSeat t s) (map seatOf statuses).
Proof.
  induction statuses as [|e rest IH]; simpl; [tauto|].
  rewrite orb_false_iff, IH. split.
  - intros [He Hrest] [Heq|Hin]; [|tauto].
    apply sameSeat_true in Heq. congruence.
  - intros Hnot. split; [|tauto].
    destruct (sameSeat t s e) eqn:He; [|reflexivity].
    apply sameSeat_true in He. tauto.
Qed.

Lemma find_sameSeat_none statuses t s :
  find (sameSeat t s) statuses = None
  <-> ~ In (mkSeat t s) (map seatOf statuses).
Proof.
  rewrite <- existsb_sameSeat_false.
  induction statuses as [|e rest IH]; simpl; [tauto|].
  destruct (sameSeat t s e); simpl; [split; discriminate | exact IH].
Qed.

Lemma find_app_found {A : Type} (p : A -> bool) l l' x :
  find p l = Some x -> find p (l ++ l') = Some x.
Proof.
  induction l as [|y rest IH]; simpl; [discriminate|].
  destruct (p y); auto.
Qed.

Lemma find_app_missing {A : Type} (p : A -> bool) l l' :
  find p l = None -> find p (l ++ l') = find p l'.
Proof.
  induction l as [|y rest IH]; simpl; [reflexivity|].
  destruct (p y); [discriminate | auto].
Qed.

Lemma sameSeat_exclusive t s t' s' e :
  sameSeat t s e = true -> sameSeat t' s' e = true -> mkSeat t s = mkSeat t' s'.
Proof. rewrite !sameSeat_true. congruence. Qed.

(** An admin block is never touched by [bookSeats]. *)
Lemma seatState_bookSeats_blocked seats src statuses t s :
  seatState statuses t s = AdminBlocked ->
  seatState (bookSeats seats src statuses) t s = AdminBlocked.
Proof.
  unfold seatState. intros Hblocked.
  destruct (bookSeats_extends seats src statuses) as (added & -> & _).
  destruct (find (sameSeat t s) statuses) as [e|] eqn:Hfind; [|discriminate].
  now rewrite (find_app_found _ _ added Hfind).
Qed.

Lemma seatState_unbookOne statuses seat t s :
  seatState (unbookOne statuses seat) t s = Free
  \/ seatState (unbookOne statuses seat) t s = seatState statuses t s.
Proof.
  unfold seatState, unbookOne.
  induction statuses as [|e rest IH]; simpl; [now left|].
  destruct (sameSeat (tableId seat) (seatId seat) e) eqn:Hseat; simpl.
  - destruct (sameSeat t s e) eqn:He; [|exact IH].
    assert (Heq := sameSeat_exclusive _ _ _ _ _ He Hseat).
    inversion Heq; subst. left.
    replace (find _ _) with (@None SeatStatus); [reflexivity|].
    symmetry. apply find_all_false. intros x Hx.
    apply filter_In in Hx as [_ Hx]. now apply negb_true_iff in Hx.
  - destruct (sameSeat t s e); [now right | exact IH].
Qed.

Lemma seatState_unbookSeats seats : forall statuses t s,
  seatState statuses t s <> UserBooked ->
  seatState (unbookSeats seats statuses) t s <> UserBooked.
Proof.
  induction seats as [|x rest IH]; intros statuses t s Hnot; [assumption|].
  apply (IH (unbookOne statuses x)).
  destruct (seatState_unbookOne statuses x t s) as [->| ->];
    [discriminate | assumption].
Qed.

Lemma seatState_toggleSeat statuses t' s' t s :
  NoDup (map seatOf statuses) ->
  seatState (toggleSeat t' s' statuses) t s = Free
  \/ seatState (toggleSeat t' s' statuses) t s = seatState statuses t s
  \/ (seatState statuses t s = Free
      /\ seatState (toggleSeat t' s' statuses) t s = AdminBlocked).
Proof.
  intros Hnd. unfold toggleSeat.
  destruct (findIndex (sameSeat t' s') statuses) as [index|] eqn:Hfind.
  - apply findIndex_some in Hfind
      as (before & x & after & -> & _ & Hx & Hbefore & ->).
    rewrite map_app in Hnd. simpl in Hnd. apply NoDup_remove in Hnd as [_ Hnd].
    rewrite <- map_app in Hnd. apply sameSeat_true in Hx.
    unfold seatState.
    destruct (find (sameSeat t s) before) as [e|] eqn:Hb.
    + right; left. now rewrite !(find_app_found _ _ _ Hb).
    + rewrite !find_app_missing by assumption. simpl.
      destruct (sameSeat t s x) eqn:Hts; [|now right; left].
      left. apply sameSeat_true in Hts.
      replace (find (sameSeat t s) after) with (@None SeatStatus);
        [reflexivity|].
      symmetry. apply find_sameSeat_none. intros Hin. apply Hnd.
      rewrite map_app. apply in_or_app. right. congruence.
  - unfold seatState.
    destruct (find (sameSeat t s) statuses) as [e|] eqn:Hb.
    + right; left. now rewrite (find_app_found _ _ _ Hb).
    + rewrite find_app_missing by assumption. simpl.
      destruct (sameSeat t s _); [right; right | left]; auto.
Qed.

Lemma NoDup_seats_bookSeats seats src : forall statuses,
  NoDup (map seatOf statuses) ->
  NoDup (map seatOf (bookSeats seats src statuses)).
Proof.
  induction seats as [|x rest IH]; intros statuses Hnd; [assumption|].
  rewrite bookSeats_cons. apply IH. unfold bookOne.
  destruct (existsb _ statuses) eqn:Hx; [assumption|].
  apply existsb_sameSeat_false in Hx.
  rewrite map_app. simpl. apply NoDup_app; [assumption | |].
  - constructor; [intros [] | constructor].
  - intros y Hy [<-|[]]. apply Hx. unfold seatOf at 1 in Hy. simpl in Hy.
    exact Hy.
Qed.

Lemma NoDup_seats_filter (p : SeatStatus -> bool) : forall statuses,
  NoDup (map seatOf statuses) -> NoDup (map seatOf (filter p statuses)).
Proof.
  induction statuses as [|e rest IH]; intros Hnd; simpl; [constructor|].
  inversion Hnd as [|? ? Hnotin Hnd']; subst.
  destruct (p e); simpl; [|auto].
  constructor; [|auto]. intros Hin. apply Hnotin.
  apply in_map_iff in Hin as (e' & Heq & Hin).
  apply filter_In in Hin as [Hin _]. apply in_map_iff. eauto.
Qed.

Lemma NoDup_seats_unbookSeats seats : forall statuses,
  NoDup (map seatOf statuses) ->
  NoDup (map seatOf (unbookSeats seats statuses)).
Proof.
  induction seats as [|x rest IH]; intros statuses Hnd; [assumption|].
  apply (IH (unbookOne statuses x)). now apply NoDup_seats_filter.
Qed.

Lemma NoDup_seats_toggleSeat t s statuses :
  NoDup (map seatOf statuses) ->
  NoDup (map seatOf (toggleSeat t s statuses)).
Proof.
  intros Hnd. unfold toggleSeat.
  destruct (findIndex (sameSeat t s) statuses) as [index|] eqn:Hfind.
  - apply findIndex_some in Hfind as (before & x & after & -> & _ & _ & _ & ->).
    rewrite map_app in *. simpl in Hnd. now apply NoDup_remove_1 in Hnd.
  - rewrite map_app. simpl. apply NoDup_app; [assumption | |].
    + constructor; [intros [] | constructor].
    + intros y Hy [<-|[]]. revert Hy. apply existsb_sameSeat_false. simpl.
      destruct (existsb (sameSeat t s) statuses) eqn:Hex; [|reflexivity].
      apply existsb_exists in Hex as (e & Hin & He).
      rewrite (proj1 (findIndex_none _ _) Hfind e Hin) in He. discriminate.
Qed.

Lemma NoDup_seats_runOp op statuses :
  NoDup (map seatOf statuses) -> NoDup (map seatOf (runOp op statuses)).
Proof.
  destruct op; simpl.
  - apply NoDup_seats_bookSeats.
  - apply NoDup_seats_unbookSeats.
  - apply NoDup_seats_toggleSeat.
  - apply NoDup_seats_bookSeats.
Qed.

(** A reachable store holds at most one entry per seat. *)
Lemma reachable_one_entry_per_seat statuses :
  ReachableStatuses statuses -> NoDup (map seatOf statuses).
Proof.
  induction 1 as [|op statuses _ IH]; [constructor|].
  now apply NoDup_seats_runOp.
Qed.

Lemma seatState_runOp_blocked op statuses t s :
  NoDup (map seatOf statuses) ->
  seatState statuses t s = AdminBlocked ->
  seatState (runOp op statuses) t s <> UserBooked.
Proof.
  intros Hnd Hblocked. destruct op as [seats src|seats|t' s'|rnd count]; simpl.
  - rewrite seatState_bookSeats_blocked by assumption. discriminate.
  - apply seatState_unbookSeats. rewrite Hblocked. discriminate.
  - destruct (seatState_toggleSeat statuses t' s' t s Hnd)
      as [->|[->|[_ ->]]]; try discriminate.
    rewrite Hblocked. discriminate.
  - unfold assignSeats. simpl.
    rewrite seatState_bookSeats_blocked by assumption. discriminate.
Qed.

Lemma blocked_seat_passes_through_free t s : forall ops statuses,
  NoDup (map seatOf statuses) ->
  seatState statuses t s = AdminBlocked ->
  seatState (runOps ops statuses) t s = UserBooked ->
  exists k, k < length ops
            /\ seatState (runOps (firstn k ops) statuses) t s = Free.
Proof.
  induction ops as [|op rest IH]; intros statuses Hnd Hblocked Hend.
  - simpl in Hend. congruence.
  - assert (Hstep := @seatState_runOp_blocked op statuses t s Hnd Hblocked).
    destruct (seatState (runOp op statuses) t s) eqn:Hnext.
    + exists 1. split; [|exact Hnext].
      destruct rest; [simpl in Hend; congruence | simpl; lia].
    + contradiction.
    + destruct (IH (runOp op statuses)) as (k & Hk & Hfree);
        [now apply NoDup_seats_runOp | assumption | exact Hend |].
      exists (S k). split; [simpl; lia | exact Hfree].
Qed.

(** C9 — in a store the service can reach, no operation ([bookSeats],
    [unbookSeats], [toggleSeat], [assignSeats]) takes an admin-blocked seat
    to user-booked; over any sequence of operations the seat is free at
    some point before it is user-booked. *)
Theorem no_direct_block_to_booking statuses t s :
  ReachableStatuses statuses ->
  seatState statuses t s = AdminBlocked ->
  (forall op, seatState (runOp op statuses) t s <> UserBooked)
  /\ (forall ops,
        seatState (runOps ops statuses) t s = UserBooked ->
        exists k, k < length ops
                  /\ seatState (runOps (firstn k ops) statuses) t s = Free).
Proof.
  intros Hreach Hblocked.
  apply reachable_one_entry_per_seat in Hreach. split.
  - intros op. now apply seatState_runOp_blocked.
  - intros ops. now apply blocked_seat_passes_through_free.
Qed.

(** C9, on the store reached by blocking seat (1,1): booking it for a user
    leaves it blocked. *)
Lemma no_direct_block_to_booking_witness :
  seatState (runOp (OpBook [mkSeat 1 1] user) (runOp (OpToggle 1 1) [])) 1 1
  <> UserBooked.
Proof.
  apply (@no_direct_block_to_booking _ 1 1
           (reach_step (OpToggle 1 1) reach_empty) eq_refl).
Defined.

(** ** Reservation ids *)

Lemma last_map_id (rs : list ReservationEntry) r0 :
  id (last rs r0) = last (liveIds rs) (id r0).
Proof.
  induction rs as [|r rest IH]; [reflexivity|].
  destruct rest; [reflexivity | exact IH].
Qed.

Lemma last_default {A : Type} (l : list A) d d' :
  l <> [] -> last l d = last l d'.
Proof.
  induction l as [|x rest IH]; intros Hne; [congruence|].
  destruct rest; [reflexivity | apply IH; discriminate].
Qed.

Lemma newId_last reservations :
  newId reservations = S (last (liveIds reservations) 0).
Proof.
  destruct reservations as [|r0 rest]; [reflexivity|].
  unfold newId. rewrite last_map_id, Nat.add_1_r. f_equal.
  apply last_default. discriminate.
Qed.

Lemma increasing_last_is_max l :
  StronglySorted lt l -> last l 0 = list_max l.
Proof.
  induction 1 as [|a l Hsorted IH Hall]; [reflexivity|].
  destruct l as [|b rest]; [simpl; lia|].
  change (last (a :: b :: rest) 0) with (last (b :: rest) 0).
  rewrite IH. change (list_max (a :: b :: rest))
    with (Nat.max a (list_max (b :: rest))).
  assert (Hb : b <= list_max (b :: rest)) by (simpl; lia).
  inversion Hall; subst. lia.
Qed.

Lemma increasing_snoc l x :
  StronglySorted lt l -> Forall (fun y => y < x) l ->
  StronglySorted lt (l ++ [x]).
Proof.
  induction 1 as [|a l Hsorted IH Hall]; intros Hbelow; simpl.
  - constructor; constructor.
  - inversion Hbelow; subst. constructor; [auto|].
    apply Forall_app. split; [assumption | constructor; auto].
Qed.

Lemma increasing_remove (l1 l2 : list nat) x :
  StronglySorted lt (l1 ++ x :: l2) -> StronglySorted lt (l1 ++ l2).
Proof.
  induction l1 as [|a l1 IH]; simpl; intros Hsorted.
  - now inversion Hsorted.
  - inversion Hsorted as [|? ? Hrest Hall]; subst. constructor; [auto|].
    apply Forall_app in Hall as [H1 H2]. inversion H2; subst.
    apply Forall_app. auto.
Qed.

Lemma increasing_NoDup_ids l : StronglySorted lt l -> NoDup l.
Proof.
  induction 1 as [|a l Hsorted IH Hall]; constructor; auto.
  intros Hin. rewrite Forall_forall in Hall. apply Hall in Hin. lia.
Qed.

Lemma replaceAt_app {A : Type} (y : A) : forall before x after,
  replaceAt (length before) y (before ++ x :: after) = before ++ y :: after.
Proof.
  induction before as [|b before IH]; intros x after; simpl;
    [reflexivity | now rewrite IH].
Qed.

Lemma below_list_max l : Forall (fun y => y < S (list_max l)) l.
Proof.
  assert (H : Forall (fun k => k <= list_max l) l)
    by (apply list_max_le; lia).
  eapply Forall_impl; [|exact H]. simpl. intros. lia.
Qed.

Lemma liveIds_runListOp op reservations :
  StronglySorted lt (liveIds reservations) ->
  StronglySorted lt (liveIds (runListOp op reservations)).
Proof.
  intros Hsorted. destruct op as [entry|i|i entry]; simpl.
  - unfold addReservation, liveIds. rewrite map_app. simpl.
    apply increasing_snoc; [assumption|].
    fold (liveIds reservations).
    rewrite newId_last, increasing_last_is_max by assumption.
    apply below_list_max.
  - unfold deleteReservation.
    destruct (findIndex _ reservations) as [index|] eqn:Hfind; [|assumption].
    apply findIndex_some in Hfind as (before & x & after & -> & _ & _ & _ & ->).
    simpl. unfold liveIds in *. rewrite map_app in *. simpl in Hsorted.
    now apply increasing_remove in Hsorted.
  - unfold updateReservation.
    destruct (findIndex _ reservations) as [index|] eqn:Hfind; [|assumption].
    apply findIndex_some in Hfind as (before & x & after & -> & <- & Hx & _).
    simpl. rewrite replaceAt_app. apply Nat.eqb_eq in Hx.
    unfold liveIds in *. rewrite map_app in *. simpl in *. now rewrite <- Hx.
Qed.

(** The ids of a reachable reservation list increase along the list. *)
Lemma reachable_ids_increase reservations :
  ReachableReservations reservations ->
  StronglySorted lt (liveIds reservations).
Proof.
  induction 1 as [|op reservations _ IH]; [constructor|].
  now apply liveIds_runListOp.
Qed.

Lemma liveIds_runListOp_from op reservations x :
  In x (liveIds (runListOp op reservations)) ->
  In x (liveIds reservations) \/ x = newId reservations.
Proof.
  destruct op as [entry|i|i entry]; simpl.
  - unfold addReservation, liveIds. rewrite map_app, in_app_iff. simpl.
    intros [Hin|[Heq|[]]]; [now left | right; now symmetry].
  - unfold deleteReservation.
    destruct (findIndex _ reservations) as [index|] eqn:Hfind; [|now left].
    apply findIndex_some in Hfind as (before & r & after & -> & _ & _ & _ & ->).
    simpl. unfold liveIds. rewrite !map_app, !in_app_iff. simpl. tauto.
  - unfold updateReservation.
    destruct (findIndex _ reservations) as [index|] eqn:Hfind; [|now left].
    apply findIndex_some in Hfind as (before & r & after & -> & <- & Hr & _).
    simpl. rewrite replaceAt_app. apply Nat.eqb_eq in Hr.
    unfold liveIds. rewrite !map_app, !in_app_iff. simpl. rewrite Hr. tauto.
Qed.

(** The ids of a reachable reservation list are positive. *)
Lemma reachable_ids_positive reservations :
  ReachableReservations reservations ->
  forall x, In x (liveIds reservations) -> 1 <= x.
Proof.
  induction 1 as [|op reservations _ IH]; [intros x []|].
  intros x Hx. apply liveIds_runListOp_from in Hx as [Hx| ->]; [auto|].
  rewrite newId_last. lia.
Qed.

Lemma last_app_nonempty {A : Type} (l1 l2 : list A) d :
  l2 <> [] -> last (l1 ++ l2) d = last l2 d.
Proof.
  intros Hne. induction l1 as [|x rest IH]; [reflexivity|].
  simpl. destruct (rest ++ l2) eqn:Heq; [|exact IH].
  apply app_eq_nil in Heq as [_ Heq]. contradiction.
Qed.

(** What a deletion leaves: the ids other than the deleted one; and, when
    the deleted reservation was not the last of the list, the same last
    id. *)
Lemma liveIds_after_delete i reservations :
  StronglySorted lt (liveIds reservations) ->
  let after := snd (deleteReservation i reservations) in
  (forall x, In x (liveIds after) -> In x (liveIds reservations) /\ x <> i)
  /\ (i <> list_max (liveIds reservations) ->
      last (liveIds after) 0 = last (liveIds reservations) 0).
Proof.
  intros Hsorted. cbv zeta. unfold deleteReservation.
  destruct (findIndex _ reservations) as [index|] eqn:Hfind.
  - apply findIndex_some in Hfind as (before & r & after & -> & _ & Hr & _ & ->).
    apply Nat.eqb_eq in Hr. simpl snd.
    assert (Hnd := increasing_NoDup_ids Hsorted).
    assert (Hids : liveIds (before ++ r :: after)
                   = liveIds before ++ i :: liveIds after)
      by (unfold liveIds; rewrite map_app; simpl; now rewrite Hr).
    assert (Hrest : liveIds (before ++ after)
                    = liveIds before ++ liveIds after)
      by (unfold liveIds; now rewrite map_app).
    rewrite Hids in *. rewrite Hrest. split.
    + intros x Hx. split.
      * apply in_app_or in Hx. apply in_or_app. simpl. tauto.
      * intros ->. now apply NoDup_remove_2 in Hnd.
    + intros Hmax. destruct after as [|r' after].
      * destruct Hmax. rewrite <- (increasing_last_is_max Hsorted).
        simpl. now rewrite last_last.
      * rewrite (@last_app_nonempty _ (liveIds before) (liveIds (r' :: after)))
          by discriminate.
        rewrite (@last_app_nonempty _ (liveIds before)
                   (i :: liveIds (r' :: after))) by discriminate.
        reflexivity.
  - rewrite findIndex_none in Hfind. simpl. split; [|reflexivity].
    intros x Hx. split; [assumption|]. intros ->.
    apply in_map_iff in Hx as (r & Hid & Hr).
    specialize (Hfind r Hr). apply Nat.eqb_neq in Hfind. contradiction.
Qed.

(** C3, as the code has it: the new id is the id of the last stored
    reservation plus one, or 1 on an empty list.  On every list the service
    can reach (by add, update and delete from the empty list) that is
    max(existing ids, default 0) + 1, it differs from every live id, and the
    live ids stay pairwise distinct.  Deleted ids are not remembered: after
    a deletion the next id is again max(remaining ids, default 0) + 1;
    deleting a reservation other than the one with the highest id leaves
    the next id unchanged, and deleting the one with the highest id [i]
    makes the next id at most [i], and exactly [i] when the highest
    remaining id (0 when none remains) is [i - 1]. *)
Theorem newId_is_max_plus_one reservations :
  ReachableReservations reservations ->
  newId [] = 1
  /\ newId reservations = list_max (liveIds reservations) + 1
  /\ ~ In (newId reservations) (liveIds reservations)
  /\ (forall entry,
        liveIds (addReservation entry reservations)
        = liveIds reservations ++ [list_max (liveIds reservations) + 1])
  /\ NoDup (liveIds reservations)
  /\ (forall i,
        let after := snd (deleteReservation i reservations) in
        newId after = list_max (liveIds after) + 1
        /\ (i <> list_max (liveIds reservations) ->
            newId after = newId reservations)
        /\ (In i (liveIds reservations) ->
            i = list_max (liveIds reservations) ->
            newId after <= i
            /\ (newId after = i <-> list_max (liveIds after) + 1 = i))).
Proof.
  intros Hreach.
  assert (Hpositive := reachable_ids_positive Hreach).
  assert (Hafter : forall i,
            StronglySorted lt
              (liveIds (snd (deleteReservation i reservations)))).
  { intros i.
    apply (reachable_ids_increase (reachable_step (OpDelete i) Hreach)). }
  apply reachable_ids_increase in Hreach.
  assert (Hnew : newId reservations = list_max (liveIds reservations) + 1).
  { rewrite newId_last, increasing_last_is_max by assumption. lia. }
  split; [reflexivity|]. split; [assumption|].
  split; [|split; [|split]].
  - intros Hin. rewrite Hnew in Hin.
    assert (Hall := below_list_max (liveIds reservations)).
    rewrite Forall_forall in Hall. apply Hall in Hin. lia.
  - intros entry. unfold addReservation, liveIds at 1.
    rewrite map_app. simpl. now rewrite Hnew.
  - now apply increasing_NoDup_ids.
  - intros i. cbv zeta.
    destruct (@liveIds_after_delete i reservations Hreach) as [Hkept Hlast].
    assert (Hnext : newId (snd (deleteReservation i reservations))
                    = list_max (liveIds (snd (deleteReservation i reservations)))
                      + 1).
    { rewrite newId_last, increasing_last_is_max by apply Hafter. lia. }
    split; [exact Hnext|]. split.
    + intros Hmax. now rewrite !newId_last, Hlast.
    + intros Hin Hmax.
      assert (Hbelow : list_max (liveIds (snd (deleteReservation i reservations)))
                       <= i - 1).
      { apply list_max_le, Forall_forall. intros x Hx.
        destruct (Hkept x Hx) as [Hold Hneq].
        assert (Hle : Forall (fun k => k <= list_max (liveIds reservations))
                             (liveIds reservations))
          by (apply list_max_le; lia).
        rewrite Forall_forall in Hle. specialize (Hle x Hold). lia. }
      specialize (Hpositive i Hin). rewrite Hnext. split; lia.
Qed.

(** C3, on the list that holds ids 1 and 2 after two additions: the next id
    is 3; once reservation 2, the highest, is deleted the next id is 2
    again. *)
Lemma newId_is_max_plus_one_witness :
  let two := runListOp (OpAdd (draftOf "b"))
               (runListOp (OpAdd (draftOf "a")) []) in
  newId two = 3
  /\ newId (snd (deleteReservation 2 two)) <= 2.
Proof.
  cbv zeta.
  destruct (newId_is_max_plus_one
              (reachable_step (OpAdd (draftOf "b"))
                 (reachable_step (OpAdd (draftOf "a")) reachable_empty)))
    as (_ & Hnext & _ & _ & _ & Hdelete).
  split; [exact Hnext|].
  destruct (Hdelete 2) as (_ & _ & Hhighest).
  apply Hhighest; [right; left; reflexivity | reflexivity].
Defined.

(** C3, refuted as stated: reservations "a" and "b" receive ids 1 and 2;
    once "b" is deleted the next reservation, "c", receives id 2 again. *)
Lemma deleted_id_is_assigned_again :
  let two := addReservation (draftOf "b") (addReservation (draftOf "a") []) in
  let one := snd (deleteReservation 2 two) in
  let again := addReservation (draftOf "c") one in
  map (fun r => (id r, name r)) two = [(1, "a"%string); (2, "b"%string)]
  /\ map (fun r => (id r, name r)) one = [(1, "a"%string)]
  /\ map (fun r => (id r, name r)) again = [(1, "a"%string); (2, "c"%string)].
Proof. repeat split. Qed.

(** ** Reading the persisted records *)

(** [getSeatStatuses] also answers the empty array when the stored text
    parses to something that is not an array. *)
Lemma getSeatStatuses_not_an_array JSON_parse raw parsed :
  isBlank raw = false -> JSON_parse raw = Some parsed ->
  (forall items, parsed <> Persistence.JArray items) ->
  Persistence.getSeatStatuses JSON_parse (Some raw) = [].
Proof.
  intros Hraw Hparse Hshape. unfold Persistence.getSeatStatuses.
  simpl. rewrite Hraw, Hparse.
  destruct parsed; try reflexivity. now destruct (Hshape items).
Qed.

(** C8, as the code has it: when the stored text is missing or
    [JSON.parse] rejects it, both readers return the empty array instead of
    raising.  A text that parses is not checked by [getReservations], which
    returns the parsed value whatever its shape; [getSeatStatuses] returns
    the empty array when the parsed value is not an array and, for an
    array, one entry per element, an element that is [null], a boolean, a
    number or a string becoming the placeholder entry (0, 0, user). *)
Theorem persisted_reads_degrade JSON_parse item :
  (Persistence.missingOrUnparsable JSON_parse item ->
   Persistence.getReservations JSON_parse item = Persistence.JArray []
   /\ Persistence.getSeatStatuses JSON_parse item = [])
  /\ (forall raw parsed,
        item = Some raw -> isBlank raw = false ->
        JSON_parse raw = Some parsed ->
        Persistence.getReservations JSON_parse item = parsed
        /\ ((forall items, parsed <> Persistence.JArray items) ->
            Persistence.getSeatStatuses JSON_parse item = [])
        /\ (forall items, parsed = Persistence.JArray items ->
              Persistence.getSeatStatuses JSON_parse item
              = map Persistence.normalise items))
  /\ (forall x, Persistence.isPrimitive x = true ->
        Persistence.normalise x = Persistence.placeholder).
Proof.
  split; [|split].
  - unfold Persistence.missingOrUnparsable, Persistence.getReservations,
      Persistence.getSeatStatuses, Persistence.parseOrEmpty.
    destruct item as [raw|]; [|split; reflexivity].
    destruct (isBlank raw); [split; reflexivity|].
    intros [Hblank| ->]; [discriminate | split; reflexivity].
  - intros raw parsed -> Hraw Hparse. split; [|split].
    + unfold Persistence.getReservations, Persistence.parseOrEmpty.
      now rewrite Hraw, Hparse.
    + now apply (getSeatStatuses_not_an_array JSON_parse raw Hraw Hparse).
    + intros items ->.
      unfold Persistence.getSeatStatuses, Persistence.parseOrEmpty.
      now rewrite Hraw, Hparse.
  - intros x Hx. destruct x; try reflexivity; discriminate.
Qed.

(** C8, on a text the parser rejects, on a missing key and on the text
    [null], which parses but is not an array. *)
Lemma persisted_reads_degrade_witness :
  (Persistence.getReservations parseSample (Some "{oops"%string)
   = Persistence.JArray []
   /\ Persistence.getSeatStatuses parseSample (Some "{oops"%string) = [])
  /\ (Persistence.getReservations parseSample None = Persistence.JArray []
      /\ Persistence.getSeatStatuses parseSample None = [])
  /\ Persistence.getSeatStatuses parseSample (Some "null"%string) = [].
Proof.
  split; [|split].
  - apply (proj1 (persisted_reads_degrade parseSample (Some "{oops"%string))).
    right. reflexivity.
  - apply (proj1 (persisted_reads_degrade parseSample None)). exact I.
  - destruct (proj1 (proj2 (persisted_reads_degrade
                              parseSample (Some "null"%string)))
                    "null"%string Persistence.JNull eq_refl eq_refl eq_refl)
      as (_ & Hshape & _).
    apply Hshape. intros items. discriminate.
Defined.

(** C8, refuted as stated: stored text that is JSON of the wrong shape is
    not read as an empty collection.  With [null] stored, [getReservations]
    returns [null]; with [[7]] stored, [getSeatStatuses] returns one
    placeholder entry. *)
Lemma wrong_shape_is_not_read_as_empty :
  Persistence.getReservations parseSample (Some "null"%string)
  = Persistence.JNull
  /\ Persistence.getReservations parseSample (Some "null"%string)
     <> Persistence.JArray []
  /\ Persistence.getSeatStatuses parseSample (Some "[7]"%string)
     = [Persistence.placeholder]
  /\ Persistence.getSeatStatuses parseSample (Some "[7]"%string) <> [].
Proof. repeat split; discriminate. Qed.

(** ** The administrator's table pack *)

Lemma freeSeatsOfTable_unoccupied statuses table :
  AdminDashboardComponent.freeSeatsOfTable statuses table
  = unoccupiedSeats statuses table.
Proof.
  unfold AdminDashboardComponent.freeSeatsOfTable, unoccupiedSeats, tableSeats.
  rewrite filter_map_swap. f_equal. apply filter_ext. intros s.
  unfold entriesFor. simpl.
  induction statuses as [|e rest IH]; simpl; [reflexivity|].
  destruct (sameSeat table s e); [reflexivity | exact IH].
Qed.

Lemma filter_drops {A : Type} (p : A -> bool) x : forall l,
  In x l -> p x = false -> length (filter p l) < length l.
Proof.
  induction l as [|y rest IH]; intros Hin Hx; [contradiction|].
  simpl. destruct Hin as [->|Hin].
  - rewrite Hx. assert (H := filter_length_le p rest). lia.
  - specialize (IH Hin Hx). destruct (p y); simpl; lia.
Qed.

Lemma unoccupiedSeats_partial statuses table s :
  isSeat s -> entriesFor statuses (mkSeat table s) <> [] ->
  length (unoccupiedSeats statuses table) < 10.
Proof.
  intros Hs Hentry. unfold unoccupiedSeats.
  change 10 with (length (tableSeats table)).
  apply filter_drops with (x := mkSeat table s).
  - apply in_map_iff. exists s. split; [reflexivity | now apply in_seatIds].
  - destruct (entriesFor statuses (mkSeat table s)); congruence.
Qed.

Lemma includes_not_blank needle s :
  includes needle (toLowerCase s) = true -> needle <> EmptyString ->
  isBlank s = false.
Proof.
  destruct s; [|reflexivity]. simpl. destruct needle; [congruence|].
  discriminate.
Qed.

Lemma find_replaced {A : Type} (p : A -> bool) l index y :
  findIndex p l = Some index -> p y = true ->
  find p (replaceAt index y l) = Some y.
Proof.
  intros Hfind Hy.
  apply findIndex_some in Hfind as (before & x & after & -> & <- & _ & Hb & _).
  rewrite replaceAt_app, find_app_missing by now apply find_all_false.
  simpl. now rewrite Hy.
Qed.

Lemma find_findIndex {A : Type} (p : A -> bool) l x :
  find p l = Some x -> exists index, findIndex p l = Some index.
Proof.
  intros Hfind. destruct (findIndex p l) as [index|] eqn:Hidx; [eauto|].
  rewrite find_all_false in Hfind; [discriminate|].
  now apply findIndex_none.
Qed.

(** C10 — with a pack whose label contains 'table', the administrator's
    create and update give the reservation exactly the seats of the
    selected table that hold no status entry when the operation starts;
    occupied seats are left out, so on a partially occupied table the
    reservation has fewer than ten seats. *)
Theorem admin_table_pack_takes_unoccupied_seats rnd now c st table :
  isBlank (AdminDashboardComponent.newName c) = false ->
  isBlank (AdminDashboardComponent.newPhone c) = false ->
  includes "table" (toLowerCase (AdminDashboardComponent.selectedPackAdmin c))
  = true ->
  AdminDashboardComponent.selectedTableAdmin c = Some table ->
  let free := unoccupiedSeats (chaabiSeatStatuses st) table in
  ((exists s, isSeat s
              /\ entriesFor (chaabiSeatStatuses st) (mkSeat table s) <> []) ->
   length free < 10)
  /\ (exists r,
        chaabiReservations
          (snd (AdminDashboardComponent.addReservationAdmin rnd now c st))
        = chaabiReservations st ++ [r]
        /\ seats r = free)
  /\ (forall editing old,
        AdminDashboardComponent.editingId c = Some editing ->
        AdminDashboardComponent.reservations c = chaabiReservations st ->
        find (fun r => id r =? editing) (chaabiReservations st) = Some old ->
        exists r,
          find (fun r => id r =? editing)
               (chaabiReservations
                  (snd (AdminDashboardComponent.updateReservationAdmin
                          rnd now c st)))
          = Some r
          /\ id r = editing /\ seats r = free).
Proof.
  intros Hname Hphone Hpack Htable free.
  assert (Hblank : isBlank (AdminDashboardComponent.selectedPackAdmin c) = false)
    by (apply (@includes_not_blank "table" _ Hpack); discriminate).
  split; [|split].
  - intros (s & Hs & Hentry). now apply (unoccupiedSeats_partial _ _ Hs).
  - unfold AdminDashboardComponent.addReservationAdmin.
    rewrite Hname, Hphone, Hblank, Htable. simpl orb. cbv iota.
    unfold AdminDashboardComponent.buildSeats. rewrite Hpack.
    rewrite freeSeatsOfTable_unoccupied. fold free. cbv beta iota zeta.
    simpl snd. simpl chaabiReservations. unfold addReservation.
    eexists. split; reflexivity.
  - intros editing old Hediting Hcache Hfind.
    unfold AdminDashboardComponent.updateReservationAdmin.
    rewrite Hediting, Htable, Hname, Hphone, Hblank, Hcache, Hfind.
    simpl orb. cbv iota.
    unfold AdminDashboardComponent.buildSeats. rewrite Hpack.
    rewrite freeSeatsOfTable_unoccupied. fold free. cbv beta iota zeta.
    simpl snd at 1. simpl chaabiReservations.
    destruct (find_findIndex _ _ Hfind) as (index & Hindex).
    unfold updateReservation. rewrite Hindex. simpl snd.
    eexists. split; [|split].
    + apply (find_replaced _ _ _ Hindex). simpl. apply Nat.eqb_refl.
    + reflexivity.
    + reflexivity.
Qed.

(** C10, on a store where seat (2,3) is blocked: a table pack on table 2
    gets the nine other seats of the table, on create and on update. *)
Lemma admin_table_pack_takes_unoccupied_seats_witness :
  let c := tablePackForm (chaabiReservations table2Blocked) in
  let free := [mkSeat 2 1; mkSeat 2 2; mkSeat 2 4; mkSeat 2 5; mkSeat 2 6;
               mkSeat 2 7; mkSeat 2 8; mkSeat 2 9; mkSeat 2 10] in
  (exists r,
      chaabiReservations
        (snd (AdminDashboardComponent.addReservationAdmin
                noDraw 5 c table2Blocked))
      = chaabiReservations table2Blocked ++ [r]
      /\ seats r = free)
  /\ (exists r,
        find (fun r => id r =? 1)
             (chaabiReservations
                (snd (AdminDashboardComponent.updateReservationAdmin
                        noDraw 5 c table2Blocked)))
        = Some r
        /\ id r = 1 /\ seats r = free).
Proof.
  cbv zeta.
  destruct (@admin_table_pack_takes_unoccupied_seats
              noDraw 5 (tablePackForm (chaabiReservations table2Blocked))
              table2Blocked 2 eq_refl eq_refl eq_refl eq_refl)
    as (_ & Hadd & Hupdate).
  split; [exact Hadd|].
  exact (Hupdate 1 _ eq_refl eq_refl eq_refl).
Defined.

(** ** Consistency of reservations and seat statuses *)

Lemma in_userSeats statuses x :
  In x (userSeats statuses)
  <-> exists e, In e statuses /\ seatOf e = x /\ source e = user.
Proof.
  unfold userSeats. rewrite in_map_iff. split.
  - intros (e & Heq & Hin). apply filter_In in Hin as [Hin Huser].
    exists e. repeat split; auto.
    unfold isUser in Huser. destruct (source e); congruence.
  - intros (e & Hin & Heq & Huser). exists e. split; [assumption|].
    apply filter_In. split; [assumption|]. unfold isUser. now rewrite Huser.
Qed.

Lemma in_entriesFor statuses x e :
  In e (entriesFor statuses x) <-> In e statuses /\ seatOf e = x.
Proof.
  unfold entriesFor. rewrite filter_In, sameSeat_true. destruct x; simpl.
  tauto.
Qed.

Lemma entriesFor_nil statuses x :
  entriesFor statuses x = [] <-> forall e, In e statuses -> seatOf e <> x.
Proof.
  split.
  - intros Hnil e Hin Heq.
    assert (Hmem : In e (entriesFor statuses x)) by (apply in_entriesFor; auto).
    rewrite Hnil in Hmem. contradiction.
  - intros Hnone. destruct (entriesFor statuses x) as [|e l] eqn:He;
      [reflexivity|].
    assert (Hmem : In e (entriesFor statuses x)) by (rewrite He; now left).
    apply in_entriesFor in Hmem as [Hin Heq]. now apply Hnone in Hin.
Qed.

Lemma userSeats_have_entries statuses x :
  In x (userSeats statuses) -> entriesFor statuses x <> [].
Proof.
  intros Hin Hnil. apply in_userSeats in Hin as (e & Hin & Heq & _).
  rewrite entriesFor_nil in Hnil. now apply Hnil in Hin.
Qed.

Lemma sameSeat_false x e :
  sameSeat (tableId x) (seatId x) e = false <-> seatOf e <> x.
Proof.
  destruct (sameSeat (tableId x) (seatId x) e) eqn:He.
  - apply sameSeat_true in He. destruct x; simpl in He.
    split; [discriminate | congruence].
  - split; [|reflexivity]. intros _ Heq.
    assert (Htrue : sameSeat (tableId x) (seatId x) e = true)
      by (apply sameSeat_true; destruct x; exact Heq).
    congruence.
Qed.

Lemma in_unbookSeats seats : forall statuses e,
  In e (unbookSeats seats statuses)
  <-> In e statuses /\ ~ In (seatOf e) seats.
Proof.
  induction seats as [|x rest IH]; intros statuses e.
  - simpl. tauto.
  - change (unbookSeats (x :: rest) statuses)
      with (unbookSeats rest (unbookOne statuses x)).
    rewrite IH. unfold unbookOne.
    rewrite filter_In, negb_true_iff, sameSeat_false. simpl.
    split; [intros [[H1 H2] H3] | intros [H1 H2]]; repeat split; auto.
    intros [Heq|Hin]; [congruence | contradiction].
Qed.

Lemma in_userSeats_unbookSeats seats statuses x :
  In x (userSeats (unbookSeats seats statuses))
  <-> In x (userSeats statuses) /\ ~ In x seats.
Proof.
  rewrite !in_userSeats. split.
  - intros (e & Hin & Heq & Huser). apply in_unbookSeats in Hin as [Hin Hout].
    subst x. eauto.
  - intros [(e & Hin & Heq & Huser) Hout]. exists e. repeat split; auto.
    apply in_unbookSeats. subst x. auto.
Qed.

Lemma entriesFor_unbookSeats_nil seats statuses x :
  entriesFor (unbookSeats seats statuses) x = []
  <-> In x seats \/ entriesFor statuses x = [].
Proof.
  rewrite !entriesFor_nil. split.
  - intros Hnone. destruct (in_dec seat_eq_dec x seats) as [Hin|Hout];
      [now left | right].
    intros e He Heq. apply (Hnone e); [|assumption].
    apply in_unbookSeats. subst x. auto.
  - intros [Hin|Hnone] e He Heq; apply in_unbookSeats in He as [He Hout].
    + subst x. contradiction.
    + now apply (Hnone e).
Qed.

Lemma in_userSeats_bookSeats seats statuses x :
  In x (userSeats (bookSeats seats user statuses))
  <-> In x (userSeats statuses)
      \/ (In x seats /\ entriesFor statuses x = []).
Proof.
  split.
  - intros Hin. apply in_userSeats in Hin as (e & Hin & Heq & Huser).
    destruct (bookSeats_extends seats user statuses) as (added & Hadd & Hall).
    rewrite Hadd in Hin. apply in_app_or in Hin as [Hin|Hin].
    + left. apply in_userSeats. eauto.
    + right. rewrite Forall_forall in Hall.
      destruct (Hall e Hin) as (_ & Hseat & Hnil). subst x. auto.
  - intros [Hin|[Hin Hnil]].
    + apply in_userSeats in Hin as (e & Hin & Heq & Huser).
      apply in_userSeats. exists e. repeat split; auto.
      destruct (bookSeats_extends seats user statuses) as (added & -> & _).
      apply in_or_app. now left.
    + apply in_userSeats. exists (entryOf user x).
      assert (Hmem : In (entryOf user x)
                        (entriesFor (bookSeats seats user statuses) x)).
      { rewrite entriesFor_bookSeats_absent by assumption. now left. }
      apply in_entriesFor in Hmem as [Hmem Heq]. auto.
Qed.

Lemma pairwiseDisjoint_app rs1 rs2 :
  pairwiseDisjoint (rs1 ++ rs2)
  <-> pairwiseDisjoint rs1 /\ pairwiseDisjoint rs2
      /\ (forall r1 r2, In r1 rs1 -> In r2 rs2 ->
                        disjointSeats (seats r1) (seats r2)).
Proof.
  induction rs1 as [|r rest IH]; simpl.
  - split; [intros H; repeat split; auto; intros ? ? [] | tauto].
  - rewrite IH. split.
    + intros (Hr & Hrest & H2 & Hcross). repeat split; auto.
      * intros r' Hin. apply Hr. apply in_or_app. now left.
      * intros r1 r2 [<-|Hin1] Hin2; [|auto].
        apply Hr. apply in_or_app. now right.
    + intros ((Hr & Hrest) & H2 & Hcross). repeat split; auto.
      intros r' Hin. apply in_app_or in Hin as [Hin|Hin]; auto.
Qed.

Lemma in_reservedSeats reservations x :
  In x (reservedSeats reservations)
  <-> exists r, In r reservations /\ In x (seats r).
Proof. unfold reservedSeats. apply in_flat_map. Qed.

(** Appending a reservation on seats that hold no entry, and booking them
    for a user, keeps the store consistent. *)
Lemma consistent_add reservations statuses entry :
  Consistent (mkStorage reservations statuses) ->
  (forall x, In x (d_seats entry) -> entriesFor statuses x = []) ->
  Consistent (mkStorage (addReservation entry reservations)
                        (bookSeats (d_seats entry) user statuses)).
Proof.
  intros [Hdisjoint Hsame] Hfree. simpl in *. unfold addReservation. split.
  - simpl. apply pairwiseDisjoint_app. repeat split; simpl; auto.
    + intros r' [].
    + intros r1 r2 Hin1 [<-|[]] x Hx Hnew. simpl in Hnew.
      apply Hfree in Hnew. revert Hnew. apply userSeats_have_entries.
      apply Hsame. apply in_reservedSeats. eauto.
  - intros x. simpl. rewrite in_userSeats_bookSeats.
    unfold reservedSeats. rewrite flat_map_app. simpl.
    rewrite app_nil_r, in_app_iff. fold (reservedSeats reservations).
    rewrite <- Hsame. split; [tauto|]. intros [Hin|Hin]; auto.
Qed.

(** C1 holds for a reservation created with automatic assignment. *)
Lemma consistent_finalizePackReservation rnd now formName formPhone pack st :
  Consistent st ->
  Consistent (ReservationComponent.finalizePackReservation
                rnd now formName formPhone pack st).
Proof.
  intros Hst. destruct st as [reservations statuses].
  unfold ReservationComponent.finalizePackReservation.
  destruct pack as [selected|]; [|assumption].
  unfold assignSeats. simpl.
  set (chosen := chooseSeats rnd _ statuses).
  apply (consistent_add
           (mkDraft formName formPhone
                    (ReservationComponent.pkg_name selected) chosen now) Hst).
  simpl. intros x. apply chooseSeats_free.
Qed.

(** C1 holds for a reservation created from an explicit selection of seats
    that the plan shows as free. *)
Lemma consistent_finalizeSeatReservation now formName formPhone selected st :
  Consistent st ->
  (forall seat, In seat selected ->
     entriesFor (chaabiSeatStatuses st)
                (ReservationComponent.seatRefOf seat) = []) ->
  Consistent (ReservationComponent.finalizeSeatReservation
                now formName formPhone selected st).
Proof.
  intros Hst Hfree. destruct st as [reservations statuses].
  unfold ReservationComponent.finalizeSeatReservation.
  destruct (length selected =? 0); [assumption|]. simpl.
  apply (consistent_add
           (mkDraft formName formPhone
                    (ReservationComponent.packNameOf (length selected))
                    (map ReservationComponent.seatRefOf selected) now) Hst).
  simpl. intros x Hx. apply in_map_iff in Hx as (seat & <- & Hin).
  now apply Hfree.
Qed.

(** The public form only lets a seat into the selection when the plan
    shows no entry for it. *)
Lemma toggleSeat_selects_free shown seat selected x :
  In x (ReservationComponent.toggleSeat shown seat selected) ->
  In x selected
  \/ entriesFor shown (ReservationComponent.seatRefOf x) = [].
Proof.
  unfold ReservationComponent.toggleSeat, ReservationComponent.booked,
    ReservationComponent.adminBlocked, ReservationComponent.statusOf.
  destruct (find _ shown) as [e|] eqn:Hfind.
  - destruct (source e); simpl; auto.
  - simpl. destruct (findIndex (Nat.eqb seat) selected) as [index|].
    + intros Hin. left. now apply removeAt_incl in Hin.
    + intros Hin. apply in_app_or in Hin as [Hin|[<-|[]]]; [now left|].
      right. apply existsb_entriesFor. simpl.
      destruct (existsb _ shown) eqn:Hex; [|reflexivity].
      apply existsb_exists in Hex as (e & Hin & He).
      now rewrite (find_none _ _ Hfind e Hin) in He.
Qed.

Lemma find_split {A : Type} (p : A -> bool) : forall l x,
  find p l = Some x ->
  exists before after,
    l = before ++ x :: after
    /\ findIndex p l = Some (length before)
    /\ removeAt (length before) l = before ++ after.
Proof.
  induction l as [|y rest IH]; intros x Hfind; simpl in *; [discriminate|].
  destruct (p y) eqn:Hy.
  - inversion Hfind; subst. exists [], rest. auto.
  - destruct (IH x Hfind) as (before & after & -> & Hidx & Hrem).
    exists (y :: before), after. simpl. rewrite Hidx, Hrem. auto.
Qed.

Lemma pairwiseDisjoint_around before x after :
  pairwiseDisjoint (before ++ x :: after) ->
  pairwiseDisjoint (before ++ after)
  /\ (forall r, In r (before ++ after) ->
        forall y, In y (seats r) -> ~ In y (seats x)).
Proof.
  intros Hall.
  apply pairwiseDisjoint_app in Hall as (Hb & [Hx Ha] & Hcross). split.
  - apply pairwiseDisjoint_app. repeat split; auto.
    intros r1 r2 H1 H2. apply Hcross; [assumption | now right].
  - intros r Hin y Hy Hyx. apply in_app_or in Hin as [Hin|Hin].
    + apply (Hcross r x Hin (or_introl eq_refl) y Hy Hyx).
    + apply (Hx r Hin y Hyx Hy).
Qed.

Lemma pairwiseDisjoint_replace before x after y :
  pairwiseDisjoint (before ++ x :: after) ->
  (forall r, In r (before ++ after) ->
     forall z, In z (seats r) -> ~ In z (seats y)) ->
  pairwiseDisjoint (before ++ y :: after).
Proof.
  intros Hall Hnew.
  apply pairwiseDisjoint_app in Hall as (Hb & [Hx Ha] & Hcross).
  apply pairwiseDisjoint_app. repeat split; auto.
  - intros r' Hin z Hz Hz'.
    apply (Hnew r' (in_or_app _ _ _ (or_intror Hin)) z Hz' Hz).
  - intros r1 r2 H1 [<-|H2].
    + intros z Hz. apply (Hnew r1 (in_or_app _ _ _ (or_introl H1)) z Hz).
    + apply Hcross; [assumption | now right].
Qed.

Lemma reservedSeats_around before x after seat :
  In seat (reservedSeats (before ++ x :: after))
  <-> In seat (seats x) \/ In seat (reservedSeats (before ++ after)).
Proof.
  unfold reservedSeats. rewrite !flat_map_app. simpl.
  rewrite !in_app_iff. tauto.
Qed.

(** Unbooking the seats of a reservation and removing it keeps the store
    consistent. *)
Lemma consistent_delete reservations statuses i r :
  Consistent (mkStorage reservations statuses) ->
  find (fun r => id r =? i) reservations = Some r ->
  Consistent (mkStorage (snd (deleteReservation i reservations))
                        (unbookSeats (seats r) statuses)).
Proof.
  intros [Hdisjoint Hsame] Hfind. simpl in *.
  apply find_split in Hfind as (before & after & -> & Hidx & Hrem).
  unfold deleteReservation. rewrite Hidx, Hrem. simpl.
  apply pairwiseDisjoint_around in Hdisjoint as [Hrest Hcross].
  split; [assumption|]. simpl. intros seat.
  rewrite in_userSeats_unbookSeats, Hsame, reservedSeats_around.
  split; [tauto|]. intros Hin. split; [now right|].
  apply in_reservedSeats in Hin as (r' & Hr' & Hseat). eauto.
Qed.

(** Replacing a reservation, unbooking its old seats and booking the new
    ones keeps the store consistent when every new seat either holds no
    entry or was a seat of the reservation; [booked] is the statuses once
    the new seats have been computed ([assignSeats] may have booked them
    already). *)
Lemma consistent_update reservations statuses booked i entry old :
  Consistent (mkStorage reservations statuses) ->
  find (fun r => id r =? i) reservations = Some old ->
  booked = statuses \/ booked = bookSeats (d_seats entry) user statuses ->
  (forall x, In x (d_seats entry) ->
     entriesFor statuses x = [] \/ In x (seats old)) ->
  Consistent
    (mkStorage (snd (updateReservation i entry reservations))
               (bookSeats (d_seats entry) user
                          (unbookSeats (seats old) booked))).
Proof.
  intros [Hdisjoint Hsame] Hfind Hbooked Hvalid. simpl in *.
  apply find_split in Hfind as (before & after & -> & Hidx & _).
  unfold updateReservation. rewrite Hidx, replaceAt_app. simpl.
  destruct (pairwiseDisjoint_around _ _ _ Hdisjoint) as [Hrest Hcross].
  assert (Hothers : forall r, In r (before ++ after) ->
            forall z, In z (seats r) -> ~ In z (d_seats entry)).
  { intros r Hr z Hz Hnew. destruct (Hvalid z Hnew) as [Hfree|Hold].
    - revert Hfree. apply userSeats_have_entries, Hsame.
      apply reservedSeats_around. right. apply in_reservedSeats. eauto.
    - apply (Hcross r Hr z Hz Hold). }
  split.
  - simpl. apply (@pairwiseDisjoint_replace before old after); assumption.
  - simpl. intros seat.
    rewrite in_userSeats_bookSeats, in_userSeats_unbookSeats,
      entriesFor_unbookSeats_nil, reservedSeats_around.
    simpl seats.
    assert (Hkept : In seat (userSeats statuses) /\ ~ In seat (seats old)
                    <-> In seat (reservedSeats (before ++ after))).
    { rewrite Hsame, reservedSeats_around. split; [tauto|].
      intros Hin. split; [now right|].
      apply in_reservedSeats in Hin as (r & Hr & Hseat). eauto. }
    assert (Hdec : In seat (seats old) \/ ~ In seat (seats old))
      by (destruct (in_dec seat_eq_dec seat (seats old)); auto).
    specialize (Hvalid seat).
    destruct Hbooked as [->| ->]; [|rewrite in_userSeats_bookSeats]; tauto.
Qed.

Lemma unoccupiedSeats_free statuses table x :
  In x (unoccupiedSeats statuses table) -> entriesFor statuses x = [].
Proof.
  unfold unoccupiedSeats. intros Hin. apply filter_In in Hin as [_ Hfree].
  destruct (entriesFor statuses x); [reflexivity | discriminate].
Qed.

(** The seat list of the administrator's form: its seats hold no entry or
    are the explicit selection, and the statuses are untouched or have the
    seats booked already. *)
Lemma buildSeats_cases rnd selectedPack table selectedSeat statuses :
  let built :=
    AdminDashboardComponent.buildSeats rnd selectedPack table selectedSeat
                                       statuses in
  (snd built = statuses \/ snd built = bookSeats (fst built) user statuses)
  /\ (forall x, In x (fst built) ->
        entriesFor statuses x = []
        \/ In x (explicitSeats selectedPack table selectedSeat)).
Proof.
  unfold AdminDashboardComponent.buildSeats, explicitSeats.
  destruct (includes "table" (toLowerCase selectedPack)).
  - simpl. split; [now left|]. intros x Hx. left.
    rewrite freeSeatsOfTable_unoccupied in Hx.
    now apply unoccupiedSeats_free in Hx.
  - destruct (includes "duo" (toLowerCase selectedPack));
      destruct selectedSeat as [seat|]; simpl; split; auto;
      intros x Hx; left; now apply chooseSeats_free in Hx.
Qed.

Lemma book_if_any seats statuses :
  (if 0 <? length seats then bookSeats seats user statuses else statuses)
  = bookSeats seats user statuses.
Proof. destruct seats; reflexivity. Qed.

Lemma unbook_if_any seats statuses :
  (if 0 <? length seats then unbookSeats seats statuses else statuses)
  = unbookSeats seats statuses.
Proof. destruct seats; reflexivity. Qed.

(** C1 holds for the administrator's create when the seats the form names
    itself hold no entry. *)
Lemma consistent_addReservationAdmin rnd now c st :
  Consistent st ->
  (forall table x,
     AdminDashboardComponent.selectedTableAdmin c = Some table ->
     In x (explicitSeats (AdminDashboardComponent.selectedPackAdmin c) table
                         (AdminDashboardComponent.selectedSeatAdmin c)) ->
     entriesFor (chaabiSeatStatuses st) x = []) ->
  Consistent (snd (AdminDashboardComponent.addReservationAdmin rnd now c st)).
Proof.
  intros Hst Hvalid. destruct st as [reservations statuses].
  unfold AdminDashboardComponent.addReservationAdmin.
  destruct (_ || _); [assumption|].
  destruct (AdminDashboardComponent.selectedTableAdmin c) as [table|];
    [|assumption].
  destruct (buildSeats_cases rnd (AdminDashboardComponent.selectedPackAdmin c)
              table (AdminDashboardComponent.selectedSeatAdmin c) statuses)
    as [Hbooked Hfree].
  simpl chaabiSeatStatuses in *. simpl chaabiReservations.
  destruct (AdminDashboardComponent.buildSeats _ _ _ _ _) as [seats booked].
  simpl in Hbooked, Hfree. rewrite book_if_any. simpl snd.
  replace (bookSeats seats user booked) with (bookSeats seats user statuses)
    by (destruct Hbooked as [->| ->]; [reflexivity | now rewrite bookSeats_twice]).
  apply (consistent_add
           (mkDraft (AdminDashboardComponent.newName c)
                    (AdminDashboardComponent.newPhone c)
                    (AdminDashboardComponent.selectedPackAdmin c) seats now) Hst).
  simpl. intros x Hx. destruct (Hfree x Hx) as [Hnone|Hexplicit]; [assumption|].
  now apply (Hvalid table).
Qed.

(** C1 holds for the administrator's update when the seats the form names
    itself hold no entry or belong to the reservation being edited. *)
Lemma consistent_updateReservationAdmin rnd now c st :
  Consistent st ->
  AdminDashboardComponent.reservations c = chaabiReservations st ->
  (forall editing table old x,
     AdminDashboardComponent.editingId c = Some editing ->
     AdminDashboardComponent.selectedTableAdmin c = Some table ->
     find (fun r => id r =? editing) (chaabiReservations st) = Some old ->
     In x (explicitSeats (AdminDashboardComponent.selectedPackAdmin c) table
                         (AdminDashboardComponent.selectedSeatAdmin c)) ->
     entriesFor (chaabiSeatStatuses st) x = [] \/ In x (seats old)) ->
  Consistent
    (snd (AdminDashboardComponent.updateReservationAdmin rnd now c st)).
Proof.
  intros Hst Hcache Hvalid. destruct st as [reservations statuses].
  unfold AdminDashboardComponent.updateReservationAdmin.
  destruct (AdminDashboardComponent.editingId c) as [editing|]; [|assumption].
  destruct (AdminDashboardComponent.selectedTableAdmin c) as [table|];
    [|assumption].
  destruct (_ || _); [assumption|].
  rewrite Hcache. simpl chaabiReservations in *. simpl chaabiSeatStatuses in *.
  destruct (find _ reservations) as [old|] eqn:Hfind; [|assumption].
  destruct (buildSeats_cases rnd (AdminDashboardComponent.selectedPackAdmin c)
              table (AdminDashboardComponent.selectedSeatAdmin c) statuses)
    as [Hbooked Hfree].
  destruct (AdminDashboardComponent.buildSeats _ _ _ _ _) as [newSeats booked].
  simpl in Hbooked, Hfree. rewrite book_if_any, unbook_if_any. simpl snd at 1.
  apply (@consistent_update reservations statuses booked editing
           (mkDraft (AdminDashboardComponent.newName c)
                    (AdminDashboardComponent.newPhone c)
                    (AdminDashboardComponent.selectedPackAdmin c) newSeats now)
           old Hst Hfind Hbooked).
  simpl. intros x Hx. destruct (Hfree x Hx) as [Hnone|Hexplicit]; [now left|].
  now apply (Hvalid editing table old x).
Qed.

(** C1 holds for the administrator's delete. *)
Lemma consistent_deleteReservationAdmin i c st :
  Consistent st ->
  AdminDashboardComponent.reservations c = chaabiReservations st ->
  Consistent (snd (AdminDashboardComponent.deleteReservation i c st)).
Proof.
  intros Hst Hcache. destruct st as [reservations statuses].
  unfold AdminDashboardComponent.deleteReservation.
  rewrite Hcache. simpl chaabiReservations. simpl chaabiSeatStatuses.
  destruct (find _ reservations) as [r|] eqn:Hfind; [|assumption].
  simpl snd at 1. now apply consistent_delete.
Qed.

(** The operations of the dashboard leave its copy of the reservations
    equal to the stored list. *)
Lemma dashboard_copy_in_step rnd now i c st :
  AdminDashboardComponent.reservations c = chaabiReservations st ->
  let sync (result : AdminDashboardComponent.Component * Storage) :=
    AdminDashboardComponent.reservations (fst result)
    = chaabiReservations (snd result) in
  sync (AdminDashboardComponent.addReservationAdmin rnd now c st)
  /\ sync (AdminDashboardComponent.updateReservationAdmin rnd now c st)
  /\ sync (AdminDashboardComponent.deleteReservation i c st).
Proof.
  intros Hcache. cbv zeta. split; [|split].
  - unfold AdminDashboardComponent.addReservationAdmin.
    destruct (_ || _); [assumption|].
    destruct (AdminDashboardComponent.selectedTableAdmin c); [|assumption].
    destruct (AdminDashboardComponent.buildSeats _ _ _ _ _). reflexivity.
  - unfold AdminDashboardComponent.updateReservationAdmin.
    destruct (AdminDashboardComponent.editingId c); [|assumption].
    destruct (AdminDashboardComponent.selectedTableAdmin c); [|assumption].
    destruct (_ || _); [assumption|].
    destruct (find _ _); [|assumption].
    destruct (AdminDashboardComponent.buildSeats _ _ _ _ _). reflexivity.
  - unfold AdminDashboardComponent.deleteReservation.
    destruct (find _ _); [reflexivity | assumption].
Qed.

(** C1, at the input where the code departs from it: seat (1,2) is blocked
    by the administrator, who then creates a duo reservation on table 1
    starting at seat 1.  [addReservationAdmin] takes seat 1 and its
    successor without looking at the successor: the reservation holds
    (1,1) and (1,2), [bookSeats] leaves the block on (1,2) in place, and the
    store is no longer consistent. *)
Theorem addReservationAdmin_reserves_blocked_seat :
  let after :=
    snd (AdminDashboardComponent.addReservationAdmin
           noDraw 5 duoForm neighbourBlocked) in
  Consistent neighbourBlocked
  /\ map seats (chaabiReservations after) = [[mkSeat 1 1; mkSeat 1 2]]
  /\ chaabiSeatStatuses after = [mkStatus 1 2 admin; mkStatus 1 1 user]
  /\ seatState (chaabiSeatStatuses after) 1 2 = AdminBlocked
  /\ ~ Consistent after.
Proof.
  cbv zeta. split; [|split; [|split; [|split]]]; try reflexivity.
  - split; [exact I|]. intros seat. simpl. tauto.
  - intros [_ Hsame]. destruct (Hsame (mkSeat 1 2)) as [_ Hback].
    assert (Hin : In (mkSeat 1 2) [mkSeat 1 1]).
    { apply Hback. simpl. auto. }
    destruct Hin as [Heq|[]]. discriminate.
Qed.

(** The same defect with a user booking in the way: a customer holds seat
    (1,1); the administrator's form still names that seat for a new ticket.
    Both reservations end up holding (1,1). *)
Lemma addReservationAdmin_reserves_booked_seat :
  let after :=
    snd (AdminDashboardComponent.addReservationAdmin
           noDraw 5 (ticketForm (chaabiReservations oneTicketSold))
           oneTicketSold) in
  Consistent oneTicketSold
  /\ map (fun r => (id r, seats r)) (chaabiReservations after)
     = [(1, [mkSeat 1 1]); (2, [mkSeat 1 1])]
  /\ chaabiSeatStatuses after = [mkStatus 1 1 user]
  /\ ~ Consistent after.
Proof.
  cbv zeta. split; [|split; [|split]]; try reflexivity.
  - apply consistent_finalizePackReservation.
    split; [exact I|]. intros seat. simpl. tauto.
  - intros [[Hfirst _] _].
    apply (Hfirst (mkReservation 2 "Badr" "0611111111" "Ticket seul"
                                 [mkSeat 1 1] 5) (or_introl eq_refl)
                  (mkSeat 1 1)); now left.
Qed.

(** * Further properties of the code *)

(** ** ReservationService: the reservation list *)

Lemma increasing_NoDup l : StronglySorted lt l -> NoDup l.
Proof.
  induction 1 as [|a l Hsorted IH Hall]; constructor; auto.
  intros Hin. rewrite Forall_forall in Hall. apply Hall in Hin. lia.
Qed.

Lemma findIndex_absent i reservations :
  ~ In i (liveIds reservations) ->
  findIndex (fun r => id r =? i) reservations = None.
Proof.
  intros Hout. apply findIndex_none. intros r Hr.
  apply Nat.eqb_neq. intros Heq. apply Hout.
  unfold liveIds. apply in_map_iff. eauto.
Qed.

Lemma findIndex_present i reservations :
  In i (liveIds reservations) ->
  exists before r after,
    reservations = before ++ r :: after /\ id r = i
    /\ (forall x, In x before -> id x <> i)
    /\ findIndex (fun r => id r =? i) reservations = Some (length before)
    /\ removeAt (length before) reservations = before ++ after.
Proof.
  intros Hin. apply in_map_iff in Hin as (r0 & Hid & Hr0).
  destruct (findIndex (fun r => id r =? i) reservations) as [index|] eqn:Hfind.
  - destruct (findIndex_some _ _ Hfind)
      as (before & r & after & Heq & Hlen & Hr & Hbefore & Hrem).
    exists before, r, after. subst index.
    split; [assumption|]. split; [now apply Nat.eqb_eq|].
    split; [intros x Hx; apply Nat.eqb_neq; now apply Hbefore|].
    split; [reflexivity | assumption].
  - rewrite findIndex_none in Hfind. specialize (Hfind r0 Hr0).
    apply Nat.eqb_neq in Hfind. contradiction.
Qed.

Lemma findIndex_snoc {A : Type} (p : A -> bool) l x :
  (forall y, In y l -> p y = false) -> p x = true ->
  findIndex p (l ++ [x]) = Some (length l).
Proof.
  intros Hall Hx. induction l as [|y rest IH]; simpl.
  - now rewrite Hx.
  - rewrite (Hall y) by now left.
    rewrite IH; [reflexivity|]. intros z Hz. apply Hall. now right.
Qed.

Lemma removeAt_snoc {A : Type} (l : list A) x :
  removeAt (length l) (l ++ [x]) = l.
Proof. induction l as [|y rest IH]; simpl; [reflexivity | now rewrite IH]. Qed.

(** X1 — [deleteReservation] answers false and changes nothing when no
    stored reservation has the id; otherwise it answers true and removes
    that reservation alone, the others keeping their order.  On a list the
    service can reach the id is no longer live afterwards. *)
Theorem deleteReservation_removes_one i reservations :
  ReachableReservations reservations ->
  (~ In i (liveIds reservations) ->
   deleteReservation i reservations = (false, reservations))
  /\ (In i (liveIds reservations) ->
      exists before r after,
        reservations = before ++ r :: after /\ id r = i
        /\ deleteReservation i reservations = (true, before ++ after))
  /\ ~ In i (liveIds (snd (deleteReservation i reservations))).
Proof.
  intros Hreach. apply reachable_ids_increase, increasing_NoDup in Hreach.
  unfold deleteReservation. split; [|split].
  - intros Hout. now rewrite findIndex_absent.
  - intros Hin.
    destruct (findIndex_present _ _ Hin)
      as (before & r & after & Heq & Hid & _ & Hfind & Hrem).
    exists before, r, after. rewrite Hfind, Hrem. auto.
  - destruct (in_dec Nat.eq_dec i (liveIds reservations)) as [Hin|Hout].
    + destruct (findIndex_present _ _ Hin)
        as (before & r & after & Heq & Hid & _ & Hfind & Hrem).
      rewrite Hfind, Hrem. simpl. subst reservations i.
      unfold liveIds in *. rewrite map_app in *. simpl in Hreach.
      now apply NoDup_remove_2 in Hreach.
    + now rewrite findIndex_absent.
Qed.

(** X1, after three additions: deleting id 2 leaves ids 1 and 3. *)
Lemma deleteReservation_removes_one_witness :
  ~ In 2 (liveIds
            (snd (deleteReservation 2
                    (runListOp (OpAdd (draftOf "c"))
                       (runListOp (OpAdd (draftOf "b"))
                          (runListOp (OpAdd (draftOf "a")) [])))))).
Proof.
  apply (@deleteReservation_removes_one 2 _
           (reachable_step (OpAdd (draftOf "c"))
              (reachable_step (OpAdd (draftOf "b"))
                 (reachable_step (OpAdd (draftOf "a")) reachable_empty)))).
Defined.

(** X2 — [updateReservation] answers false and changes nothing when no
    stored reservation has the id; otherwise it answers true and puts the
    new data, under the same id, at the position of the first reservation
    with that id, which is then the one a lookup by id finds.  The ids of
    the list, and so its length and order, never change. *)
Theorem updateReservation_in_place i entry reservations :
  (~ In i (liveIds reservations) ->
   updateReservation i entry reservations = (false, reservations))
  /\ (In i (liveIds reservations) ->
      (exists before r after,
         reservations = before ++ r :: after /\ id r = i
         /\ updateReservation i entry reservations
            = (true, before ++ withId i entry :: after))
      /\ find (fun r => id r =? i)
              (snd (updateReservation i entry reservations))
         = Some (withId i entry))
  /\ liveIds (snd (updateReservation i entry reservations))
     = liveIds reservations.
Proof.
  unfold updateReservation. split; [|split].
  - intros Hout. now rewrite findIndex_absent.
  - intros Hin.
    destruct (findIndex_present _ _ Hin)
      as (before & r & after & Heq & Hid & Hbefore & Hfind & _).
    rewrite Hfind. subst reservations. rewrite replaceAt_app. split.
    + exists before, r, after. auto.
    + simpl. rewrite find_app_missing.
      * simpl. now rewrite Nat.eqb_refl.
      * apply find_all_false. intros x Hx. apply Nat.eqb_neq. auto.
  - destruct (in_dec Nat.eq_dec i (liveIds reservations)) as [Hin|Hout].
    + destruct (findIndex_present _ _ Hin)
        as (before & r & after & Heq & Hid & _ & Hfind & _).
      rewrite Hfind. subst reservations. rewrite replaceAt_app. simpl.
      unfold liveIds. rewrite !map_app. simpl. now rewrite Hid.
    + now rewrite findIndex_absent.
Qed.

(** X2, on two reservations: updating id 2 keeps the ids 1 and 2 and a
    lookup of id 2 finds the new data. *)
Lemma updateReservation_in_place_witness :
  let two := addReservation (draftOf "b") (addReservation (draftOf "a") []) in
  find (fun r => id r =? 2) (snd (updateReservation 2 (draftOf "z") two))
  = Some (withId 2 (draftOf "z")).
Proof.
  cbv zeta.
  apply (proj2 (proj1 (proj2
           (updateReservation_in_place 2 (draftOf "z")
              (addReservation (draftOf "b") (addReservation (draftOf "a") []))))
           (or_intror (or_introl eq_refl)))).
Defined.

(** X3 — a reservation that has just been added is removed again by
    deleting the id it received: on a list the service can reach, add
    followed by delete of the new id gives the list back. *)
Theorem add_then_delete_restores entry reservations :
  ReachableReservations reservations ->
  deleteReservation (newId reservations) (addReservation entry reservations)
  = (true, reservations).
Proof.
  intros Hreach. apply reachable_ids_increase in Hreach.
  assert (Hnew : ~ In (newId reservations) (liveIds reservations)).
  { intros Hin. assert (Hall := below_list_max (liveIds reservations)).
    rewrite Forall_forall in Hall. apply Hall in Hin.
    rewrite newId_last, increasing_last_is_max in Hin by assumption. lia. }
  unfold deleteReservation, addReservation.
  rewrite findIndex_snoc, removeAt_snoc; [reflexivity | | ].
  - intros y Hy. apply Nat.eqb_neq. intros Heq. apply Hnew.
    unfold liveIds. apply in_map_iff. eauto.
  - simpl. apply Nat.eqb_refl.
Qed.

(** X3, on the list that holds reservation 1. *)
Lemma add_then_delete_restores_witness :
  deleteReservation 2 (addReservation (draftOf "b")
                         (runListOp (OpAdd (draftOf "a")) []))
  = (true, runListOp (OpAdd (draftOf "a")) []).
Proof.
  apply (@add_then_delete_restores (draftOf "b") _
           (reachable_step (OpAdd (draftOf "a")) reachable_empty)).
Defined.

(** ** ReservationService: the seat statuses *)

Lemma listedIn_true seats e :
  listedIn seats e = true <-> In (seatOf e) seats.
Proof.
  unfold listedIn. rewrite existsb_exists. split.
  - intros (x & Hx & Hsame). apply sameSeat_true in Hsame.
    destruct x; simpl in Hsame. now rewrite Hsame.
  - intros Hin. exists (seatOf e). split; [assumption|].
    apply sameSeat_true. reflexivity.
Qed.

Lemma filter_twice {A : Type} (f g : A -> bool) l :
  filter f (filter g l) = filter (fun x => g x && f x) l.
Proof.
  induction l as [|x rest IH]; simpl; [reflexivity|].
  destruct (g x); simpl; [destruct (f x); now rewrite IH | exact IH].
Qed.

Lemma unbookSeats_filter seats : forall statuses,
  unbookSeats seats statuses
  = filter (fun e => negb (listedIn seats e)) statuses.
Proof.
  induction seats as [|x rest IH]; intros statuses.
  - simpl. induction statuses as [|e l IHl]; simpl; [reflexivity|].
    now rewrite <- IHl.
  - change (unbookSeats (x :: rest) statuses)
      with (unbookSeats rest (unbookOne statuses x)).
    rewrite IH. unfold unbookOne. rewrite filter_twice.
    apply filter_ext. intros e. simpl. now rewrite negb_orb.
Qed.

Lemma filter_none {A : Type} (f : A -> bool) l :
  (forall x, In x l -> f x = false) -> filter f l = [].
Proof.
  induction l as [|x rest IH]; intros Hall; simpl; [reflexivity|].
  rewrite Hall by now left. apply IH. intros y Hy. apply Hall. now right.
Qed.

Lemma filter_all {A : Type} (f : A -> bool) l :
  (forall x, In x l -> f x = true) -> filter f l = l.
Proof.
  induction l as [|x rest IH]; intros Hall; simpl; [reflexivity|].
  rewrite Hall by now left. f_equal. apply IH. intros y Hy. apply Hall.
  now right.
Qed.

Lemma unbookSeats_removes_helper seats statuses :
  unbookSeats seats statuses
  = filter (fun e => negb (listedIn seats e)) statuses
  /\ (forall x, In x seats ->
        entriesFor (unbookSeats seats statuses) x = [])
  /\ (forall x, ~ In x seats ->
        entriesFor (unbookSeats seats statuses) x = entriesFor statuses x).
Proof.
  split; [apply unbookSeats_filter|]. split.
  - intros x Hx. apply entriesFor_unbookSeats_nil. now left.
  - intros x Hx. rewrite unbookSeats_filter. unfold entriesFor.
    rewrite filter_twice. apply filter_ext_in. intros e He.
    destruct (sameSeat (tableId x) (seatId x) e) eqn:Hsame;
      [|apply andb_false_r].
    rewrite andb_true_r. apply negb_true_iff.
    destruct (listedIn seats e) eqn:Hl; [|reflexivity].
    apply listedIn_true in Hl. apply sameSeat_true in Hsame.
    destruct x; simpl in Hsame. congruence.
Qed.

Lemma unbookSeats_free_noop seats statuses :
  (forall x, In x seats -> entriesFor statuses x = []) ->
  unbookSeats seats statuses = statuses.
Proof.
  intros Hfree. rewrite unbookSeats_filter. apply filter_all.
  intros e He. apply negb_true_iff.
  destruct (listedIn seats e) eqn:Hl; [|reflexivity].
  apply listedIn_true in Hl. apply Hfree in Hl.
  rewrite entriesFor_nil in Hl. now destruct (Hl e He).
Qed.

(** X4 — [unbookSeats] removes every entry of the listed seats and nothing
    else: the remaining entries keep their order and content.  Unbooking
    seats that hold no entry changes nothing, and unbooking twice is the
    same as unbooking once. *)
Theorem unbookSeats_removes_exactly seats statuses :
  unbookSeats seats statuses
  = filter (fun e => negb (listedIn seats e)) statuses
  /\ (forall x, In x seats ->
        entriesFor (unbookSeats seats statuses) x = [])
  /\ (forall x, ~ In x seats ->
        entriesFor (unbookSeats seats statuses) x = entriesFor statuses x)
  /\ ((forall x, In x seats -> entriesFor statuses x = []) ->
      unbookSeats seats statuses = statuses)
  /\ unbookSeats seats (unbookSeats seats statuses)
     = unbookSeats seats statuses.
Proof.
  split; [apply unbookSeats_filter|]. split; [|split; [|split]].
  - intros x Hx. apply entriesFor_unbookSeats_nil. now left.
  - intros x Hx. rewrite unbookSeats_filter. unfold entriesFor.
    rewrite filter_twice. apply filter_ext_in. intros e He.
    destruct (sameSeat (tableId x) (seatId x) e) eqn:Hsame;
      [|apply andb_false_r].
    rewrite andb_true_r. apply negb_true_iff.
    destruct (listedIn seats e) eqn:Hl; [|reflexivity].
    apply listedIn_true in Hl. apply sameSeat_true in Hsame.
    destruct x; simpl in Hsame. congruence.
  - intros Hfree. rewrite unbookSeats_filter. apply filter_all.
    intros e He. apply negb_true_iff.
    destruct (listedIn seats e) eqn:Hl; [|reflexivity].
    apply listedIn_true in Hl. apply Hfree in Hl.
    rewrite entriesFor_nil in Hl. now destruct (Hl e He).
  - rewrite !unbookSeats_filter, filter_twice. apply filter_ext.
    intros e. apply andb_diag.
Qed.

(** X4, on a store with a user booking on (2,1) and a block on (2,2):
    unbooking (2,1) and the free seat (3,3) leaves the block alone. *)
Lemma unbookSeats_removes_exactly_witness :
  unbookSeats [mkSeat 2 1; mkSeat 3 3] [mkStatus 2 1 user; mkStatus 2 2 admin]
  = [mkStatus 2 2 admin]
  /\ entriesFor (unbookSeats [mkSeat 2 1; mkSeat 3 3]
                   [mkStatus 2 1 user; mkStatus 2 2 admin]) (mkSeat 2 1)
     = [].
Proof.
  destruct (unbookSeats_removes_exactly [mkSeat 2 1; mkSeat 3 3]
              [mkStatus 2 1 user; mkStatus 2 2 admin])
    as (Hfilter & Hgone & _).
  split; [exact Hfilter | apply Hgone; now left].
Defined.

(** X5 — unbooking undoes booking: whatever the store held, booking seats
    and then unbooking them leaves what unbooking alone leaves; when the
    seats held no entry the store is back to what it was. *)
Theorem book_then_unbook seats src statuses :
  unbookSeats seats (bookSeats seats src statuses)
  = unbookSeats seats statuses
  /\ ((forall x, In x seats -> entriesFor statuses x = []) ->
      unbookSeats seats (bookSeats seats src statuses) = statuses).
Proof.
  assert (Hsame : unbookSeats seats (bookSeats seats src statuses)
                  = unbookSeats seats statuses).
  { destruct (bookSeats_extends seats src statuses) as (added & -> & Hall).
    rewrite !unbookSeats_filter, filter_app.
    rewrite (filter_none _ added); [apply app_nil_r|].
    intros e He. rewrite Forall_forall in Hall.
    destruct (Hall e He) as (_ & Hin & _).
    apply negb_false_iff. now apply listedIn_true. }
  split; [exact Hsame|]. intros Hfree. rewrite Hsame.
  now apply unbookSeats_free_noop.
Qed.

(** X5, on a store with a block on (1,1): booking then unbooking (1,2) and
    (1,3) gives the store back. *)
Lemma book_then_unbook_witness :
  unbookSeats [mkSeat 1 2; mkSeat 1 3]
    (bookSeats [mkSeat 1 2; mkSeat 1 3] user [mkStatus 1 1 admin])
  = [mkStatus 1 1 admin].
Proof.
  apply (proj2 (book_then_unbook [mkSeat 1 2; mkSeat 1 3] user
                  [mkStatus 1 1 admin])).
  intros x [<-|[<-|[]]]; reflexivity.
Defined.

Lemma find_none_findIndex {A : Type} (p : A -> bool) l :
  find p l = None -> findIndex p l = None.
Proof.
  intros Hfind. apply findIndex_none. now apply find_none.
Qed.

Lemma seatState_free statuses t s :
  seatState statuses t s = Free <-> entriesFor statuses (mkSeat t s) = [].
Proof.
  unfold seatState. rewrite <- existsb_entriesFor. simpl.
  destruct (find (sameSeat t s) statuses) as [e|] eqn:Hfind.
  - apply find_some in Hfind as [Hin He]. split.
    + destruct (source e); discriminate.
    + intros Hex. assert (Htrue : existsb (sameSeat t s) statuses = true)
        by (apply existsb_exists; eauto).
      congruence.
  - split; [|reflexivity]. intros _.
    destruct (existsb (sameSeat t s) statuses) eqn:Hex; [|reflexivity].
    apply existsb_exists in Hex as (e & Hin & He).
    now rewrite (find_none _ _ Hfind e Hin) in He.
Qed.

Lemma toggleSeat_free_appends t s statuses :
  entriesFor statuses (mkSeat t s) = [] ->
  toggleSeat t s statuses = statuses ++ [mkStatus t s admin]
  /\ (forall e, In e statuses -> sameSeat t s e = false).
Proof.
  intros Hfree.
  assert (Hnone : forall e, In e statuses -> sameSeat t s e = false).
  { intros e He. rewrite entriesFor_nil in Hfree.
    destruct (sameSeat t s e) eqn:Hsame; [|reflexivity].
    apply sameSeat_true in Hsame. now destruct (Hfree e He). }
  split; [|exact Hnone].
  unfold toggleSeat. now rewrite (proj2 (findIndex_none _ _) Hnone).
Qed.

(** X6 — [toggleSeat] is its own inverse on a seat that holds no entry: the
    first call appends an admin entry, the second removes it, and the store
    is exactly what it was. *)
Theorem toggleSeat_twice_on_free_seat t s statuses :
  entriesFor statuses (mkSeat t s) = [] ->
  toggleSeat t s statuses = statuses ++ [mkStatus t s admin]
  /\ toggleSeat t s (toggleSeat t s statuses) = statuses.
Proof.
  intros Hfree.
  destruct (toggleSeat_free_appends t s statuses Hfree) as [Hfirst Hnone].
  split; [exact Hfirst|]. rewrite Hfirst. unfold toggleSeat.
  rewrite findIndex_snoc, removeAt_snoc; [reflexivity | exact Hnone |].
  unfold sameSeat. simpl. now rewrite !Nat.eqb_refl.
Qed.

(** X6, on a store with one user booking: blocking and unblocking the free
    seat (4,5). *)
Lemma toggleSeat_twice_on_free_seat_witness :
  toggleSeat 4 5 (toggleSeat 4 5 [mkStatus 1 1 user]) = [mkStatus 1 1 user].
Proof.
  apply (@toggleSeat_twice_on_free_seat 4 5 [mkStatus 1 1 user]).
  reflexivity.
Defined.

Lemma find_snoc_other {A : Type} (p : A -> bool) l x :
  p x = false -> find p (l ++ [x]) = find p l.
Proof.
  intros Hx. induction l as [|y rest IH]; simpl; [now rewrite Hx|].
  destruct (p y); auto.
Qed.

Lemma find_without {A : Type} (p : A -> bool) before x after :
  p x = false -> find p (before ++ after) = find p (before ++ x :: after).
Proof.
  intros Hx. induction before as [|y rest IH]; simpl; [now rewrite Hx|].
  destruct (p y); auto.
Qed.

Lemma sameSeat_other t s t' s' e :
  mkSeat t' s' <> mkSeat t s -> sameSeat t s e = true ->
  sameSeat t' s' e = false.
Proof.
  intros Hneq He. destruct (sameSeat t' s' e) eqn:He'; [|reflexivity].
  destruct Hneq. now apply (sameSeat_exclusive _ _ _ _ _ He' He).
Qed.

(** X7 — what [toggleSeat] does to the seat it names, in a store the
    service can reach: a free seat becomes admin-blocked; a seat with an
    entry becomes free whether a user or the administrator held it, so a
    second toggle of a user-booked seat leaves it admin-blocked, not booked;
    the state of every other seat is unchanged. *)
Theorem toggleSeat_state_machine statuses t s :
  ReachableStatuses statuses ->
  (seatState statuses t s = Free ->
   seatState (toggleSeat t s statuses) t s = AdminBlocked)
  /\ (seatState statuses t s <> Free ->
      seatState (toggleSeat t s statuses) t s = Free)
  /\ (seatState statuses t s = UserBooked ->
      seatState (toggleSeat t s (toggleSeat t s statuses)) t s = AdminBlocked)
  /\ (forall t' s', mkSeat t' s' <> mkSeat t s ->
        seatState (toggleSeat t s statuses) t' s' = seatState statuses t' s').
Proof.
  intros Hreach.
  assert (Hnd := reachable_one_entry_per_seat Hreach).
  assert (Hfree : forall l, seatState l t s = Free ->
            seatState (toggleSeat t s l) t s = AdminBlocked).
  { intros l Hl. apply seatState_free in Hl.
    destruct (toggleSeat_free_appends t s l Hl) as [-> _].
    unfold seatState. rewrite find_app_missing.
    - simpl. unfold sameSeat. simpl. now rewrite !Nat.eqb_refl.
    - apply seatState_free in Hl. unfold seatState in Hl.
      destruct (find (sameSeat t s) l) as [e|]; [|reflexivity].
      destruct (source e); discriminate. }
  assert (Hbusy : seatState statuses t s <> Free ->
            seatState (toggleSeat t s statuses) t s = Free).
  { intros Hstate. unfold toggleSeat.
    destruct (findIndex (sameSeat t s) statuses) as [index|] eqn:Hfind.
    - apply findIndex_some in Hfind
        as (before & x & after & -> & _ & Hx & Hbefore & ->).
      rewrite map_app in Hnd. simpl in Hnd.
      apply NoDup_remove_2 in Hnd. rewrite <- map_app in Hnd.
      apply sameSeat_true in Hx. apply seatState_free, entriesFor_nil.
      intros e He Heq. apply Hnd. apply in_map_iff. exists e. split;
        [congruence | assumption].
    - destruct Hstate. apply seatState_free, entriesFor_nil.
      intros e He Heq. rewrite findIndex_none in Hfind.
      assert (Htrue : sameSeat t s e = true) by now apply sameSeat_true.
      rewrite (Hfind e He) in Htrue. discriminate. }
  split; [apply Hfree|]. split; [exact Hbusy|]. split.
  - intros Hbooked. apply Hfree, Hbusy. rewrite Hbooked. discriminate.
  - intros t' s' Hneq. unfold toggleSeat, seatState.
    destruct (findIndex (sameSeat t s) statuses) as [index|] eqn:Hfind.
    + apply findIndex_some in Hfind
        as (before & x & after & -> & _ & Hx & _ & ->).
      now rewrite (@find_without _ (sameSeat t' s') before x after
                     (@sameSeat_other t s t' s' x Hneq Hx)).
    + rewrite find_snoc_other; [reflexivity|].
      apply (@sameSeat_other t s t' s' _ Hneq).
      unfold sameSeat. simpl. now rewrite !Nat.eqb_refl.
Qed.

(** X7, on the store reached by a user booking of (1,1): two toggles of the
    seat leave it admin-blocked. *)
Lemma toggleSeat_state_machine_witness :
  seatState (toggleSeat 1 1 (toggleSeat 1 1
               (runOp (OpBook [mkSeat 1 1] user) []))) 1 1
  = AdminBlocked.
Proof.
  apply (@toggleSeat_state_machine _ 1 1
           (reach_step (OpBook [mkSeat 1 1] user) reach_empty)).
  reflexivity.
Defined.

(** X8 — [assignSeats] returns min(count, number of free seats) seats: the
    full count whenever that many seats are free, all the free seats
    otherwise.  The seats are distinct seats of the plan that held no
    entry. *)
Theorem assignSeats_returns_min rnd count statuses :
  let chosen := fst (assignSeats rnd count statuses) in
  length chosen = Nat.min count (length (allFreeSeats statuses))
  /\ NoDup chosen
  /\ (forall x, In x chosen ->
        isTable (tableId x) /\ isSeat (seatId x)
        /\ entriesFor statuses x = []).
Proof.
  cbv zeta.
  change (fst (assignSeats rnd count statuses))
    with (chooseSeats rnd count statuses).
  split; [|split].
  - destruct (chooseSeats_cases rnd count statuses)
      as [->|(Hlen & Hnd & Hincl)].
    + destruct (pickRandom_split rnd count 0 (allFreeSeats statuses))
        as (_ & _ & Hlen). exact Hlen.
    + apply (NoDup_incl_length Hnd) in Hincl. lia.
  - apply chooseSeats_fresh.
  - intros x Hx. assert (Hfree := chooseSeats_free _ _ _ _ Hx).
    apply chooseSeats_fresh, in_allFreeSeats in Hx. tauto.
Qed.

(** X9 — a seat handed out by [assignSeats] is not handed out again: a
    later call, on the store the first call left (possibly after further
    bookings), returns seats disjoint from those of the first. *)
Theorem assignSeats_never_reuses rnd1 count1 rnd2 count2 more src statuses :
  let first := assignSeats rnd1 count1 statuses in
  let second :=
    assignSeats rnd2 count2 (bookSeats more src (snd first)) in
  forall x, In x (fst first) -> ~ In x (fst second).
Proof.
  cbv zeta. intros x Hfirst Hsecond.
  apply chooseSeats_free in Hsecond. revert Hsecond.
  destruct (entriesFor (snd (assignSeats rnd1 count1 statuses)) x) eqn:He.
  - exfalso. revert He. unfold assignSeats. simpl.
    now apply bookSeats_covers.
  - rewrite entriesFor_bookSeats_present; rewrite He; discriminate.
Qed.

(** ** ReservationComponent: seat ids, rows and the selection *)

(** X10 — the global seat id and the (table, seat) address are inverse to
    each other on the plan: seat [s] of table [t] gets an id between 1 and
    250 from which [tableIdOf] and [seatIndexOf] recover [t] and [s], and
    every id between 1 and 250 names a seat of the plan. *)
Theorem seat_id_round_trip :
  (forall t s, isTable t -> isSeat s ->
     1 <= ReservationComponent.globalId t s <= 250
     /\ ReservationComponent.seatRefOf (ReservationComponent.globalId t s)
        = mkSeat t s)
  /\ (forall n, 1 <= n <= 250 ->
        isTable (ReservationComponent.tableIdOf n)
        /\ isSeat (ReservationComponent.seatIndexOf n)
        /\ ReservationComponent.globalId (ReservationComponent.tableIdOf n)
                                         (ReservationComponent.seatIndexOf n)
           = n).
Proof.
  unfold ReservationComponent.globalId, ReservationComponent.seatRefOf,
    ReservationComponent.tableIdOf, ReservationComponent.seatIndexOf,
    isTable, isSeat.
  split.
  - intros t s Ht Hs. split; [nia|].
    assert (Hsplit : (t - 1) * 10 + s - 1 = 10 * (t - 1) + (s - 1)) by lia.
    assert (Hdiv : ((t - 1) * 10 + s - 1) / 10 = t - 1).
    { symmetry. apply (Nat.div_unique _ 10 _ (s - 1)); lia. }
    assert (Hmod : ((t - 1) * 10 + s - 1) mod 10 = s - 1).
    { symmetry. apply (Nat.mod_unique _ 10 (t - 1)); lia. }
    rewrite Hdiv, Hmod. f_equal; lia.
  - intros n Hn.
    assert (Heq := Nat.div_mod_eq (n - 1) 10).
    assert (Hlt : (n - 1) mod 10 < 10) by (apply Nat.mod_upper_bound; lia).
    assert (Hq : (n - 1) / 10 < 25)
      by (apply Nat.Div0.div_lt_upper_bound; lia).
    lia.
Qed.

(** X10, on seat 10 of table 25 and on id 11. *)
Lemma seat_id_round_trip_witness :
  ReservationComponent.seatRefOf (ReservationComponent.globalId 25 10)
  = mkSeat 25 10
  /\ ReservationComponent.globalId (ReservationComponent.tableIdOf 11)
                                   (ReservationComponent.seatIndexOf 11)
     = 11.
Proof.
  destruct seat_id_round_trip as [Hto Hfrom]. split.
  - apply (Hto 25 10); unfold isTable, isSeat; lia.
  - apply (Hfrom 11). lia.
Defined.

Lemma firstn_plus {A : Type} n m : forall (l : list A),
  firstn (n + m) l = firstn n l ++ firstn m (skipn n l).
Proof.
  induction n as [|n IH]; intros l; [reflexivity|].
  destruct l as [|x rest]; simpl.
  - now rewrite firstn_nil.
  - now rewrite IH.
Qed.

Lemma groupRows_concat {A : Type} (tables : list A) : forall groups start,
  concat (ReservationComponent.groupRows groups start tables)
  = slice start (start + list_sum groups) tables.
Proof.
  unfold slice. induction groups as [|count rest IH]; intros start; simpl.
  - replace (start + 0 - start) with 0 by lia. reflexivity.
  - rewrite IH. unfold slice.
    replace (start + count - start) with count by lia.
    replace (start + count + list_sum rest - (start + count))
      with (list_sum rest) by lia.
    replace (start + (count + list_sum rest) - start)
      with (count + list_sum rest) by lia.
    rewrite firstn_plus, skipn_skipn.
    now replace (count + start) with (start + count) by lia.
Qed.

Lemma groupRows_lengths {A : Type} (tables : list A) : forall groups start,
  start + list_sum groups <= length tables ->
  map (@length A) (ReservationComponent.groupRows groups start tables)
  = groups.
Proof.
  induction groups as [|count rest IH]; intros start Hfit; simpl;
    [reflexivity|].
  simpl in Hfit. rewrite IH by lia. f_equal. unfold slice.
  rewrite length_firstn, length_skipn. lia.
Qed.

(** X11 — the rows of the plan partition the tables: when the group sizes
    add up to the number of tables, the rows built by the constructor,
    put end to end, are the tables in order, each table in exactly one
    row, and row [k] has the size of group [k]. *)
Theorem tableRows_partition {A : Type} (groups : list nat) (tables : list A) :
  list_sum groups = length tables ->
  concat (ReservationComponent.groupRows groups 0 tables) = tables
  /\ map (@length A) (ReservationComponent.groupRows groups 0 tables)
     = groups.
Proof.
  intros Hsum. split.
  - rewrite groupRows_concat. unfold slice. simpl. rewrite Hsum.
    rewrite Nat.sub_0_r. apply firstn_all.
  - apply groupRows_lengths. lia.
Qed.

(** X11, on the plan itself: the seven rows of sizes 4,3,4,3,4,3,4 hold the
    25 tables in order. *)
Lemma tableRows_partition_witness :
  concat ReservationComponent.tableRows = ReservationComponent.initTables
  /\ map (@length ReservationComponent.Table) ReservationComponent.tableRows
     = ReservationComponent.tableGroups.
Proof.
  apply (@tableRows_partition _ ReservationComponent.tableGroups
           ReservationComponent.initTables).
  reflexivity.
Defined.

Lemma flags_free shown seat :
  ReservationComponent.booked shown seat = false ->
  ReservationComponent.adminBlocked shown seat = false ->
  entriesFor shown (ReservationComponent.seatRefOf seat) = [].
Proof.
  unfold ReservationComponent.booked, ReservationComponent.adminBlocked,
    ReservationComponent.statusOf.
  destruct (find _ shown) as [e|] eqn:Hfind.
  - destruct (source e); discriminate.
  - intros _ _. apply existsb_entriesFor. simpl.
    destruct (existsb _ shown) eqn:Hex; [|reflexivity].
    apply existsb_exists in Hex as (e & Hin & He).
    now rewrite (find_none _ _ Hfind e Hin) in He.
Qed.

Lemma free_flags shown seat :
  entriesFor shown (ReservationComponent.seatRefOf seat) = [] ->
  ReservationComponent.booked shown seat = false
  /\ ReservationComponent.adminBlocked shown seat = false.
Proof.
  intros Hfree.
  unfold ReservationComponent.booked, ReservationComponent.adminBlocked,
    ReservationComponent.statusOf.
  destruct (find _ shown) as [e|] eqn:Hfind; [|auto].
  apply find_some in Hfind as [Hin He]. rewrite entriesFor_nil in Hfree.
  apply sameSeat_true in He. now destruct (Hfree e Hin).
Qed.

Lemma pickable_true shown selected seat :
  ReservationComponent.pickable shown selected seat = true
  <-> entriesFor shown (ReservationComponent.seatRefOf seat) = []
      /\ ~ In seat selected.
Proof.
  unfold ReservationComponent.pickable, ReservationComponent.isSelected.
  rewrite !andb_true_iff, !negb_true_iff. split.
  - intros [[Hb Ha] Hsel]. split; [now apply flags_free|].
    intros Hin. apply includesNat_true in Hin. congruence.
  - intros [Hfree Hout]. apply free_flags in Hfree as [Hb Ha].
    repeat split; auto.
    destruct (includesNat seat selected) eqn:Hinc; [|reflexivity].
    apply includesNat_true in Hinc. contradiction.
Qed.

(** The [forEach] of [toggleTableSeats] that selects the seats of a table. *)
Lemma select_table_seats shown : forall seats selected,
  let after :=
    fold_left (fun sel seat =>
                 if ReservationComponent.pickable shown sel seat
                 then sel ++ [seat] else sel)
              seats selected in
  incl selected after
  /\ (forall seat, In seat after ->
        In seat selected
        \/ (In seat seats
            /\ entriesFor shown (ReservationComponent.seatRefOf seat) = []))
  /\ (forall seat, In seat seats ->
        entriesFor shown (ReservationComponent.seatRefOf seat) = [] ->
        In seat after)
  /\ (NoDup selected -> NoDup after).
Proof.
  intros seats. induction seats as [|x rest IH]; intros selected; cbv zeta.
  - simpl. split; [apply incl_refl|]. split; [intros seat Hin; now left|].
    split; [intros seat [] | auto].
  - simpl.
    set (next := if ReservationComponent.pickable shown selected x
                 then selected ++ [x] else selected).
    destruct (IH next) as (Hincl & Hfrom & Hall & Hnd).
    assert (Hnext : incl selected next).
    { subst next. destruct (ReservationComponent.pickable _ _ _);
        [apply incl_appl|]; apply incl_refl. }
    split; [eapply incl_tran; eassumption|]. split; [|split].
    + intros seat Hin. destruct (Hfrom seat Hin) as [Hsel|[Hr Hfree]];
        [|now right; split; [right|]].
      subst next.
      destruct (ReservationComponent.pickable shown selected x) eqn:Hp;
        [|now left].
      apply in_app_or in Hsel as [Hsel|[<-|[]]]; [now left|].
      right. split; [now left|]. now apply pickable_true in Hp.
    + intros seat [<-|Hin] Hfree; [|now apply Hall].
      apply Hincl. subst next.
      destruct (ReservationComponent.pickable shown selected x) eqn:Hp.
      * apply in_or_app. right. now left.
      * destruct (in_dec Nat.eq_dec x selected) as [Hsel|Hout];
          [assumption|].
        rewrite (proj2 (pickable_true shown selected x)) in Hp by auto.
        discriminate.
    + intros Hsel. apply Hnd. subst next.
      destruct (ReservationComponent.pickable shown selected x) eqn:Hp;
        [|assumption].
      apply pickable_true in Hp as [_ Hout].
      apply NoDup_app; [assumption | constructor; [intros []|constructor] |].
      intros y Hy [<-|[]]. contradiction.
Qed.

Lemma removeAt_NoDup {A : Type} : forall (l : list A) index,
  NoDup l -> NoDup (removeAt index l).
Proof.
  induction l as [|x rest IH]; intros index Hnd.
  - destruct index; exact Hnd.
  - inversion Hnd as [|? ? Hout Hrest]; subst.
    destruct index as [|index]; simpl; [assumption|].
    constructor; [|now apply IH].
    intros Hin. apply Hout. eapply removeAt_incl. eassumption.
Qed.

Lemma runSelect_keeps shown selected op :
  NoDup selected ->
  (forall seat, In seat selected ->
     entriesFor shown (ReservationComponent.seatRefOf seat) = []) ->
  NoDup (runSelect shown selected op)
  /\ (forall seat, In seat (runSelect shown selected op) ->
        entriesFor shown (ReservationComponent.seatRefOf seat) = []).
Proof.
  intros Hnd Hfree. destruct op as [seat|table]; simpl.
  - split.
    + unfold ReservationComponent.toggleSeat.
      destruct (_ || _); [assumption|].
      destruct (findIndex (Nat.eqb seat) selected) as [index|] eqn:Hfind.
      * now apply removeAt_NoDup.
      * apply NoDup_app; [assumption | constructor; [intros []|constructor] |].
        intros y Hy [<-|[]]. rewrite findIndex_none in Hfind.
        specialize (Hfind seat Hy). now rewrite Nat.eqb_refl in Hfind.
    + intros x Hx. apply toggleSeat_selects_free in Hx as [Hx|Hx]; auto.
  - unfold ReservationComponent.toggleTableSeats.
    destruct (existsb _ _).
    + destruct (select_table_seats shown
                  (ReservationComponent.table_seats table) selected)
        as (_ & Hfrom & _ & Hkeep).
      split; [now apply Hkeep|].
      intros seat Hin. destruct (Hfrom seat Hin) as [Hsel|[_ Hok]]; auto.
    + split; [now apply NoDup_filter|].
      intros seat Hin. apply filter_In in Hin as [Hin _]. auto.
Qed.

Lemma selection_free_helper shown ops :
  NoDup (runSelects shown ops [])
  /\ (forall seat, In seat (runSelects shown ops []) ->
        entriesFor shown (ReservationComponent.seatRefOf seat) = []).
Proof.
  unfold runSelects.
  assert (Hgen : forall selected,
            NoDup selected ->
            (forall seat, In seat selected ->
               entriesFor shown (ReservationComponent.seatRefOf seat) = []) ->
            NoDup (fold_left (runSelect shown) ops selected)
            /\ (forall seat, In seat (fold_left (runSelect shown) ops selected) ->
                  entriesFor shown (ReservationComponent.seatRefOf seat) = [])).
  { induction ops as [|op rest IH]; intros selected Hnd Hfree; [auto|].
    simpl. destruct (@runSelect_keeps shown selected op Hnd Hfree)
      as [Hnd' Hfree'].
    now apply IH. }
  apply Hgen; [constructor | intros seat []].
Qed.

(** X12 — whatever the customer clicks (seats, whole tables, in any order),
    the selection never holds a seat twice and never holds a seat that the
    plan shows as booked or blocked. *)
Theorem selection_is_free_and_distinct shown ops :
  NoDup (runSelects shown ops [])
  /\ (forall seat, In seat (runSelects shown ops []) ->
        ReservationComponent.booked shown seat = false
        /\ ReservationComponent.adminBlocked shown seat = false
        /\ entriesFor shown (ReservationComponent.seatRefOf seat) = []).
Proof.
  destruct (selection_free_helper shown ops) as [Hnd Hfree].
  split; [assumption|]. intros seat Hin. specialize (Hfree seat Hin).
  destruct (free_flags _ _ Hfree). auto.
Qed.

(** X13 — a click on a table selects or deselects the whole table: if some
    seat of the table is shown free and is not selected, every seat of the
    table shown free is selected afterwards and nothing is deselected;
    otherwise every seat of the table leaves the selection and the seats
    of other tables stay as they were. *)
Theorem toggleTableSeats_all_or_none shown table selected :
  let seats := ReservationComponent.table_seats table in
  let after := ReservationComponent.toggleTableSeats shown table selected in
  ((exists seat, In seat seats
      /\ entriesFor shown (ReservationComponent.seatRefOf seat) = []
      /\ ~ In seat selected) ->
   incl selected after
   /\ forall seat, In seat seats ->
        entriesFor shown (ReservationComponent.seatRefOf seat) = [] ->
        In seat after)
  /\ ((forall seat, In seat seats ->
         entriesFor shown (ReservationComponent.seatRefOf seat) = [] ->
         In seat selected) ->
      forall seat, In seat after <-> In seat selected /\ ~ In seat seats).
Proof.
  cbv zeta. unfold ReservationComponent.toggleTableSeats. split.
  - intros (seat & Hin & Hfree & Hout).
    assert (Hsome : existsb (ReservationComponent.pickable shown selected)
                      (ReservationComponent.table_seats table) = true).
    { apply existsb_exists. exists seat. split; [assumption|].
      now apply pickable_true. }
    rewrite Hsome.
    destruct (select_table_seats shown
                (ReservationComponent.table_seats table) selected)
      as (Hincl & _ & Hall & _).
    auto.
  - intros Hall.
    assert (Hnone : existsb (ReservationComponent.pickable shown selected)
                      (ReservationComponent.table_seats table) = false).
    { destruct (existsb _ _) eqn:Hex; [|reflexivity].
      apply existsb_exists in Hex as (seat & Hin & Hp).
      apply pickable_true in Hp as [Hfree Hout].
      now destruct (Hout (Hall seat Hin Hfree)). }
    rewrite Hnone. intros seat. rewrite filter_In, negb_true_iff.
    split; intros [Hsel Hout]; split; auto.
    + intros Hin. apply includesNat_true in Hin. congruence.
    + destruct (includesNat seat _) eqn:Hinc; [|reflexivity].
      apply includesNat_true in Hinc. contradiction.
Qed.

(** X13, on table 1 with seat 1 booked and seat 2 already selected: the
    click selects the nine free seats; a second click empties the
    selection. *)
Lemma toggleTableSeats_all_or_none_witness :
  let table1 :=
    ReservationComponent.mkTable
      1 (map (ReservationComponent.globalId 1) seatIds) in
  let first :=
    ReservationComponent.toggleTableSeats [mkStatus 1 1 user] table1 [2] in
  In 10 first
  /\ forall seat,
       In seat (ReservationComponent.toggleTableSeats
                  [mkStatus 1 1 user] table1 first)
       <-> In seat first /\ ~ In seat (ReservationComponent.table_seats table1).
Proof.
  cbv zeta. split.
  - apply (proj1 (toggleTableSeats_all_or_none [mkStatus 1 1 user]
             (ReservationComponent.mkTable
                1 (map (ReservationComponent.globalId 1) seatIds)) [2])).
    + exists 3. repeat split; [simpl; tauto | simpl; lia].
    + simpl. tauto.
    + reflexivity.
  - apply (proj2 (toggleTableSeats_all_or_none [mkStatus 1 1 user]
             (ReservationComponent.mkTable
                1 (map (ReservationComponent.globalId 1) seatIds)) _)).
    intros seat Hin Hfree. simpl in Hin.
    repeat (destruct Hin as [<-|Hin];
            [first [discriminate Hfree | vm_compute; tauto]|]).
    contradiction.
Defined.

Lemma find_filter_head {A : Type} (p : A -> bool) l :
  find p l = hd_error (filter p l).
Proof.
  induction l as [|x rest IH]; simpl; [reflexivity|].
  destruct (p x); [reflexivity | exact IH].
Qed.

Lemma seatState_of_entries statuses x :
  seatState statuses (tableId x) (seatId x)
  = match entriesFor statuses x with
    | [] => Free
    | e :: _ => match source e with
                | user => UserBooked
                | admin => AdminBlocked
                end
    end.
Proof.
  unfold seatState, entriesFor. rewrite find_filter_head.
  now destruct (filter _ statuses).
Qed.

(** X14 — a reservation made from a selection clicked on the current plan
    keeps the store consistent: the reservation receives the selected
    seats, in the order selected, and each of them is user-booked
    afterwards.  An empty selection changes nothing. *)
Theorem selection_then_finalize ops now formName formPhone st :
  Consistent st ->
  let selected := runSelects (chaabiSeatStatuses st) ops [] in
  let after :=
    ReservationComponent.finalizeSeatReservation
      now formName formPhone selected st in
  Consistent after
  /\ (selected = [] -> after = st)
  /\ (selected <> [] ->
      exists r,
        chaabiReservations after = chaabiReservations st ++ [r]
        /\ seats r = map ReservationComponent.seatRefOf selected
        /\ forall x, In x (seats r) ->
             seatState (chaabiSeatStatuses after) (tableId x) (seatId x)
             = UserBooked).
Proof.
  intros Hst. cbv zeta.
  destruct (selection_free_helper (chaabiSeatStatuses st) ops) as [_ Hfree].
  set (selected := runSelects (chaabiSeatStatuses st) ops []) in *.
  split; [now apply consistent_finalizeSeatReservation|]. split.
  - intros ->. reflexivity.
  - intros Hsome. unfold ReservationComponent.finalizeSeatReservation.
    destruct selected as [|seat0 more] eqn:Hsel; [congruence|].
    rewrite <- Hsel in *. replace (length selected =? 0) with false
      by (rewrite Hsel; reflexivity).
    unfold addReservation. simpl. eexists. split; [reflexivity|].
    split; [reflexivity|]. simpl. intros x Hx.
    rewrite seatState_of_entries, entriesFor_bookSeats_absent;
      [reflexivity | assumption |].
    apply in_map_iff in Hx as (seat & <- & Hin). now apply Hfree.
Qed.

(** X14, from the empty store: the customer clicks seat 12 and then table
    1. *)
Lemma selection_then_finalize_witness :
  Consistent
    (ReservationComponent.finalizeSeatReservation
       7 "Amal" "0600000000"
       (runSelects []
          [ClickSeat 12;
           ClickTable (ReservationComponent.mkTable
                         1 (map (ReservationComponent.globalId 1) seatIds))]
          [])
       emptyStorage).
Proof.
  apply (@selection_then_finalize
           [ClickSeat 12;
            ClickTable (ReservationComponent.mkTable
                          1 (map (ReservationComponent.globalId 1) seatIds))]
           7 "Amal" "0600000000" emptyStorage).
  split; [exact I|]. intros seat. simpl. tauto.
Defined.

(** X15 — a pack reservation is always recorded, with the seats
    [assignSeats] could give: the list grows by one reservation whose id is
    the next id, whose seats number min(pack size, free seats) and are the
    seats booked by the call.  On a plan with no free seat the reservation
    is stored with no seat at all and the seat statuses are unchanged. *)
Theorem finalizePackReservation_records rnd now formName formPhone selected st :
  let after :=
    ReservationComponent.finalizePackReservation
      rnd now formName formPhone (Some selected) st in
  let size :=
    ReservationComponent.seatCountOf (ReservationComponent.pkg_name selected) in
  exists r,
    chaabiReservations after = chaabiReservations st ++ [r]
    /\ id r = newId (chaabiReservations st)
    /\ pack r = ReservationComponent.pkg_name selected
    /\ length (seats r)
       = Nat.min size (length (allFreeSeats (chaabiSeatStatuses st)))
    /\ chaabiSeatStatuses after
       = chaabiSeatStatuses st ++ map (entryOf user) (seats r)
    /\ (allFreeSeats (chaabiSeatStatuses st) = [] ->
        seats r = [] /\ chaabiSeatStatuses after = chaabiSeatStatuses st).
Proof.
  cbv zeta. unfold ReservationComponent.finalizePackReservation.
  set (size := ReservationComponent.seatCountOf _).
  assert (Hlen : length (chooseSeats rnd size (chaabiSeatStatuses st))
                 = Nat.min size (length (allFreeSeats (chaabiSeatStatuses st)))).
  { destruct (chooseSeats_cases rnd size (chaabiSeatStatuses st))
      as [->|(Hlen & Hnd & Hincl)].
    - destruct (pickRandom_split rnd size 0
                  (allFreeSeats (chaabiSeatStatuses st))) as (_ & _ & H).
      exact H.
    - apply (NoDup_incl_length Hnd) in Hincl. lia. }
  assert (Hbook := assignSeats_books rnd size (chaabiSeatStatuses st)).
  unfold assignSeats in *. simpl in Hbook. simpl.
  unfold addReservation. eexists. split; [reflexivity|]. simpl.
  split; [reflexivity|]. split; [reflexivity|]. split; [exact Hlen|].
  split; [exact Hbook|]. intros Hnone.
  rewrite Hnone in Hlen. simpl in Hlen. rewrite Nat.min_0_r in Hlen.
  apply length_zero_iff_nil in Hlen. rewrite Hbook, Hlen. simpl.
  split; [reflexivity | apply app_nil_r].
Qed.

(** X16 — the price the dashboard shows for a reservation made from a seat
    selection ([finalizeSeatReservation] names the pack after the number of
    seats): 320 for two seats, 1700 for ten, and 150 per seat for every
    other number. *)
Theorem selection_price r :
  pack r = ReservationComponent.packNameOf (length (seats r)) ->
  AdminDashboardComponent.getTotalPrice r
  = if length (seats r) =? 2 then 320
    else if length (seats r) =? 10 then 1700
    else 150 * length (seats r).
Proof.
  intros Hpack. unfold AdminDashboardComponent.getTotalPrice.
  rewrite Hpack. unfold ReservationComponent.packNameOf.
  destruct (Nat.eqb_spec (length (seats r)) 1) as [->|H1]; [reflexivity|].
  destruct (Nat.eqb_spec (length (seats r)) 2) as [H2|H2]; [reflexivity|].
  destruct (Nat.eqb_spec (length (seats r)) 10) as [H10|H10]; [reflexivity|].
  change (includes "table" (toLowerCase "Sélection personnalisée"))
    with false.
  change (includes "duo" (toLowerCase "Sélection personnalisée")) with false.
  change (includes "ticket" (toLowerCase "Sélection personnalisée"))
    with false.
  cbv iota. lia.
Qed.

(** X16, on a selection of three seats: 450. *)
Lemma selection_price_witness :
  AdminDashboardComponent.getTotalPrice
    (mkReservation 4 "Amal" "0600000000" "Sélection personnalisée"
                   [mkSeat 1 1; mkSeat 1 2; mkSeat 2 7] 0)
  = 450.
Proof.
  apply (@selection_price
           (mkReservation 4 "Amal" "0600000000" "Sélection personnalisée"
                          [mkSeat 1 1; mkSeat 1 2; mkSeat 2 7] 0)).
  reflexivity.
Defined.

(** ** AdminDashboardComponent: what the form offers and what it does *)

Lemma isEditingSeat_true c t s :
  AdminDashboardComponent.isEditingSeat c t s = true
  <-> In (mkSeat t s) (AdminDashboardComponent.editingSeats c).
Proof.
  unfold AdminDashboardComponent.isEditingSeat. rewrite existsb_exists. split.
  - intros (x & Hx & Heq). apply andb_true_iff in Heq as [Ht Hs].
    apply Nat.eqb_eq in Ht, Hs. destruct x; simpl in *. now subst.
  - intros Hin. exists (mkSeat t s). split; [assumption|].
    simpl. now rewrite !Nat.eqb_refl.
Qed.

Lemma in_offered_seats c statuses table seat :
  In seat
     (filter (fun seat =>
                negb (existsb (sameSeat table seat) statuses)
                || AdminDashboardComponent.isEditingSeat c table seat)
             seatIds)
  <-> isSeat seat /\ offerable c statuses table seat.
Proof.
  rewrite filter_In, in_seatIds, orb_true_iff, negb_true_iff,
    isEditingSeat_true.
  unfold offerable.
  now rewrite (existsb_entriesFor statuses (mkSeat table seat)).
Qed.

Lemma in_getAvailableSeats c statuses table seat :
  AdminDashboardComponent.selectedTableAdmin c = Some table ->
  In seat (AdminDashboardComponent.getAvailableSeats c statuses)
  <-> isSeat seat /\ offerable c statuses table seat
      /\ (includes "duo" (toLowerCase
                            (AdminDashboardComponent.selectedPackAdmin c))
          = true ->
          offerable c statuses table (nextSeat seat)).
Proof.
  intros Htable. unfold AdminDashboardComponent.getAvailableSeats.
  rewrite Htable.
  destruct (includes "duo" _) eqn:Hduo.
  - rewrite (@includes_not_blank "duo" _ Hduo) by discriminate.
    change (negb false && true) with true. cbv iota.
    rewrite filter_In, includesNat_true, !in_offered_seats.
    split; [intros [[Hs Ho] [_ Hn]]; auto|].
    intros (Hs & Ho & Hn). split; [split; assumption|].
    split; [now apply nextSeat_isSeat | now apply Hn].
  - rewrite andb_false_r, in_offered_seats. split; [|tauto].
    intros [Hs Ho]. split; [assumption|]. split; [assumption|]. discriminate.
Qed.

(** X17 — the seats the administrator's seat dropdown offers for the
    selected table are exactly the seats 1 to 10 that hold no entry or
    belong to the reservation being edited and, for a duo pack, whose
    circular successor does too; with no table selected nothing is
    offered. *)
Theorem getAvailableSeats_offers c statuses :
  (AdminDashboardComponent.selectedTableAdmin c = None ->
   AdminDashboardComponent.getAvailableSeats c statuses = [])
  /\ (forall table seat,
        AdminDashboardComponent.selectedTableAdmin c = Some table ->
        In seat (AdminDashboardComponent.getAvailableSeats c statuses)
        <-> isSeat seat /\ offerable c statuses table seat
            /\ (includes "duo"
                  (toLowerCase (AdminDashboardComponent.selectedPackAdmin c))
                = true ->
                offerable c statuses table (nextSeat seat))).
Proof.
  split.
  - intros Hnone. unfold AdminDashboardComponent.getAvailableSeats.
    now rewrite Hnone.
  - intros table seat. apply in_getAvailableSeats.
Qed.

(** X17, for a duo on table 1 where seats 2 to 9 are booked: seat 10 is
    offered, its successor being seat 1. *)
Lemma getAvailableSeats_offers_witness :
  In 10 (AdminDashboardComponent.getAvailableSeats
           (AdminDashboardComponent.mkComponent
              [] None "Amal" "0600000000" "Pack duo" (Some 1) None)
           table1Ends).
Proof.
  apply (proj2 (getAvailableSeats_offers
                  (AdminDashboardComponent.mkComponent
                     [] None "Amal" "0600000000" "Pack duo" (Some 1) None)
                  table1Ends) 1 10 eq_refl).
  split; [unfold isSeat; lia|]. split; [now left|]. intros _. now left.
Defined.

Lemma explicitSeats_offered c statuses table seat x :
  AdminDashboardComponent.selectedTableAdmin c = Some table ->
  In seat (AdminDashboardComponent.getAvailableSeats c statuses) ->
  In x (explicitSeats (AdminDashboardComponent.selectedPackAdmin c) table
                      (Some seat)) ->
  entriesFor statuses x = []
  \/ In x (AdminDashboardComponent.editingSeats c).
Proof.
  intros Htable Hoffered Hx.
  apply (in_getAvailableSeats c statuses seat Htable) in Hoffered
    as (_ & Hseat & Hnext).
  unfold explicitSeats in Hx.
  destruct (includes "table" _); [contradiction|].
  destruct (includes "duo" _).
  - destruct Hx as [<-|[<-|[]]]; [exact Hseat | now apply Hnext].
  - destruct Hx as [<-|[]]. exact Hseat.
Qed.

(** X18 — when no reservation is being edited and the seat on the form, if
    any, is one the seat dropdown offers for the current store, the
    administrator's create keeps reservations and seat statuses
    consistent. *)
Theorem offered_seat_add_consistent rnd now c st :
  Consistent st ->
  AdminDashboardComponent.editingId c = None ->
  (forall seat, AdminDashboardComponent.selectedSeatAdmin c = Some seat ->
     In seat (AdminDashboardComponent.getAvailableSeats
                c (chaabiSeatStatuses st))) ->
  Consistent (snd (AdminDashboardComponent.addReservationAdmin rnd now c st)).
Proof.
  intros Hst Hediting Hoffered. apply consistent_addReservationAdmin;
    [assumption|].
  intros table x Htable Hx.
  destruct (AdminDashboardComponent.selectedSeatAdmin c) as [seat|] eqn:Hseat;
    [|contradiction].
  destruct (@explicitSeats_offered c (chaabiSeatStatuses st) table seat x
              Htable (Hoffered seat eq_refl) Hx) as [Hfree|Hown];
    [assumption|].
  unfold AdminDashboardComponent.editingSeats in Hown.
  rewrite Hediting in Hown. contradiction.
Qed.

(** X18, with seat (1,2) blocked and the form on a duo, table 1, seat 3. *)
Lemma offered_seat_add_consistent_witness :
  Consistent
    (snd (AdminDashboardComponent.addReservationAdmin
            noDraw 5
            (AdminDashboardComponent.mkComponent
               [] None "Amal" "0600000000" "Pack duo" (Some 1) (Some 3))
            neighbourBlocked)).
Proof.
  apply offered_seat_add_consistent.
  - split; [exact I|]. intros seat. simpl. tauto.
  - reflexivity.
  - intros seat Hseat. inversion Hseat; subst. vm_compute. tauto.
Defined.

(** X19 — when the dashboard's copy of the reservations is current and the
    seat on the form, if any, is one the seat dropdown offers, the
    administrator's update keeps reservations and seat statuses
    consistent. *)
Theorem offered_seat_update_consistent rnd now c st :
  Consistent st ->
  AdminDashboardComponent.reservations c = chaabiReservations st ->
  (forall seat, AdminDashboardComponent.selectedSeatAdmin c = Some seat ->
     In seat (AdminDashboardComponent.getAvailableSeats
                c (chaabiSeatStatuses st))) ->
  Consistent
    (snd (AdminDashboardComponent.updateReservationAdmin rnd now c st)).
Proof.
  intros Hst Hcache Hoffered. apply consistent_updateReservationAdmin;
    [assumption | assumption |].
  intros editing table old x Hediting Htable Hfind Hx.
  destruct (AdminDashboardComponent.selectedSeatAdmin c) as [seat|] eqn:Hseat;
    [|contradiction].
  destruct (@explicitSeats_offered c (chaabiSeatStatuses st) table seat x
              Htable (Hoffered seat eq_refl) Hx) as [Hfree|Hown];
    [now left | right].
  unfold AdminDashboardComponent.editingSeats in Hown.
  now rewrite Hediting, Hcache, Hfind in Hown.
Qed.

(** X19, on the store where reservation 1 holds (1,1): the reservation is
    moved to a duo starting at its own seat. *)
Lemma offered_seat_update_consistent_witness :
  Consistent
    (snd (AdminDashboardComponent.updateReservationAdmin
            noDraw 9
            (AdminDashboardComponent.mkComponent
               (chaabiReservations oneTicketSold) (Some 1)
               "Amal" "0600000000" "Pack duo" (Some 1) (Some 1))
            oneTicketSold)).
Proof.
  apply offered_seat_update_consistent.
  - apply consistent_finalizePackReservation.
    split; [exact I|]. intros seat. simpl. tauto.
  - reflexivity.
  - intros seat Hseat. inversion Hseat; subst. vm_compute. tauto.
Defined.

(** X20 — [editReservation] loads the reservation into the form but always
    leaves the table and the seat unselected (the selections it infers are
    reset by [onPackChange]); an update submitted right after it, before a
    table is chosen, changes nothing. *)
Theorem editReservation_leaves_table_unselected r c rnd now st :
  let c' := AdminDashboardComponent.editReservation r c in
  AdminDashboardComponent.editingId c' = Some (id r)
  /\ AdminDashboardComponent.newName c' = name r
  /\ AdminDashboardComponent.newPhone c' = phone r
  /\ AdminDashboardComponent.selectedPackAdmin c' = pack r
  /\ AdminDashboardComponent.selectedTableAdmin c' = None
  /\ AdminDashboardComponent.selectedSeatAdmin c' = None
  /\ AdminDashboardComponent.getAvailableSeats c' (chaabiSeatStatuses st) = []
  /\ AdminDashboardComponent.updateReservationAdmin rnd now c' st = (c', st).
Proof.
  cbv zeta. unfold AdminDashboardComponent.editReservation.
  destruct (seats r); repeat split.
Qed.

(** X21 — the administrator's delete frees exactly the seats of the
    reservation: every entry of one of its seats is removed, whatever its
    source, every other entry stays in place, and the reservation leaves
    the list; with an id the dashboard does not know nothing changes. *)
Theorem admin_delete_frees_exactly i c st :
  AdminDashboardComponent.reservations c = chaabiReservations st ->
  (~ In i (liveIds (chaabiReservations st)) ->
   AdminDashboardComponent.deleteReservation i c st = (c, st))
  /\ (forall r,
        find (fun r => id r =? i) (chaabiReservations st) = Some r ->
        let after := snd (AdminDashboardComponent.deleteReservation i c st) in
        chaabiSeatStatuses after
        = filter (fun e => negb (listedIn (seats r) e)) (chaabiSeatStatuses st)
        /\ (forall x, In x (seats r) ->
              entriesFor (chaabiSeatStatuses after) x = [])
        /\ (forall x, ~ In x (seats r) ->
              entriesFor (chaabiSeatStatuses after) x
              = entriesFor (chaabiSeatStatuses st) x)
        /\ exists before rest,
             chaabiReservations st = before ++ r :: rest
             /\ chaabiReservations after = before ++ rest).
Proof.
  intros Hcache. unfold AdminDashboardComponent.deleteReservation.
  rewrite Hcache. split.
  - intros Hout. rewrite find_all_false; [reflexivity|].
    intros r Hr. apply Nat.eqb_neq. intros Heq. apply Hout.
    unfold liveIds. apply in_map_iff. eauto.
  - intros r Hfind. rewrite Hfind. cbv zeta. simpl.
    destruct (unbookSeats_removes_helper (seats r) (chaabiSeatStatuses st))
      as (Hfilter & Hgone & Hkept).
    split; [exact Hfilter|]. split; [exact Hgone|]. split; [exact Hkept|].
    destruct (find_split _ _ Hfind) as (before & rest & Heq & Hidx & Hrem).
    exists before, rest. split; [assumption|].
    unfold deleteReservation. now rewrite Hidx, Hrem.
Qed.

(** X21, on the store where reservation 1 holds (1,1). *)
Lemma admin_delete_frees_exactly_witness :
  entriesFor
    (chaabiSeatStatuses
       (snd (AdminDashboardComponent.deleteReservation
               1 (ticketForm (chaabiReservations oneTicketSold))
               oneTicketSold)))
    (mkSeat 1 1)
  = [].
Proof.
  destruct (proj2 (@admin_delete_frees_exactly
                     1 (ticketForm (chaabiReservations oneTicketSold))
                     oneTicketSold eq_refl) _ eq_refl)
    as (_ & Hgone & _).
  apply Hgone. now left.
Defined.

Lemma updateReservationAdmin_table_pack rnd now c st editing table old :
  isBlank (AdminDashboardComponent.newName c) = false ->
  isBlank (AdminDashboardComponent.newPhone c) = false ->
  includes "table" (toLowerCase (AdminDashboardComponent.selectedPackAdmin c))
  = true ->
  AdminDashboardComponent.editingId c = Some editing ->
  AdminDashboardComponent.selectedTableAdmin c = Some table ->
  AdminDashboardComponent.reservations c = chaabiReservations st ->
  find (fun r => id r =? editing) (chaabiReservations st) = Some old ->
  let newSeats := unoccupiedSeats (chaabiSeatStatuses st) table in
  snd (AdminDashboardComponent.updateReservationAdmin rnd now c st)
  = mkStorage
      (snd (updateReservation editing
              (mkDraft (AdminDashboardComponent.newName c)
                       (AdminDashboardComponent.newPhone c)
                       (AdminDashboardComponent.selectedPackAdmin c)
                       newSeats now)
              (chaabiReservations st)))
      (bookSeats newSeats user
                 (unbookSeats (seats old) (chaabiSeatStatuses st))).
Proof.
  intros Hname Hphone Hpack Hediting Htable Hcache Hfind newSeats.
  assert (Hblank : isBlank (AdminDashboardComponent.selectedPackAdmin c) = false)
    by (apply (@includes_not_blank "table" _ Hpack); discriminate).
  unfold AdminDashboardComponent.updateReservationAdmin.
  rewrite Hediting, Htable, Hname, Hphone, Hblank, Hcache, Hfind.
  simpl orb. cbv iota.
  unfold AdminDashboardComponent.buildSeats. rewrite Hpack.
  rewrite freeSeatsOfTable_unoccupied. fold newSeats. cbv beta iota zeta.
  now rewrite book_if_any, unbook_if_any.
Qed.

(** X22 — an update to a table pack on a table none of whose seats holds an
    entry gives the reservation the ten seats of the table, books each of
    them for a user, and frees every former seat of the reservation. *)
Theorem update_to_free_table rnd now c st editing table old :
  isBlank (AdminDashboardComponent.newName c) = false ->
  isBlank (AdminDashboardComponent.newPhone c) = false ->
  includes "table" (toLowerCase (AdminDashboardComponent.selectedPackAdmin c))
  = true ->
  AdminDashboardComponent.editingId c = Some editing ->
  AdminDashboardComponent.selectedTableAdmin c = Some table ->
  AdminDashboardComponent.reservations c = chaabiReservations st ->
  find (fun r => id r =? editing) (chaabiReservations st) = Some old ->
  (forall x, In x (tableSeats table) ->
     entriesFor (chaabiSeatStatuses st) x = []) ->
  let after :=
    snd (AdminDashboardComponent.updateReservationAdmin rnd now c st) in
  (exists r,
      find (fun r => id r =? editing) (chaabiReservations after) = Some r
      /\ seats r = tableSeats table)
  /\ (forall x, In x (tableSeats table) ->
        entriesFor (chaabiSeatStatuses after) x = [entryOf user x])
  /\ (forall x, In x (seats old) -> ~ In x (tableSeats table) ->
        entriesFor (chaabiSeatStatuses after) x = []).
Proof.
  intros Hname Hphone Hpack Hediting Htable Hcache Hfind Hfree. cbv zeta.
  rewrite (updateReservationAdmin_table_pack
             rnd now c st Hname Hphone Hpack Hediting Htable Hcache Hfind).
  assert (Hall : unoccupiedSeats (chaabiSeatStatuses st) table
                 = tableSeats table).
  { unfold unoccupiedSeats. apply filter_all. intros x Hx.
    now rewrite (Hfree x Hx). }
  rewrite Hall. cbn [chaabiReservations chaabiSeatStatuses]. split; [|split].
  - destruct (find_findIndex _ _ Hfind) as (index & Hindex).
    unfold updateReservation. rewrite Hindex. simpl. eexists. split.
    + apply (find_replaced _ _ _ Hindex). simpl. apply Nat.eqb_refl.
    + reflexivity.
  - intros x Hx. apply entriesFor_bookSeats_absent; [assumption|].
    apply entriesFor_unbookSeats_nil. right. now apply Hfree.
  - intros x Hold Hout. rewrite entriesFor_bookSeats_outside by assumption.
    apply entriesFor_unbookSeats_nil. now left.
Qed.

(** X22, on the store where reservation 1 holds (1,1): the reservation is
    moved to table 2, which is free. *)
Lemma update_to_free_table_witness :
  let after :=
    snd (AdminDashboardComponent.updateReservationAdmin
           noDraw 9 (tablePackForm (chaabiReservations oneTicketSold))
           oneTicketSold) in
  entriesFor (chaabiSeatStatuses after) (mkSeat 2 7) = [mkStatus 2 7 user]
  /\ entriesFor (chaabiSeatStatuses after) (mkSeat 1 1) = [].
Proof.
  cbv zeta.
  destruct (@update_to_free_table
              noDraw 9 (tablePackForm (chaabiReservations oneTicketSold))
              oneTicketSold 1 2 _ eq_refl eq_refl eq_refl eq_refl eq_refl
              eq_refl eq_refl)
    as (_ & Hbooked & Hfreed).
  - intros x Hx. simpl in Hx.
    repeat (destruct Hx as [<-|Hx]; [reflexivity|]). contradiction.
  - split.
    + apply Hbooked. simpl. tauto.
    + apply Hfreed; [now left|]. simpl. intros Hin.
      repeat (destruct Hin as [Heq|Hin]; [discriminate|]). contradiction.
Defined.

(** X23 — the new seats of an update are computed before the old ones are
    released: a table pack on a table all of whose seats hold an entry
    (for instance the table the reservation itself occupies) leaves the
    reservation with no seat, books nothing and only unbooks the old
    seats. *)
Theorem update_on_occupied_table rnd now c st editing table old :
  isBlank (AdminDashboardComponent.newName c) = false ->
  isBlank (AdminDashboardComponent.newPhone c) = false ->
  includes "table" (toLowerCase (AdminDashboardComponent.selectedPackAdmin c))
  = true ->
  AdminDashboardComponent.editingId c = Some editing ->
  AdminDashboardComponent.selectedTableAdmin c = Some table ->
  AdminDashboardComponent.reservations c = chaabiReservations st ->
  find (fun r => id r =? editing) (chaabiReservations st) = Some old ->
  (forall x, In x (tableSeats table) ->
     entriesFor (chaabiSeatStatuses st) x <> []) ->
  let after :=
    snd (AdminDashboardComponent.updateReservationAdmin rnd now c st) in
  (exists r,
      find (fun r => id r =? editing) (chaabiReservations after) = Some r
      /\ seats r = [])
  /\ chaabiSeatStatuses after
     = unbookSeats (seats old) (chaabiSeatStatuses st)
  /\ (seats old = tableSeats table ->
      forall x, In x (tableSeats table) ->
        entriesFor (chaabiSeatStatuses after) x = []).
Proof.
  intros Hname Hphone Hpack Hediting Htable Hcache Hfind Hbusy. cbv zeta.
  rewrite (updateReservationAdmin_table_pack
             rnd now c st Hname Hphone Hpack Hediting Htable Hcache Hfind).
  assert (Hnone : unoccupiedSeats (chaabiSeatStatuses st) table = []).
  { unfold unoccupiedSeats. apply filter_none. intros x Hx.
    specialize (Hbusy x Hx).
    now destruct (entriesFor (chaabiSeatStatuses st) x). }
  rewrite Hnone. cbn [chaabiReservations chaabiSeatStatuses bookSeats fold_left].
  split; [|split].
  - destruct (find_findIndex _ _ Hfind) as (index & Hindex).
    unfold updateReservation. rewrite Hindex. simpl. eexists. split.
    + apply (find_replaced _ _ _ Hindex). simpl. apply Nat.eqb_refl.
    + reflexivity.
  - reflexivity.
  - intros Hown x Hx. apply entriesFor_unbookSeats_nil. left.
    now rewrite Hown.
Qed.

(** X23, on the store where reservation 1 holds table 2 and is updated to a
    table pack on table 2: it ends with no seat and the table is free. *)
Lemma update_on_occupied_table_witness :
  let after :=
    snd (AdminDashboardComponent.updateReservationAdmin
           noDraw 9 (tablePackForm (chaabiReservations table2Taken))
           table2Taken) in
  (exists r,
      find (fun r => id r =? 1) (chaabiReservations after) = Some r
      /\ seats r = [])
  /\ entriesFor (chaabiSeatStatuses after) (mkSeat 2 5) = [].
Proof.
  cbv zeta.
  destruct (@update_on_occupied_table
              noDraw 9 (tablePackForm (chaabiReservations table2Taken))
              table2Taken 1 2 _ eq_refl eq_refl eq_refl eq_refl eq_refl
              eq_refl eq_refl)
    as (Hempty & _ & Hfreed).
  - intros x Hx. simpl in Hx.
    repeat (destruct Hx as [<-|Hx]; [discriminate|]). contradiction.
  - split; [exact Hempty|]. apply Hfreed; [reflexivity|]. simpl. tauto.
Defined.

Lemma toggleSeat_frees t s statuses :
  NoDup (map seatOf statuses) ->
  entriesFor statuses (mkSeat t s) <> [] ->
  entriesFor (toggleSeat t s statuses) (mkSeat t s) = [].
Proof.
  intros Hnd Hbusy. unfold toggleSeat.
  destruct (findIndex (sameSeat t s) statuses) as [index|] eqn:Hfind.
  - apply findIndex_some in Hfind
      as (before & x & after & -> & _ & Hx & _ & ->).
    rewrite map_app in Hnd. simpl in Hnd.
    apply NoDup_remove_2 in Hnd. rewrite <- map_app in Hnd.
    apply sameSeat_true in Hx. apply entriesFor_nil.
    intros e He Heq. apply Hnd. apply in_map_iff. exists e.
    split; [congruence | assumption].
  - destruct Hbusy. apply entriesFor_nil. intros e He Heq.
    rewrite findIndex_none in Hfind.
    assert (Htrue : sameSeat t s e = true) by now apply sameSeat_true.
    rewrite (Hfind e He) in Htrue. discriminate.
Qed.

(** X24 — [toggleSeatAdmin] never touches the reservations: toggling a seat
    that belongs to a live reservation, in a consistent store with one
    entry per seat, frees the seat while the reservation still lists it,
    and the store is no longer consistent. *)
Theorem toggleSeatAdmin_desynchronises seat st :
  Consistent st ->
  NoDup (map seatOf (chaabiSeatStatuses st)) ->
  In (ReservationComponent.seatRefOf seat)
     (reservedSeats (chaabiReservations st)) ->
  let after := AdminDashboardComponent.toggleSeatAdmin seat st in
  chaabiReservations after = chaabiReservations st
  /\ entriesFor (chaabiSeatStatuses after)
                (ReservationComponent.seatRefOf seat) = []
  /\ ~ Consistent after.
Proof.
  intros [Hdisjoint Hsame] Hnd Hin. cbv zeta.
  assert (Hfreed : entriesFor
                     (chaabiSeatStatuses
                        (AdminDashboardComponent.toggleSeatAdmin seat st))
                     (ReservationComponent.seatRefOf seat) = []).
  { apply (@toggleSeat_frees _ _ (chaabiSeatStatuses st) Hnd).
    apply userSeats_have_entries, Hsame. exact Hin. }
  split; [reflexivity|]. split; [exact Hfreed|].
  intros [_ Hafter]. revert Hfreed. apply userSeats_have_entries.
  apply Hafter. exact Hin.
Qed.

(** X24, on the store where reservation 1 holds (1,1): the administrator
    toggles seat 1. *)
Lemma toggleSeatAdmin_desynchronises_witness :
  ~ Consistent (AdminDashboardComponent.toggleSeatAdmin 1 oneTicketSold).
Proof.
  apply (@toggleSeatAdmin_desynchronises 1 oneTicketSold).
  - apply consistent_finalizePackReservation.
    split; [exact I|]. intros seat. simpl. tauto.
  - simpl. constructor; [intros [] | constructor].
  - simpl. now left.
Defined.

(** ** AdminDashboardComponent: the tables offered *)

Lemma getCount_setCount_same key v : forall counts,
  getCount key (setCount key v counts) = Some v.
Proof.
  induction counts as [|[k w] rest IH]; simpl.
  - now rewrite Nat.eqb_refl.
  - destruct (Nat.ltb_spec key k) as [Hlt|Hge]; simpl.
    + now rewrite Nat.eqb_refl.
    + destruct (Nat.eqb_spec key k) as [->|Hneq]; simpl.
      * now rewrite Nat.eqb_refl.
      * destruct (Nat.eqb_spec k key); [congruence | exact IH].
Qed.

Lemma getCount_setCount_other key v key' : forall counts,
  key' <> key -> getCount key' (setCount key v counts) = getCount key' counts.
Proof.
  intros counts Hneq. induction counts as [|[k w] rest IH]; simpl.
  - destruct (Nat.eqb_spec key key'); [congruence | reflexivity].
  - destruct (Nat.ltb_spec key k) as [Hlt|Hge]; simpl.
    + destruct (Nat.eqb_spec key key'); [congruence | reflexivity].
    + destruct (Nat.eqb_spec key k) as [->|Hk]; simpl.
      * destruct (Nat.eqb_spec k key'); [congruence | reflexivity].
      * destruct (Nat.eqb_spec k key'); [reflexivity | exact IH].
Qed.

Lemma in_objectKeys key : forall counts,
  In key (objectKeys counts) <-> getCount key counts <> None.
Proof.
  induction counts as [|[k w] rest IH]; simpl.
  - split; [intros [] | congruence].
  - destruct (Nat.eqb_spec k key) as [->|Hneq].
    + split; [discriminate | now left].
    + rewrite <- IH. split; [intros [?|?]; [contradiction | assumption]|].
      now right.
Qed.

Lemma objectKeys_setCount key v : forall counts,
  StronglySorted lt (objectKeys counts) ->
  StronglySorted lt (objectKeys (setCount key v counts)).
Proof.
  induction counts as [|[k w] rest IH]; simpl; intros Hsorted.
  - repeat constructor.
  - apply StronglySorted_inv in Hsorted as [Hrest Hall].
    destruct (Nat.ltb_spec key k) as [Hlt|Hge]; simpl.
    + constructor; [now constructor|].
      constructor; [assumption|].
      eapply Forall_impl; [|exact Hall]. simpl. intros. lia.
    + destruct (Nat.eqb_spec key k) as [->|Hneq]; simpl.
      * now constructor.
      * constructor; [now apply IH|].
        apply Forall_forall. intros x Hx.
        apply in_objectKeys in Hx.
        destruct (Nat.eq_dec x key) as [->|Hx']; [lia|].
        rewrite getCount_setCount_other in Hx by assumption.
        apply in_objectKeys in Hx. rewrite Forall_forall in Hall. auto.
Qed.

Lemma increasing_seq : forall n a, StronglySorted lt (seq a n).
Proof.
  induction n as [|n IH]; intros a; simpl; constructor; [apply IH|].
  apply Forall_forall. intros x Hx. apply in_seq in Hx. lia.
Qed.

Lemma increasing_filter (p : nat -> bool) l :
  StronglySorted lt l -> StronglySorted lt (filter p l).
Proof.
  induction 1 as [|a l Hsorted IH Hall]; simpl; [constructor|].
  destruct (p a); [|assumption]. constructor; [assumption|].
  apply Forall_forall. intros x Hx. apply filter_In in Hx as [Hx _].
  rewrite Forall_forall in Hall. auto.
Qed.

Lemma increasing_ext : forall l1 l2,
  StronglySorted lt l1 -> StronglySorted lt l2 ->
  (forall x, In x l1 <-> In x l2) -> l1 = l2.
Proof.
  induction l1 as [|a r1 IH]; intros l2 H1 H2 Hsame.
  - destruct l2 as [|b r2]; [reflexivity|].
    destruct (proj2 (Hsame b) (or_introl eq_refl)).
  - destruct l2 as [|b r2]; [destruct (proj1 (Hsame a) (or_introl eq_refl))|].
    apply StronglySorted_inv in H1 as [H1 Ha].
    apply StronglySorted_inv in H2 as [H2 Hb].
    rewrite Forall_forall in Ha, Hb.
    assert (Hab : a = b).
    { destruct (proj1 (Hsame a) (or_introl eq_refl)) as [Heq|Hin];
        [now symmetry|].
      destruct (proj2 (Hsame b) (or_introl eq_refl)) as [Heq|Hin'];
        [assumption|].
      specialize (Ha b Hin'). specialize (Hb a Hin). lia. }
    subst b. f_equal. apply IH; [assumption | assumption|].
    intros x. split; intros Hx.
    + destruct (proj1 (Hsame x) (or_intror Hx)) as [Heq|Hin]; [|assumption].
      specialize (Ha x Hx). lia.
    + destruct (proj2 (Hsame x) (or_intror Hx)) as [Heq|Hin]; [|assumption].
      specialize (Hb x Hx). lia.
Qed.

Lemma getCount_initial t v : forall keys counts,
  getCount t (fold_left (fun acc key => setCount key v acc) keys counts)
  = if includesNat t keys then Some v else getCount t counts.
Proof.
  induction keys as [|k rest IH]; intros counts; [reflexivity|].
  simpl fold_left. rewrite IH. unfold includesNat. simpl existsb.
  fold (includesNat t rest).
  destruct (includesNat t rest); [now rewrite orb_true_r|].
  rewrite orb_false_r.
  destruct (Nat.eqb_spec t k) as [->|Hneq].
  - apply getCount_setCount_same.
  - now apply getCount_setCount_other.
Qed.

(** The entry of table [t] after the [forEach] of [getAvailableTables]. *)
Lemma getCount_countStatus c t : forall statuses counts,
  getCount t (fold_left (AdminDashboardComponent.countStatus c) statuses counts)
  = match getCount t counts with
    | Some v => Some (v - Z.of_nat (occupancy c statuses t))%Z
    | None => if occupancy c statuses t =? 0 then None
              else Some (- Z.of_nat (occupancy c statuses t))%Z
    end.
Proof.
  induction statuses as [|e rest IH]; intros counts.
  - simpl. destruct (getCount t counts); [f_equal; lia | reflexivity].
  - simpl fold_left. rewrite IH. clear IH.
    unfold occupancy. simpl filter.
    unfold AdminDashboardComponent.countStatus.
    destruct (AdminDashboardComponent.isEditingSeat c _ _); simpl negb.
    + rewrite andb_false_l. reflexivity.
    + rewrite andb_true_l.
      destruct (Nat.eqb_spec (s_tableId e) t) as [->|Hneq].
      * rewrite getCount_setCount_same. simpl length.
        destruct (getCount t counts); cbv beta iota zeta.
        -- f_equal. lia.
        -- change (S _ =? 0) with false. cbv iota. f_equal. lia.
      * rewrite getCount_setCount_other by congruence. reflexivity.
Qed.

Lemma objectKeys_countStatus c : forall statuses counts,
  StronglySorted lt (objectKeys counts) ->
  StronglySorted lt
    (objectKeys (fold_left (AdminDashboardComponent.countStatus c)
                           statuses counts)).
Proof.
  induction statuses as [|e rest IH]; intros counts Hsorted; [assumption|].
  simpl. apply IH. unfold AdminDashboardComponent.countStatus.
  destruct (AdminDashboardComponent.isEditingSeat c _ _); [assumption|].
  now apply objectKeys_setCount.
Qed.

(** X25 — the tables the administrator's table dropdown offers are, in
    ascending order, the tables 1 to 25 on which at least the required
    number of seats (10 for a table pack, 2 for a duo, 1 otherwise) remains
    once the status entries of the table, other than those of the
    reservation being edited, are subtracted from 10.  Entries are counted
    by table id alone, so for a duo the remaining seats need not be
    adjacent, and an entry with a table id outside the plan never adds a
    table to the list. *)
Theorem getAvailableTables_offers c statuses :
  AdminDashboardComponent.getAvailableTables c statuses
  = filter (fun t =>
              (AdminDashboardComponent.requiredSeats
                 (AdminDashboardComponent.selectedPackAdmin c)
               <=? 10 - Z.of_nat (occupancy c statuses t))%Z)
           tableIds.
Proof.
  unfold AdminDashboardComponent.getAvailableTables.
  set (counts0 := fold_left (fun acc table => setCount table 10%Z acc)
                            tableIds []).
  set (counts := fold_left (AdminDashboardComponent.countStatus c)
                           statuses counts0).
  set (required := AdminDashboardComponent.requiredSeats _).
  assert (Hrequired : (1 <= required)%Z).
  { subst required. unfold AdminDashboardComponent.requiredSeats.
    destruct (includes "table" _); [lia|].
    destruct (includes "duo" _); lia. }
  assert (Hkeys0 : objectKeys counts0 = tableIds) by reflexivity.
  assert (Hget0 : forall t, getCount t counts0
                            = if includesNat t tableIds then Some 10%Z
                              else None).
  { intros t. subst counts0. now rewrite getCount_initial. }
  assert (Hget : forall t, getCount t counts
             = match (if includesNat t tableIds then Some 10%Z else None) with
               | Some v => Some (v - Z.of_nat (occupancy c statuses t))%Z
               | None => if occupancy c statuses t =? 0 then None
                         else Some (- Z.of_nat (occupancy c statuses t))%Z
               end).
  { intros t. subst counts. now rewrite getCount_countStatus, Hget0. }
  apply increasing_ext.
  - apply increasing_filter. subst counts. apply objectKeys_countStatus.
    rewrite Hkeys0. apply increasing_seq.
  - apply increasing_filter, increasing_seq.
  - intros t. rewrite !filter_In, in_objectKeys, Hget.
    destruct (includesNat t tableIds) eqn:Hin.
    + apply includesNat_true in Hin. split.
      * intros [_ Hle]. auto.
      * intros [_ Hle]. split; [discriminate | exact Hle].
    + assert (Hout : ~ In t tableIds).
      { intros Hmem. apply includesNat_true in Hmem. congruence. }
      split; [|tauto]. intros [_ Hle].
      destruct (occupancy c statuses t =? 0) eqn:Hocc; [discriminate|].
      apply Z.leb_le in Hle. apply Nat.eqb_neq in Hocc. lia.
Qed.

(** ** More on assignSeats and witnesses *)

Lemma chooseSeats_length rnd count statuses :
  length (chooseSeats rnd count statuses)
  = Nat.min count (length (allFreeSeats statuses)).
Proof.
  destruct (chooseSeats_cases rnd count statuses)
    as [->|(Hlen & Hnd & Hincl)].
  - destruct (pickRandom_split rnd count 0 (allFreeSeats statuses))
      as (_ & _ & Hlen). exact Hlen.
  - apply (NoDup_incl_length Hnd) in Hincl. lia.
Qed.

(** X26 — a table pack is not always seated at one table: when no table is
    entirely free but at least ten seats are, [assignSeats(10)] still
    returns ten seats, taken from the random fallback, and they are not all
    at the same table. *)
Theorem table_pack_can_be_scattered rnd statuses :
  (forall t, isTable t ->
     exists s, isSeat s /\ entriesFor statuses (mkSeat t s) <> []) ->
  10 <= length (allFreeSeats statuses) ->
  let chosen := fst (assignSeats rnd 10 statuses) in
  length chosen = 10
  /\ ~ (exists t, forall x, In x chosen -> tableId x = t).
Proof.
  intros Hbusy Hroom. cbv zeta.
  change (fst (assignSeats rnd 10 statuses))
    with (chooseSeats rnd 10 statuses).
  assert (Hlen : length (chooseSeats rnd 10 statuses) = 10)
    by (rewrite chooseSeats_length; lia).
  split; [exact Hlen|]. intros (t & Hsame).
  destruct (chooseSeats_fresh rnd 10 statuses) as [Hnd Hincl].
  assert (Hseats : incl seatIds (map seatId (chooseSeats rnd 10 statuses))).
  { apply NoDup_length_incl.
    - apply Finite.Injective_map_NoDup_in; [|assumption].
      intros x y Hx Hy Heq. destruct x as [tx sx], y as [ty sy].
      apply Hsame in Hx, Hy. simpl in *. congruence.
    - rewrite length_map, Hlen. reflexivity.
    - intros s Hs. apply in_map_iff in Hs as (x & <- & Hx).
      apply Hincl, in_allFreeSeats in Hx. now apply in_seatIds. }
  destruct (chooseSeats rnd 10 statuses) as [|x0 rest] eqn:Hchosen;
    [simpl in Hlen; discriminate Hlen|].
  assert (Ht : isTable t).
  { rewrite <- (Hsame x0 (or_introl eq_refl)).
    now apply (in_allFreeSeats statuses x0), Hincl; left. }
  destruct (Hbusy t Ht) as (s & Hs & Hentry).
  apply in_seatIds, Hseats, in_map_iff in Hs as (x & Hsx & Hx).
  apply Hentry. rewrite <- Hchosen in Hx.
  assert (Hfree := chooseSeats_free _ _ _ _ Hx).
  rewrite Hchosen in Hx. apply Hsame in Hx.
  destruct x as [tx sx]. simpl in *. now subst.
Qed.

(** X26, on the store where seat 1 of every table is booked. *)
Lemma table_pack_can_be_scattered_witness :
  length (fst (assignSeats noDraw 10 firstSeatsTaken)) = 10.
Proof.
  apply (@table_pack_can_be_scattered noDraw firstSeatsTaken).
  - intros t Ht. exists 1. split; [unfold isSeat; lia|].
    enumerate t; solve [lia | vm_compute; discriminate].
  - vm_compute. lia.
Defined.

(** X8, with three seats asked for and only two free (seats 1 and 10 of
    table 1 in a plan where every other seat is taken). *)
Lemma assignSeats_returns_min_witness :
  length (fst (assignSeats noDraw 3
                 (table1Ends
                  ++ occupy user (flat_map tableSeats (seq 2 24))))) = 2.
Proof.
  rewrite (proj1 (assignSeats_returns_min noDraw 3 _)).
  vm_compute. reflexivity.
Defined.

(** X9, on the empty store: a table pack, then a duo. *)
Lemma assignSeats_never_reuses_witness :
  ~ In (mkSeat 1 1)
       (fst (assignSeats noDraw 2
               (bookSeats [] user (snd (assignSeats noDraw 10 []))))).
Proof.
  apply (@assignSeats_never_reuses noDraw 10 noDraw 2 [] user [] (mkSeat 1 1)).
  vm_compute. tauto.
Defined.

(** X12, after a click on seat 12, on the booked seat 1 and on seat 12
    again: the selection is empty, so seat 1 is not in it. *)
Lemma selection_is_free_and_distinct_witness :
  NoDup (runSelects [mkStatus 1 1 user]
           [ClickSeat 12; ClickSeat 1; ClickSeat 13] []).
Proof.
  apply (proj1 (selection_is_free_and_distinct [mkStatus 1 1 user]
                  [ClickSeat 12; ClickSeat 1; ClickSeat 13])).
Defined.

(** X15, on a plan with no free seat: the ticket is recorded with no
    seat. *)
Lemma finalizePackReservation_records_witness :
  exists r,
    chaabiReservations
      (ReservationComponent.finalizePackReservation
         noDraw 3 "Amal" "0600000000"
         (Some (ReservationComponent.mkPackage "Ticket seul" 150 ""))
         (mkStorage [] fullHouse))
    = [r]
    /\ seats r = [].
Proof.
  destruct (finalizePackReservation_records
              noDraw 3 "Amal" "0600000000"
              (ReservationComponent.mkPackage "Ticket seul" 150 "")
              (mkStorage [] fullHouse))
    as (r & Hlist & _ & _ & _ & _ & Hnone).
  exists r. split; [exact Hlist|].
  apply Hnone. vm_compute. reflexivity.
Defined.
